(** * Application state comparison of argo-cd: a shallow embedding

    The development follows two source files:
    - [engine/pkg/utils/kube/kube.go]: [ResourceKey], [GetResourceKey],
      [GetAppInstanceLabel], [UnsetLabel],
      [ServerResourceForGroupVersionKind], [NewKubeConfig], [newAuthInfo],
      [SplitYAML], [WatchWithRetry], [RetryUntilSucceed];
    - [controller/state.go]: [unmarshalManifests],
      [DeduplicateTargetObjects], [getComparisonSettings], [getRepoObjs],
      [CompareAppState], [persistRevisionHistory].

    Conventions.
    - A Go [string] is a [string]; [type SyncStatusCode string] and the
      other string-typed codes stay strings, with the empty string as the
      zero value.
    - A Go pair [(v, err)] is a sum [result]: the code under study reads
      [v] only when [err == nil].  Where the code reads both components
      (the two [IsNamespaced] capabilities) the pair is kept as a pair.
    - A pointer that the code tests against [nil] is an [option].
    - A Go [map] is a [gmap]; [for k, v := range m] visits the entries in an
      order the language leaves unspecified, which is an explicit argument
      of type [MapOrder] here.
    - A Go run-time panic (index out of range) is the [Panic] outcome of the
      [exec] monad.
    - The goroutine loops of kube.go are interaction trees over the events
      they exchange with their environment. *)

From Stdlib Require Import Ascii.
From stdpp Require Import base gmap strings list fin_maps pretty sorting.
From ITree Require ITree ITreeFacts.
From Paco Require paco.

Local Open Scope string_scope.
Local Open Scope list_scope.

(** ** Go values *)

(** [err.Error()] of a non-nil error. *)
Definition error := string.

(** [(v, err)]: [inl v] when [err == nil]. *)
Definition result (A : Type) : Type := A + error.

(** [metav1.Time], as seconds. *)
Definition Time := Z.

(** A computation that may panic. *)
Inductive exec (A : Type) : Type :=
| Done (a : A)
| Panic (why : string).
Arguments Done {A} a.
Arguments Panic {A} why.

#[global] Instance result_ret : MRet result := fun _ a => inl a.
#[global] Instance result_bind : MBind result := fun _ _ f c =>
  match c with
  | inl a => f a
  | inr err => inr err
  end.

#[global] Instance exec_ret : MRet exec := fun _ a => Done a.
#[global] Instance exec_fmap : FMap exec := fun _ _ f c =>
  match c with
  | Done a => Done (f a)
  | Panic why => Panic why
  end.
#[global] Instance exec_bind : MBind exec := fun _ _ f c =>
  match c with
  | Done a => f a
  | Panic why => Panic why
  end.

(** The order in which one [range] statement visits the entries of a map:
    some rearrangement of the entries, chosen by the Go runtime. *)
Record MapOrder := {
  permute : ∀ A : Type, list A → list A;
  permute_perm : ∀ (A : Type) (l : list A), permute A l ≡ₚ l;
}.

Definition go_range `{Countable K} {V : Type}
    (order : MapOrder) (m : gmap K V) : list (K * V) :=
  permute order (K * V) (map_to_list m).

(** ** kube.go: resource identity *)

Record GroupKind := { gkGroup : string; gkKind : string }.

Record GroupVersionKind := {
  gvkGroup : string;
  gvkVersion : string;
  gvkKind : string;
}.

Definition GVK_GroupKind (gvk : GroupVersionKind) : GroupKind :=
  {| gkGroup := gvkGroup gvk; gkKind := gvkKind gvk |}.

(** [unstructured.Unstructured]: the metadata the two files read and
    write, and the rest of the document as an opaque payload. *)
Record Unstructured := {
  uGVK : GroupVersionKind;
  uNamespace : string;
  uName : string;
  uLabels : gmap string string;
  uAnnotations : gmap string string;
  uUID : string;
  uBody : string;
}.

Definition GroupVersionKind_of (obj : Unstructured) : GroupVersionKind := uGVK obj.
Definition GetNamespace (obj : Unstructured) : string := uNamespace obj.
Definition GetName (obj : Unstructured) : string := uName obj.
Definition GetKind (obj : Unstructured) : string := gvkKind (uGVK obj).
Definition GetLabels (obj : Unstructured) : gmap string string := uLabels obj.
Definition GetUID (obj : Unstructured) : string := uUID obj.

(** [group/version], or the version alone for the core group. *)
Definition GetAPIVersion (obj : Unstructured) : string :=
  let gvk := uGVK obj in
  if bool_decide (gvkGroup gvk = "") then gvkVersion gvk
  else gvkGroup gvk +:+ "/" +:+ gvkVersion gvk.

Definition SetNamespace (obj : Unstructured) (namespace : string) : Unstructured :=
  {| uGVK := uGVK obj; uNamespace := namespace; uName := uName obj;
     uLabels := uLabels obj; uAnnotations := uAnnotations obj;
     uUID := uUID obj; uBody := uBody obj |}.

Record ResourceKey := NewResourceKey {
  Group : string;
  Kind : string;
  Namespace : string;
  Name : string;
}.

#[global] Instance ResourceKey_eq_dec : EqDecision ResourceKey.
Proof. solve_decision. Defined.

#[global] Instance ResourceKey_countable : Countable ResourceKey.
Proof.
  refine (inj_countable'
    (fun k => (Group k, Kind k, Namespace k, Name k))
    (fun t => match t with (g, k, ns, n) => NewResourceKey g k ns n end) _).
  by intros [].
Defined.

(** [func (k *ResourceKey) String() string] *)
Definition ResourceKey_String (k : ResourceKey) : string :=
  Group k +:+ "/" +:+ Kind k +:+ "/" +:+ Namespace k +:+ "/" +:+ Name k.

Definition GetResourceKey (obj : Unstructured) : ResourceKey :=
  let gvk := GroupVersionKind_of obj in
  NewResourceKey (gvkGroup gvk) (gvkKind gvk) (GetNamespace obj) (GetName obj).

Record ObjectReference := {
  ref_UID : string;
  ref_APIVersion : string;
  ref_Kind : string;
  ref_Name : string;
  ref_Namespace : string;
}.

Definition GetObjectRef (obj : Unstructured) : ObjectReference :=
  {| ref_UID := GetUID obj;
     ref_APIVersion := GetAPIVersion obj;
     ref_Kind := GetKind obj;
     ref_Name := GetName obj;
     ref_Namespace := GetNamespace obj |}.

(** [labels[key]] is the empty string for a missing key and for nil labels. *)
Definition GetAppInstanceLabel (un : Unstructured) (key : string) : string :=
  default "" (GetLabels un !! key).

(** [type ResourceInfoProvider interface { IsNamespaced(gk) (bool, error) }] *)
Record ResourceInfoProvider := {
  IsNamespaced : GroupKind → bool * option error;
}.

(** [resourceInfoProviderStub] of state.go. *)
Definition resourceInfoProviderStub : ResourceInfoProvider :=
  {| IsNamespaced := fun _ => (false, None) |}.

(** ** v1alpha1 types used by state.go *)

(** The constants of the package pkg/apis/application/v1alpha1 are
    declared outside the two files; they are strings there, and the facts
    below use of their values only that the four condition types differ. *)
Definition ApplicationConditionType := string.
Definition ApplicationConditionComparisonError : ApplicationConditionType := "ComparisonError".
Definition ApplicationConditionSharedResourceWarning : ApplicationConditionType := "SharedResourceWarning".
Definition ApplicationConditionRepeatedResourceWarning : ApplicationConditionType := "RepeatedResourceWarning".
Definition ApplicationConditionExcludedResourceWarning : ApplicationConditionType := "ExcludedResourceWarning".

Record ApplicationCondition := {
  Type_ : ApplicationConditionType;
  Message : string;
  LastTransitionTime : option Time;
}.


(** ** state.go: DeduplicateTargetObjects *)

(** The body of the first loop up to the computation of the key: the
    namespace is cleared for a kind that is not namespaced and imputed for a
    namespaced object without one.  Only the boolean of [IsNamespaced] is
    bound by the source. *)
Definition imputeNamespace (namespace : string) (infoProvider : ResourceInfoProvider)
    (obj : Unstructured) : Unstructured :=
  let isNamespaced := (IsNamespaced infoProvider (GVK_GroupKind (GroupVersionKind_of obj))).1 in
  if negb isNamespaced then SetNamespace obj ""
  else if String.eqb (GetNamespace obj) "" then SetNamespace obj namespace
  else obj.

(** [targetByKey[key] = append(targetByKey[key], obj)] over the input. *)
Definition groupTargets (namespace : string) (infoProvider : ResourceInfoProvider)
    (objs : list Unstructured) : gmap ResourceKey (list Unstructured) :=
  foldl (fun targetByKey obj0 =>
           let obj := imputeNamespace namespace infoProvider obj0 in
           let key := GetResourceKey obj in
           <[key := default [] (targetByKey !! key) ++ [obj]]> targetByKey)
        ∅ objs.

(** [fmt.Sprintf("Resource %s appeared %d times among application resources.", ...)] *)
Definition repeatedMessage (key : ResourceKey) (n : nat) : string :=
  "Resource " +:+ ResourceKey_String key +:+ " appeared " +:+ pretty n
    +:+ " times among application resources.".

Definition repeatedCondition (key : ResourceKey) (n : nat) (now : Time) : ApplicationCondition :=
  {| Type_ := ApplicationConditionRepeatedResourceWarning;
     Message := repeatedMessage key n;
     LastTransitionTime := Some now |}.

(** The second loop, over the entries of [targetByKey] in the order the
    runtime picked; [clock i] is the reading of [metav1.Now()] in the
    iteration of rank [i]. *)
Fixpoint dedupLoop (clock : nat → Time) (i : nat)
    (entries : list (ResourceKey * list Unstructured))
    (conditions : list ApplicationCondition) (result : list Unstructured)
    : exec (list Unstructured * list ApplicationCondition) :=
  match entries with
  | [] => Done (result, conditions)
  | (key, targets) :: rest =>
      let conditions :=
        if bool_decide (1 < length targets)
        then conditions ++ [repeatedCondition key (length targets) (clock i)]
        else conditions in
      match last targets with
      | None => Panic "index out of range [-1]"
      | Some target => dedupLoop clock (S i) rest conditions (result ++ [target])
      end
  end.

Definition DeduplicateTargetObjects (order : MapOrder) (clock : nat → Time)
    (namespace : string) (objs : list Unstructured) (infoProvider : ResourceInfoProvider)
    : exec (list Unstructured * list ApplicationCondition * option error) :=
  let targetByKey := groupTargets namespace infoProvider objs in
  '(result, conditions) ← dedupLoop clock 0 (go_range order targetByKey) [] [];
  mret (result, conditions, None).


(** ** kube.go: SplitYAML *)

Definition newline : string := String "010"%char "".

(** [regexp.MustCompile(`\n---`)]: the pattern is a literal. *)
Definition diffSeparator : string := newline +:+ "---".

(** [diffSeparator.Split(out, -1)] for a literal, non-empty pattern: the
    text between successive leftmost, non-overlapping occurrences, the text
    after the last occurrence included (also when it is empty).  [skip] counts
    the characters of a matched occurrence still to be dropped, [cur] is the
    piece read so far. *)
Fixpoint regexpSplit_go (sep : string) (skip : nat) (cur : string) (s : string) : list string :=
  match s with
  | EmptyString => [cur]
  | String c s' =>
      match skip with
      | S k => regexpSplit_go sep k cur s'
      | 0 =>
          if String.prefix sep s
          then cur :: regexpSplit_go sep (String.length sep - 1) "" s'
          else regexpSplit_go sep 0 (cur +:+ String c "") s'
      end
  end.

Definition regexpSplit (sep : string) (s : string) : list string :=
  regexpSplit_go sep 0 "" s.








(** ** kube.go: the two retry loops, as interaction trees *)

(** [time.Duration], in nanoseconds. *)
Definition Duration := Z.
Definition Second : Duration := 1000000000%Z.

(** A handle on a [watch.Interface] returned by [getWatch]. *)
Definition Watch := nat.

(** A [watch.Event], opaque. *)
Definition WatchEvent := string.

(** [struct { *watch.Event; Error error }], the element type of the channel. *)
Record WatchItem := {
  Event : option WatchEvent;
  Error : option error;
}.

(** The outcome of one execution of the [select] statement of [execute]:
    a receive from [w.ResultChan()] with [ok] true, a receive with [ok] false
    (the channel is closed), or a receive from [ctx.Done()]. *)
Variant selected :=
| Received (event : WatchEvent)
| ResultChanClosed
| CtxDone.

(** What the goroutine started by [WatchWithRetry] does to its environment. *)
Variant watchE : Type → Type :=
| GetWatch : watchE (result Watch)
| Select (w : Watch) : watchE selected
| Send (item : WatchItem) : watchE unit
| Stop (w : Watch) : watchE unit
| Sleep (d : Duration) : watchE unit
| Close : watchE unit.

(** What [RetryUntilSucceed] does to its environment.  [ReadCtxCompleted]
    is the read of the variable [ctxCompleted], which the goroutine started at
    the top of the function sets once it has received from [ctx.Done()];
    [CloseStop] is the deferred [close(stop)].  The calls to [log.Debugf] are
    left out. *)
Variant retryE : Type → Type :=
| Action : retryE (option error)
| ReadCtxCompleted : retryE bool
| SleepFor (d : Duration) : retryE unit
| CloseStop : retryE unit.

Module Loops.
Import ITree.ITree.

Notation "'let*' x := t 'in' k" := (ITree.bind t (fun x => k))
  (at level 10, x binder, t at level 100, k at level 200, only parsing).
Notation "t ;;; k" := (ITree.bind t (fun _ => k))
  (at level 100, k at level 200, right associativity, only parsing).

(** The [for { select { ... } }] of [execute], for the watch [w]: the
    boolean it makes [execute] return, next to a nil error. *)
Definition pump (w : Watch) : itree watchE bool :=
  ITree.iter (fun _ : unit =>
    let* s := ITree.trigger (Select w) in
    match s with
    | Received event =>
        ITree.trigger (Send {| Event := Some event; Error := None |}) ;;;
        Ret (inl tt)
    | ResultChanClosed => Ret (inr true)
    | CtxDone => Ret (inr false)
    end) tt.

(** The closure [execute]; [w.Stop()] is deferred to its return. *)
Definition execute : itree watchE (bool * option error) :=
  let* r := ITree.trigger GetWatch in
  match r with
  | inr err => Ret (false, Some err)
  | inl w =>
      let* retry := pump w in
      ITree.trigger (Stop w) ;;;
      Ret (retry, None)
  end.

(** One iteration of the [for] of the goroutine: [inl tt] to go round
    again, [inr tt] to return. *)
Definition watchIteration (_ : unit) : itree watchE (unit + unit) :=
  let* res := execute in
  let '(retry, err) := res in
  match err with
  | Some e => ITree.trigger (Send {| Event := None; Error := Some e |})
  | None => Ret tt
  end ;;;
  if negb retry then Ret (inr tt)
  else ITree.trigger (Sleep Second) ;;; Ret (inl tt).

Definition watchLoop : itree watchE unit := ITree.iter watchIteration tt.

(** The goroutine of [WatchWithRetry]; [close(ch)] is deferred to its
    return.  The function itself only makes the channel, starts the goroutine
    and returns the channel. *)
Definition WatchWithRetry : itree watchE unit :=
  watchLoop ;;; ITree.trigger Close.

(** One iteration of the [for] of [RetryUntilSucceed]. *)
Definition retryIteration (timeout : Duration) (_ : unit) : itree retryE (unit + unit) :=
  let* err := ITree.trigger Action in
  match err with
  | None => Ret (inr tt)
  | Some _ =>
      let* ctxCompleted := ITree.trigger ReadCtxCompleted in
      if ctxCompleted : bool then Ret (inr tt)
      else ITree.trigger (SleepFor timeout) ;;; Ret (inl tt)
  end.

Definition retryLoop (timeout : Duration) : itree retryE unit :=
  ITree.iter (retryIteration timeout) tt.

(** [RetryUntilSucceed(action, desc, ctx, timeout)]: no result is
    returned. *)
Definition RetryUntilSucceed (timeout : Duration) : itree retryE unit :=
  retryLoop timeout ;;; ITree.trigger CloseStop.

(** *** Runs against a scripted environment *)

(** What an observer of the [WatchWithRetry] goroutine sees. *)
Variant watchAction :=
| DidGetWatch (r : result Watch)
| DidSelect (w : Watch) (s : selected)
| DidSend (item : WatchItem)
| DidStop (w : Watch)
| DidSleep (d : Duration)
| DidClose.

(** The answers of the environment: the successive results of [getWatch]
    and the successive outcomes of the [select] statement. *)
Record watchScript := {
  opens : list (result Watch);
  selects : list selected;
}.

(** At most [fuel] steps of a tree against a script: the actions performed
    and the result, if the tree returned within the fuel and the script. *)
Fixpoint runWatch {R : Type} (fuel : nat) (env : watchScript) (t : itree watchE R)
    : list watchAction * option R :=
  match fuel with
  | 0 => ([], None)
  | S n =>
      match observe t with
      | RetF r => ([], Some r)
      | TauF t' => runWatch n env t'
      | VisF e k =>
          match e in watchE X return (X → itree watchE R) → list watchAction * option R with
          | GetWatch => fun k =>
              match opens env with
              | [] => ([], None)
              | r :: rest =>
                  let '(tr, res) :=
                    runWatch n {| opens := rest; selects := selects env |} (k r) in
                  (DidGetWatch r :: tr, res)
              end
          | Select w => fun k =>
              match selects env with
              | [] => ([], None)
              | s :: rest =>
                  let '(tr, res) :=
                    runWatch n {| opens := opens env; selects := rest |} (k s) in
                  (DidSelect w s :: tr, res)
              end
          | Send item => fun k =>
              let '(tr, res) := runWatch n env (k tt) in (DidSend item :: tr, res)
          | Stop w => fun k =>
              let '(tr, res) := runWatch n env (k tt) in (DidStop w :: tr, res)
          | Sleep d => fun k =>
              let '(tr, res) := runWatch n env (k tt) in (DidSleep d :: tr, res)
          | Close => fun k =>
              let '(tr, res) := runWatch n env (k tt) in (DidClose :: tr, res)
          end k
      end
  end.

Variant retryAction :=
| DidAction (err : option error)
| DidReadCtxCompleted (b : bool)
| DidSleepFor (d : Duration)
| DidCloseStop.

(** The successive results of [action()] and the successive values read
    from [ctxCompleted]. *)
Record retryScript := {
  actions : list (option error);
  flags : list bool;
}.

(** What a failed call of [action] contributes to a run that goes on. *)
Definition failedAttempt (timeout : Duration) (e : error) : list retryAction :=
  [DidAction (Some e); DidReadCtxCompleted false; DidSleepFor timeout].

Fixpoint runRetry {R : Type} (fuel : nat) (env : retryScript) (t : itree retryE R)
    : list retryAction * option R :=
  match fuel with
  | 0 => ([], None)
  | S n =>
      match observe t with
      | RetF r => ([], Some r)
      | TauF t' => runRetry n env t'
      | VisF e k =>
          match e in retryE X return (X → itree retryE R) → list retryAction * option R with
          | Action => fun k =>
              match actions env with
              | [] => ([], None)
              | a :: rest =>
                  let '(tr, res) :=
                    runRetry n {| actions := rest; flags := flags env |} (k a) in
                  (DidAction a :: tr, res)
              end
          | ReadCtxCompleted => fun k =>
              match flags env with
              | [] => ([], None)
              | b :: rest =>
                  let '(tr, res) :=
                    runRetry n {| actions := actions env; flags := rest |} (k b) in
                  (DidReadCtxCompleted b :: tr, res)
              end
          | SleepFor d => fun k =>
              let '(tr, res) := runRetry n env (k tt) in (DidSleepFor d :: tr, res)
          | CloseStop => fun k =>
              let '(tr, res) := runRetry n env (k tt) in (DidCloseStop :: tr, res)
          end k
      end
  end.

End Loops.

(** ** state.go: the types of a comparison *)

(** [type SyncStatusCode string] and its three constants; the zero value
    is the empty string. *)
Definition SyncStatusCode := string.
Definition SyncStatusCodeUnknown : SyncStatusCode := "Unknown".
Definition SyncStatusCodeSynced : SyncStatusCode := "Synced".
Definition SyncStatusCodeOutOfSync : SyncStatusCode := "OutOfSync".

Definition HealthStatusCode := string.
Definition HealthStatusUnknown : HealthStatusCode := "Unknown".

(** [common.AnnotationCompareOptions], declared outside the two files: the
    key of the annotation; its value plays no part in the facts below. *)
Definition AnnotationCompareOptions : string := "argocd.argoproj.io/compare-options".

(** Settings values the comparison only passes on. *)
Definition ResourceOverride := string.
Definition ResourceIgnoreDifferences := string.
Definition Normalizer := string.
Definition Repository := string.
Definition ConfigManagementPlugin := string.

Record ApplicationSource := {
  RepoURL : string;
  Path : string;
  TargetRevision : string;
}.

Record ApplicationDestination := {
  Server : string;
  dest_Namespace : string;
}.

Record ApplicationSpec := {
  spec_Source : ApplicationSource;
  Destination : ApplicationDestination;
  IgnoreDifferences : list ResourceIgnoreDifferences;
}.

Record Application := {
  app_Name : string;
  Spec : ApplicationSpec;
}.

Record ComparedTo := {
  ct_Source : ApplicationSource;
  ct_Destination : ApplicationDestination;
}.

Record SyncStatus := {
  ss_Status : SyncStatusCode;
  ss_ComparedTo : ComparedTo;
  ss_Revision : string;
}.

Record HealthStatus := {
  hs_Status : HealthStatusCode;
  hs_Message : string;
}.

Record ResourceStatus := {
  rs_Group : string;
  rs_Version : string;
  rs_Kind : string;
  rs_Namespace : string;
  rs_Name : string;
  rs_Status : SyncStatusCode;
  rs_Health : option HealthStatus;
  rs_Hook : bool;
  rs_RequiresPruning : bool;
}.

Record DiffResult := {
  Modified : bool;
  NormalizedLive : string;
  PredictedLive : string;
}.

Record DiffResultList := {
  Diffs : list DiffResult;
  drl_Modified : bool;
}.

Record managedResource := {
  mr_Target : option Unstructured;
  mr_Live : option Unstructured;
  mr_Diff : DiffResult;
  mr_Group : string;
  mr_Version : string;
  mr_Kind : string;
  mr_Namespace : string;
  mr_Name : string;
  mr_Hook : bool;
}.

(** [sync.ReconciliationResult]: [rr_Target] and [rr_Live] are read by
    index, side by side. *)
Record ReconciliationResult := {
  rr_Live : list (option Unstructured);
  rr_Target : list (option Unstructured);
  rr_Hooks : list Unstructured;
}.

Record comparisonResult := {
  syncStatus : option SyncStatus;
  healthStatus : option HealthStatus;
  resources : list ResourceStatus;
  managedResources : list managedResource;
  reconciliationResult : ReconciliationResult;
  diffNormalizer : option Normalizer;
  appSourceType : string;
}.

(** The zero values that [make] fills the two arrays with. *)
Definition zeroDiffResult : DiffResult :=
  {| Modified := false; NormalizedLive := ""; PredictedLive := "" |}.

Definition zeroResourceStatus : ResourceStatus :=
  {| rs_Group := ""; rs_Version := ""; rs_Kind := ""; rs_Namespace := "";
     rs_Name := ""; rs_Status := ""; rs_Health := None; rs_Hook := false;
     rs_RequiresPruning := false |}.

Definition zeroManagedResource : managedResource :=
  {| mr_Target := None; mr_Live := None; mr_Diff := zeroDiffResult;
     mr_Group := ""; mr_Version := ""; mr_Kind := ""; mr_Namespace := "";
     mr_Name := ""; mr_Hook := false |}.

Definition zeroReconciliationResult : ReconciliationResult :=
  {| rr_Live := []; rr_Target := []; rr_Hooks := [] |}.

(** [GetLiveObjs] *)
Definition GetLiveObjs (res : list managedResource) : list (option Unstructured) :=
  mr_Live <$> res.

(** ** state.go: the collaborators of [appStateManager] *)

Record ManifestResponse := {
  Manifests : list string;
  mi_Revision : string;
  SourceType : string;
}.

Record ManifestRequest := {
  req_Repo : Repository;
  req_Repos : list Repository;
  req_Revision : string;
  req_NoCache : bool;
  req_AppLabelKey : string;
  req_AppLabelValue : string;
  req_Namespace : string;
  req_ApplicationSource : ApplicationSource;
  req_Plugins : list ConfigManagementPlugin;
  req_KustomizeBuildOptions : string;
  req_KubeVersion : string;
}.

Record ArgoDB := {
  ListHelmRepositories : result (list Repository);
  GetRepository : string → result Repository;
}.

Record ResourcesFilter := {
  IsExcludedResource : string → string → string → bool;
}.

Record SettingsManager := {
  GetResourceOverrides : result (gmap string ResourceOverride);
  GetAppInstanceLabelKey : result string;
  GetConfigManagementPlugins : result (list ConfigManagementPlugin);
  GetKustomizeBuildOptions : result string;
  GetResourcesFilter : result ResourcesFilter;
}.

Record RepoServerClient := {
  GenerateManifest : ManifestRequest → result ManifestResponse;
}.

Record Clientset := {
  NewRepoServerClient : result RepoServerClient;
}.

Record LiveStateCache := {
  GetClusterCache : string → result ResourceInfoProvider;
  GetServerVersion : string → result string;
  GetManagedLiveObjs :
    Application → list Unstructured → result (gmap ResourceKey (option Unstructured));
  cache_IsNamespaced : string → GroupKind → bool * option error;
}.

Record appStateManager := {
  db : ArgoDB;
  settingsMgr : SettingsManager;
  repoClientset : Clientset;
  liveStateCache : LiveStateCache;
}.

(** The two methods of [*appv1.AppProject] that the comparison calls. *)
Record AppProject := {
  IsLiveResourcePermitted : option Unstructured → string → bool;
  IsGroupKindPermitted : GroupKind → bool → bool;
}.

(** Functions of other packages of the repository that state.go calls.
    [argohealth_SetApplicationHealth] receives the slice of summaries and
    writes the health of entries into it: the first component of its result
    is what it wrote, by index ([None]: entry left as it was). *)
Record Packages := {
  argo_NewDiffNormalizer :
    list ResourceIgnoreDifferences → gmap string ResourceOverride → result Normalizer;
  v1alpha1_UnmarshalToUnstructured : string → result Unstructured;
  sync_Reconcile :
    list Unstructured → gmap ResourceKey (option Unstructured) → string →
    ResourceInfoProvider → ReconciliationResult;
  diff_DiffArray :
    list (option Unstructured) → list (option Unstructured) → Normalizer →
    result DiffResultList;
  hookutil_IsHook : Unstructured → bool;
  ignore_Ignore : Unstructured → bool;
  resourceutil_HasAnnotationOption : Unstructured → string → string → bool;
  argohealth_SetApplicationHealth :
    list ResourceStatus → list (option Unstructured) → gmap string ResourceOverride →
    (Unstructured → bool) →
    list (option HealthStatus) * option HealthStatus * option error;
  isSelfReferencedApp : Application → ObjectReference → bool;
}.

(** What the Go runtime contributes to one pass: the iteration order of each
    of its three [range] statements over a map, and the clock. *)
Record Runtime := {
  dedupOrder : MapOrder;
  permitOrder : MapOrder;
  sharedOrder : MapOrder;
  dedupClock : nat → Time;
  passNow : Time;
}.

(** ** state.go: loading the target objects *)

Definition comparisonError (err : error) (now : Time) : ApplicationCondition :=
  {| Type_ := ApplicationConditionComparisonError;
     Message := err;
     LastTransitionTime := Some now |}.

Fixpoint unmarshalManifests_go (P : Packages) (manifests : list string)
    (targetObjs : list Unstructured) : result (list Unstructured) :=
  match manifests with
  | [] => inl targetObjs
  | manifest :: rest =>
      match v1alpha1_UnmarshalToUnstructured P manifest with
      | inr err => inr err
      | inl obj => unmarshalManifests_go P rest (targetObjs ++ [obj])
      end
  end.

Definition unmarshalManifests (P : Packages) (manifests : list string)
    : result (list Unstructured) :=
  unmarshalManifests_go P manifests [].

Definition getRepoObjs (P : Packages) (m : appStateManager) (app : Application)
    (source : ApplicationSource) (appLabelKey revision : string) (noCache : bool)
    : result (list Unstructured * ManifestResponse) :=
  helmRepos ← ListHelmRepositories (db m);
  repo ← GetRepository (db m) (RepoURL source);
  repoClient ← NewRepoServerClient (repoClientset m);
  let revision := if bool_decide (revision = "") then TargetRevision source else revision in
  plugins ← GetConfigManagementPlugins (settingsMgr m);
  let tools := plugins in
  buildOptions ← GetKustomizeBuildOptions (settingsMgr m);
  serverVersion ← GetServerVersion (liveStateCache m) (Server (Destination (Spec app)));
  manifestInfo ← GenerateManifest repoClient
    {| req_Repo := repo;
       req_Repos := helmRepos;
       req_Revision := revision;
       req_NoCache := noCache;
       req_AppLabelKey := appLabelKey;
       req_AppLabelValue := app_Name app;
       req_Namespace := dest_Namespace (Destination (Spec app));
       req_ApplicationSource := source;
       req_Plugins := tools;
       req_KustomizeBuildOptions := buildOptions;
       req_KubeVersion := serverVersion |};
  targetObjs ← unmarshalManifests P (Manifests manifestInfo);
  mret (targetObjs, manifestInfo).

Definition getComparisonSettings (P : Packages) (m : appStateManager) (app : Application)
    : result (string * gmap string ResourceOverride * Normalizer) :=
  resourceOverrides ← GetResourceOverrides (settingsMgr m);
  appLabelKey ← GetAppInstanceLabelKey (settingsMgr m);
  diffNormalizer ← argo_NewDiffNormalizer P (IgnoreDifferences (Spec app)) resourceOverrides;
  mret (appLabelKey, resourceOverrides, diffNormalizer).

(** ** state.go: the steps of CompareAppState between the settings and the
    status loop *)

(** Lines 246 to 261: the target objects, the manifest response, the
    conditions and [failedToLoadObjs]. *)
Definition loadTargets (P : Packages) (m : appStateManager) (app : Application)
    (revision : string) (source : ApplicationSource) (noCache : bool)
    (localManifests : list string) (appLabelKey : string) (now : Time)
    : list Unstructured * option ManifestResponse * list ApplicationCondition * bool :=
  if bool_decide (length localManifests = 0) then
    match getRepoObjs P m app source appLabelKey revision noCache with
    | inr err => ([], None, [comparisonError err now], true)
    | inl (targetObjs, manifestInfo) => (targetObjs, Some manifestInfo, [], false)
    end
  else
    match unmarshalManifests P localManifests with
    | inr err => ([], None, [comparisonError err now], true)
    | inl targetObjs => (targetObjs, None, [], false)
    end.

(** Lines 263 to 267. *)
Definition clusterInfoProvider (m : appStateManager) (app : Application) : ResourceInfoProvider :=
  match GetClusterCache (liveStateCache m) (Server (Destination (Spec app))) with
  | inr _ => resourceInfoProviderStub
  | inl infoProvider => infoProvider
  end.

(** Lines 268 to 272: the call of [DeduplicateTargetObjects], the branch
    on its error and the append of its conditions. *)
Definition dedupStep (rt : Runtime) (app : Application) (infoProvider : ResourceInfoProvider)
    (now : Time) (targetObjs : list Unstructured) (conditions : list ApplicationCondition)
    : exec (list Unstructured * list ApplicationCondition) :=
  '(targetObjs, dedupConditions, err) ←
    DeduplicateTargetObjects (dedupOrder rt) (dedupClock rt)
      (dest_Namespace (Destination (Spec app))) targetObjs infoProvider;
  let conditions :=
    match err with
    | Some e => conditions ++ [comparisonError e now]
    | None => conditions
    end in
  mret (targetObjs, conditions ++ dedupConditions).

(** [fmt.Sprintf("Resource %s/%s %s is excluded in the settings", ...)] *)
Definition excludedCondition (targetObj : Unstructured) (now : Time) : ApplicationCondition :=
  let gvk := GroupVersionKind_of targetObj in
  {| Type_ := ApplicationConditionExcludedResourceWarning;
     Message := "Resource " +:+ gvkGroup gvk +:+ "/" +:+ gvkKind gvk +:+ " "
                  +:+ GetName targetObj +:+ " is excluded in the settings";
     LastTransitionTime := Some now |}.

(** Lines 278 to 290: [for i := len(targetObjs) - 1; i >= 0; i--], with
    [n] one more than the index of the iteration. *)
Fixpoint excludeLoop (resFilter : ResourcesFilter) (server : string) (now : Time) (n : nat)
    (targetObjs : list Unstructured) (conditions : list ApplicationCondition)
    : exec (list Unstructured * list ApplicationCondition) :=
  match n with
  | 0 => Done (targetObjs, conditions)
  | S i =>
      match targetObjs !! i with
      | None => Panic "index out of range"
      | Some targetObj =>
          let gvk := GroupVersionKind_of targetObj in
          if IsExcludedResource resFilter (gvkGroup gvk) (gvkKind gvk) server
          then excludeLoop resFilter server now i (delete i targetObjs)
                 (conditions ++ [excludedCondition targetObj now])
          else excludeLoop resFilter server now i targetObjs conditions
      end
  end.

(** Lines 274 to 290. *)
Definition excludeStep (m : appStateManager) (app : Application) (now : Time)
    (targetObjs : list Unstructured) (conditions : list ApplicationCondition)
    : exec (list Unstructured * list ApplicationCondition) :=
  match GetResourcesFilter (settingsMgr m) with
  | inr err => Done (targetObjs, conditions ++ [comparisonError err now])
  | inl resFilter =>
      excludeLoop resFilter (Server (Destination (Spec app))) now
        (length targetObjs) targetObjs conditions
  end.

(** Lines 302 to 306: entries are deleted from the map while it is
    ranged over. *)
Definition dropUnpermitted (order : MapOrder) (project : AppProject) (server : string)
    (liveObjByKey : gmap ResourceKey (option Unstructured))
    : gmap ResourceKey (option Unstructured) :=
  foldl (fun live '(k, v) =>
           if negb (IsLiveResourcePermitted project v server) then delete k live else live)
        liveObjByKey (go_range order liveObjByKey).

(** [fmt.Sprintf("%s/%s is part of a different application: %s", ...)] *)
Definition sharedCondition (liveObj : Unstructured) (appInstanceName : string) (now : Time)
    : ApplicationCondition :=
  {| Type_ := ApplicationConditionSharedResourceWarning;
     Message := GetKind liveObj +:+ "/" +:+ GetName liveObj
                  +:+ " is part of a different application: " +:+ appInstanceName;
     LastTransitionTime := Some now |}.

(** Lines 308 to 319. *)
Definition sharedWarnings (order : MapOrder) (app : Application) (appLabelKey : string)
    (now : Time) (liveObjByKey : gmap ResourceKey (option Unstructured))
    (conditions : list ApplicationCondition) : list ApplicationCondition :=
  foldl (fun conditions '(_, v) =>
           match v with
           | None => conditions
           | Some liveObj =>
               let appInstanceName := GetAppInstanceLabel liveObj appLabelKey in
               if bool_decide (appInstanceName ≠ "") && bool_decide (appInstanceName ≠ app_Name app)
               then conditions ++ [sharedCondition liveObj appInstanceName now]
               else conditions
           end)
        conditions (go_range order liveObjByKey).

(** The local variables of [CompareAppState] when it reaches line 332. *)
Record compareLocals := {
  failedToLoadObjs : bool;
  conditions : list ApplicationCondition;
  manifestInfo : option ManifestResponse;
  reconciliation : ReconciliationResult;
  diffResults : DiffResultList;
}.

(** Lines 235 to 330. *)
Definition comparePrepare (P : Packages) (rt : Runtime) (m : appStateManager)
    (app : Application) (project : AppProject) (revision : string)
    (source : ApplicationSource) (noCache : bool) (localManifests : list string)
    (appLabelKey : string) (diffNormalizer : Normalizer) : exec compareLocals :=
  let now := passNow rt in
  let '(targetObjs, manifestInfo, conditions, failedToLoadObjs) :=
    loadTargets P m app revision source noCache localManifests appLabelKey now in
  let infoProvider := clusterInfoProvider m app in
  '(targetObjs, conditions) ← dedupStep rt app infoProvider now targetObjs conditions;
  '(targetObjs, conditions) ← excludeStep m app now targetObjs conditions;
  let '(liveObjByKey, conditions, failedToLoadObjs) :=
    match GetManagedLiveObjs (liveStateCache m) app targetObjs with
    | inr err => (∅, conditions ++ [comparisonError err now], true)
    | inl liveObjByKey => (liveObjByKey, conditions, failedToLoadObjs)
    end in
  let liveObjByKey :=
    dropUnpermitted (permitOrder rt) project (Server (Destination (Spec app))) liveObjByKey in
  let conditions := sharedWarnings (sharedOrder rt) app appLabelKey now liveObjByKey conditions in
  let reconciliation :=
    sync_Reconcile P targetObjs liveObjByKey (dest_Namespace (Destination (Spec app)))
      infoProvider in
  let '(diffResults, failedToLoadObjs, conditions) :=
    match diff_DiffArray P (rr_Target reconciliation) (rr_Live reconciliation) diffNormalizer with
    | inr err =>
        ({| Diffs := []; drl_Modified := false |}, true,
         conditions ++ [comparisonError err now])
    | inl diffResults => (diffResults, failedToLoadObjs, conditions)
    end in
  mret {| failedToLoadObjs := failedToLoadObjs;
          conditions := conditions;
          manifestInfo := manifestInfo;
          reconciliation := reconciliation;
          diffResults := diffResults |}.

(** ** state.go: the status loop and the result *)

Definition isNil {A : Type} (p : option A) : bool :=
  match p with
  | None => true
  | Some _ => false
  end.

(** Lines 357 to 372: the status the chain of conditionals gives the
    resource (the zero value in the first branch, which assigns none) and the
    value it leaves in [syncCode]. *)
Definition syncClassify (P : Packages) (syncCode : SyncStatusCode)
    (targetObj liveObj : option Unstructured) (obj : Unstructured) (hook : bool)
    (diffResult : DiffResult) : SyncStatusCode * SyncStatusCode :=
  if hook || ignore_Ignore P obj then ("", syncCode)
  else if Modified diffResult || isNil targetObj || isNil liveObj then
    let needsPruning := isNil targetObj && negb (isNil liveObj) in
    (SyncStatusCodeOutOfSync,
     if negb (needsPruning &&
              resourceutil_HasAnnotationOption P obj AnnotationCompareOptions "IgnoreExtraneous")
     then SyncStatusCodeOutOfSync
     else syncCode)
  else (SyncStatusCodeSynced, syncCode).

(** Lines 373 to 382: the two overrides of the status of the resource. *)
Definition groupKindPermitted (m : appStateManager) (app : Application)
    (project : AppProject) (gvk : GroupVersionKind) : bool :=
  let '(isNamespaced, err) :=
    cache_IsNamespaced (liveStateCache m) (Server (Destination (Spec app))) (GVK_GroupKind gvk) in
  IsGroupKindPermitted project (GVK_GroupKind gvk) (isNamespaced && isNil err).

Definition overrideStatus (m : appStateManager) (app : Application) (project : AppProject)
    (failedToLoadObjs : bool) (gvk : GroupVersionKind) (status : SyncStatusCode)
    : SyncStatusCode :=
  let status :=
    if negb (groupKindPermitted m app project gvk) then SyncStatusCodeUnknown else status in
  if failedToLoadObjs then SyncStatusCodeUnknown else status.

(** Lines 337 to 340: [obj := liveObj; if obj == nil { obj = targetObj }]. *)
Definition slotObject (targetObj liveObj : option Unstructured) : option Unstructured :=
  match liveObj with
  | Some o => Some o
  | None => targetObj
  end.

(** [syncCode] and the two arrays, as the loop updates them. *)
Record loopState := {
  st_syncCode : SyncStatusCode;
  st_managedResources : list managedResource;
  st_resourceSummaries : list ResourceStatus;
}.

(** The body of the loop at index [i], from line 337 on. *)
Definition slotBody (P : Packages) (m : appStateManager) (app : Application)
    (project : AppProject) (failedToLoadObjs : bool) (diffResults : DiffResultList)
    (i : nat) (targetObj liveObj : option Unstructured) (st : loopState) : exec loopState :=
  match slotObject targetObj liveObj with
  | None => Done st
  | Some obj =>
      let gvk := GroupVersionKind_of obj in
      let hook := hookutil_IsHook P obj in
      match Diffs diffResults !! i with
      | None => Panic "index out of range"
      | Some diffResult =>
          let '(status, syncCode) :=
            syncClassify P (st_syncCode st) targetObj liveObj obj hook diffResult in
          let status := overrideStatus m app project failedToLoadObjs gvk status in
          let resState :=
            {| rs_Group := gvkGroup gvk;
               rs_Version := gvkVersion gvk;
               rs_Kind := gvkKind gvk;
               rs_Namespace := GetNamespace obj;
               rs_Name := GetName obj;
               rs_Status := status;
               rs_Health := None;
               rs_Hook := hook;
               rs_RequiresPruning := isNil targetObj && negb (isNil liveObj) |} in
          let managed :=
            {| mr_Target := targetObj;
               mr_Live := liveObj;
               mr_Diff := diffResult;
               mr_Group := rs_Group resState;
               mr_Version := rs_Version resState;
               mr_Kind := rs_Kind resState;
               mr_Namespace := rs_Namespace resState;
               mr_Name := rs_Name resState;
               mr_Hook := rs_Hook resState |} in
          Done {| st_syncCode := syncCode;
                  st_managedResources := <[i := managed]> (st_managedResources st);
                  st_resourceSummaries := <[i := resState]> (st_resourceSummaries st) |}
      end
  end.

(** [for i, targetObj := range reconciliation.Target], from index [i] on,
    [targets] being what is left of [reconciliation.Target]. *)
Fixpoint statusLoop (P : Packages) (m : appStateManager) (app : Application)
    (project : AppProject) (failedToLoadObjs : bool) (diffResults : DiffResultList)
    (lives : list (option Unstructured)) (i : nat) (targets : list (option Unstructured))
    (st : loopState) : exec loopState :=
  match targets with
  | [] => Done st
  | targetObj :: rest =>
      match lives !! i with
      | None => Panic "index out of range"
      | Some liveObj =>
          st' ← slotBody P m app project failedToLoadObjs diffResults i targetObj liveObj st;
          statusLoop P m app project failedToLoadObjs diffResults lives (S i) rest st'
      end
  end.

(** Lines 332 to 334. *)
Definition initialLoopState (n : nat) : loopState :=
  {| st_syncCode := SyncStatusCodeSynced;
     st_managedResources := replicate n zeroManagedResource;
     st_resourceSummaries := replicate n zeroResourceStatus |}.

(** Lines 332 to 399: the loop over the slots and the override of the
    aggregate. *)
Definition compareStatuses (P : Packages) (m : appStateManager) (app : Application)
    (project : AppProject) (failedToLoadObjs : bool) (reconciliation : ReconciliationResult)
    (diffResults : DiffResultList) : exec loopState :=
  st ← statusLoop P m app project failedToLoadObjs diffResults (rr_Live reconciliation) 0
         (rr_Target reconciliation)
         (initialLoopState (length (rr_Target reconciliation)));
  mret {| st_syncCode := if failedToLoadObjs then SyncStatusCodeUnknown else st_syncCode st;
          st_managedResources := st_managedResources st;
          st_resourceSummaries := st_resourceSummaries st |}.

(** The write of [SetApplicationHealth] into entry [i] of the summaries. *)
Definition writeHealth (written : list (option HealthStatus)) (i : nat) (rs : ResourceStatus)
    : ResourceStatus :=
  match written !! i with
  | Some (Some h) =>
      {| rs_Group := rs_Group rs; rs_Version := rs_Version rs; rs_Kind := rs_Kind rs;
         rs_Namespace := rs_Namespace rs; rs_Name := rs_Name rs;
         rs_Status := rs_Status rs; rs_Health := Some h; rs_Hook := rs_Hook rs;
         rs_RequiresPruning := rs_RequiresPruning rs |}
  | _ => rs
  end.

(** Lines 332 to 437: the result and the conditions handed to
    [app.Status.SetConditions]. *)
Definition compareFinish (P : Packages) (rt : Runtime) (m : appStateManager)
    (app : Application) (project : AppProject) (source : ApplicationSource)
    (resourceOverrides : gmap string ResourceOverride) (diffNormalizer : Normalizer)
    (L : compareLocals) : exec (comparisonResult * list ApplicationCondition) :=
  st ← compareStatuses P m app project (failedToLoadObjs L) (reconciliation L) (diffResults L);
  let syncStatus :=
    {| ss_ComparedTo := {| ct_Source := source; ct_Destination := Destination (Spec app) |};
       ss_Status := st_syncCode st;
       ss_Revision := match manifestInfo L with
                      | Some mi => mi_Revision mi
                      | None => ""
                      end |} in
  let '(written, healthStatus, err) :=
    argohealth_SetApplicationHealth P (st_resourceSummaries st)
      (GetLiveObjs (st_managedResources st)) resourceOverrides
      (fun obj => negb (isSelfReferencedApp P app (GetObjectRef obj))) in
  let resourceSummaries := imap (writeHealth written) (st_resourceSummaries st) in
  let conditions :=
    match err with
    | Some e => conditions L ++ [comparisonError e (passNow rt)]
    | None => conditions L
    end in
  mret ({| syncStatus := Some syncStatus;
           healthStatus := healthStatus;
           resources := resourceSummaries;
           managedResources := st_managedResources st;
           reconciliationResult := reconciliation L;
           diffNormalizer := Some diffNormalizer;
           appSourceType := match manifestInfo L with
                            | Some mi => SourceType mi
                            | None => ""
                            end |},
        conditions).

(** The result of the early return at line 226. *)
Definition unknownResult (app : Application) (source : ApplicationSource) : comparisonResult :=
  {| syncStatus :=
       Some {| ss_ComparedTo :=
                 {| ct_Source := source; ct_Destination := Destination (Spec app) |};
               ss_Status := SyncStatusCodeUnknown;
               ss_Revision := "" |};
     healthStatus := Some {| hs_Status := HealthStatusUnknown; hs_Message := "" |};
     resources := [];
     managedResources := [];
     reconciliationResult := zeroReconciliationResult;
     diffNormalizer := None;
     appSourceType := "" |}.

(** [CompareAppState]: the result, and the conditions given to
    [app.Status.SetConditions] ([None] when the function returns before the
    call). *)
Definition CompareAppState (P : Packages) (rt : Runtime) (m : appStateManager)
    (app : Application) (project : AppProject) (revision : string)
    (source : ApplicationSource) (noCache : bool) (localManifests : list string)
    : exec (comparisonResult * option (list ApplicationCondition)) :=
  match getComparisonSettings P m app with
  | inr _ => Done (unknownResult app source, None)
  | inl (appLabelKey, resourceOverrides, diffNormalizer) =>
      L ← comparePrepare P rt m app project revision source noCache localManifests
            appLabelKey diffNormalizer;
      '(compRes, conditions) ←
        compareFinish P rt m app project source resourceOverrides diffNormalizer L;
      mret (compRes, Some conditions)
  end.

(** [failedToLoadObjs] of a pass that gets past the settings. *)
Definition passFailedToLoadObjs (P : Packages) (rt : Runtime) (m : appStateManager)
    (app : Application) (project : AppProject) (revision : string)
    (source : ApplicationSource) (noCache : bool) (localManifests : list string)
    : option bool :=
  match getComparisonSettings P m app with
  | inr _ => None
  | inl (appLabelKey, _, diffNormalizer) =>
      match comparePrepare P rt m app project revision source noCache localManifests
              appLabelKey diffNormalizer with
      | Done L => Some (failedToLoadObjs L)
      | Panic _ => None
      end
  end.

(** ** Reconcile, from the specification *)

(** Modelled from the spec: [sync.Reconcile] of the package
    engine/pkg/utils/kube/sync, which is not among the sources read here.
    Section 4.4: every target object, in input order, is paired with
    [liveByKey[key]] for its key (computed with the namespace imputation of
    section 4.1) and that key is removed from the map; every live object
    left gives a slot without target, in the iteration order of the map. *)
Fixpoint reconcileTargets (namespace : string) (infoProvider : ResourceInfoProvider)
    (targetObjs : list Unstructured) (liveObjByKey : gmap ResourceKey (option Unstructured))
    : list (option Unstructured) * gmap ResourceKey (option Unstructured) :=
  match targetObjs with
  | [] => ([], liveObjByKey)
  | target :: rest =>
      let key := GetResourceKey (imputeNamespace namespace infoProvider target) in
      let live := default None (liveObjByKey !! key) in
      let '(lives, remaining) :=
        reconcileTargets namespace infoProvider rest (delete key liveObjByKey) in
      (live :: lives, remaining)
  end.

Definition specReconcile (order : MapOrder) (targetObjs : list Unstructured)
    (liveObjByKey : gmap ResourceKey (option Unstructured)) (namespace : string)
    (infoProvider : ResourceInfoProvider) : ReconciliationResult :=
  let '(lives, remaining) := reconcileTargets namespace infoProvider targetObjs liveObjByKey in
  let extra := (go_range order remaining).*2 in
  {| rr_Target := (Some <$> targetObjs) ++ ((fun _ => None) <$> extra);
     rr_Live := lives ++ extra;
     rr_Hooks := [] |}.

(** ** Notions used in the statements *)

(** The input objects of [DeduplicateTargetObjects] that fall under [key],
    in input order, with the namespace the first loop gives them. *)
Definition occurrences (namespace : string) (infoProvider : ResourceInfoProvider)
    (objs : list Unstructured) (key : ResourceKey) : list Unstructured :=
  filter (fun obj => GetResourceKey obj = key) (imputeNamespace namespace infoProvider <$> objs).

(** The object the second loop of [DeduplicateTargetObjects] keeps of each
    entry, and the conditions it emits, read off the entries. *)
Definition keptTargets (entries : list (ResourceKey * list Unstructured)) : list Unstructured :=
  omap (fun e => last e.2) entries.

Fixpoint repeatedConditions (clock : nat → Time) (i : nat)
    (entries : list (ResourceKey * list Unstructured)) : list ApplicationCondition :=
  match entries with
  | [] => []
  | (key, targets) :: rest =>
      (if bool_decide (1 < length targets)
       then [repeatedCondition key (length targets) (clock i)]
       else [])
      ++ repeatedConditions clock (S i) rest
  end.


(** What the status loop does to [syncCode] alone: the loop of
    [statusLoop] with the two arrays left out. *)
Definition slotSync (P : Packages) (diffs : list DiffResult) (i : nat)
    (targetObj liveObj : option Unstructured) (syncCode : SyncStatusCode)
    : exec SyncStatusCode :=
  match slotObject targetObj liveObj with
  | None => Done syncCode
  | Some obj =>
      match diffs !! i with
      | None => Panic "index out of range"
      | Some diffResult =>
          Done (syncClassify P syncCode targetObj liveObj obj
                  (hookutil_IsHook P obj) diffResult).2
      end
  end.

Fixpoint syncLoop (P : Packages) (diffs : list DiffResult)
    (lives : list (option Unstructured)) (i : nat) (targets : list (option Unstructured))
    (syncCode : SyncStatusCode) : exec SyncStatusCode :=
  match targets with
  | [] => Done syncCode
  | targetObj :: rest =>
      match lives !! i with
      | None => Panic "index out of range"
      | Some liveObj =>
          syncCode' ← slotSync P diffs i targetObj liveObj syncCode;
          syncLoop P diffs lives (S i) rest syncCode'
      end
  end.

(** The summary and the managed resource the loop writes at an index
    whose slot has the object [obj]. *)
Definition slotSummary (P : Packages) (m : appStateManager) (app : Application)
    (project : AppProject) (failedToLoadObjs : bool)
    (targetObj liveObj : option Unstructured) (obj : Unstructured)
    (diffResult : DiffResult) (syncCode : SyncStatusCode) : ResourceStatus :=
  let gvk := GroupVersionKind_of obj in
  {| rs_Group := gvkGroup gvk;
     rs_Version := gvkVersion gvk;
     rs_Kind := gvkKind gvk;
     rs_Namespace := GetNamespace obj;
     rs_Name := GetName obj;
     rs_Status :=
       overrideStatus m app project failedToLoadObjs gvk
         (syncClassify P syncCode targetObj liveObj obj (hookutil_IsHook P obj) diffResult).1;
     rs_Health := None;
     rs_Hook := hookutil_IsHook P obj;
     rs_RequiresPruning := isNil targetObj && negb (isNil liveObj) |}.

(** The reconciliation and the diffs without the slot of index [i]. *)
Definition withoutSlot (i : nat) (rec : ReconciliationResult) : ReconciliationResult :=
  {| rr_Live := delete i (rr_Live rec);
     rr_Target := delete i (rr_Target rec);
     rr_Hooks := rr_Hooks rec |}.

Definition withoutDiff (i : nat) (d : DiffResultList) : DiffResultList :=
  {| Diffs := delete i (Diffs d); drl_Modified := drl_Modified d |}.

(** A slot of the reconciliation has an object when its target or its live
    object is not nil. *)
Definition hasObject (mr : managedResource) : Prop :=
  mr_Target mr ≠ None ∨ mr_Live mr ≠ None.

(** ** Fakes of the collaborators, for the examples *)

Definition idOrder : MapOrder :=
  {| permute := fun _ l => l;
     permute_perm := fun _ l => reflexivity l |}.

Definition revOrder : MapOrder :=
  {| permute := fun _ l => reverse l;
     permute_perm := fun _ l => reverse_Permutation l |}.

Module Fake.

Definition object (group kind namespace name body : string)
    (annotations : gmap string string) : Unstructured :=
  {| uGVK := {| gvkGroup := group; gvkVersion := "v1"; gvkKind := kind |};
     uNamespace := namespace; uName := name; uLabels := ∅;
     uAnnotations := annotations; uUID := ""; uBody := body |}.

Definition web : Unstructured := object "apps" "Deployment" "n" "web" "replicas: 3" ∅.
Definition cmA : Unstructured := object "" "ConfigMap" "n" "a" "k: 1" ∅.
Definition cmB : Unstructured := object "" "ConfigMap" "n" "b" "k: 2" ∅.
Definition svcNodePort : Unstructured := object "" "Service" "n" "s" "type: NodePort" ∅.
Definition svcClusterIP : Unstructured := object "" "Service" "n" "s" "type: ClusterIP" ∅.
Definition extraneous : Unstructured :=
  object "" "ConfigMap" "n" "m" "k: 3" {[ AnnotationCompareOptions := "IgnoreExtraneous" ]}.

(** The manifests the fake repository server and the fake decoder know. *)
Definition manifests : list (string * Unstructured) :=
  [("web.yaml", web); ("a.yaml", cmA); ("b.yaml", cmB);
   ("s-nodeport.yaml", svcNodePort); ("s-clusterip.yaml", svcClusterIP)].

Definition decode (manifest : string) : result Unstructured :=
  match list_find (fun e => e.1 = manifest) manifests with
  | Some (_, (_, obj)) => inl obj
  | None => inr ("error unmarshaling JSON: " +:+ manifest)
  end.

(** Every kind is namespaced. *)
Definition clusterCache : ResourceInfoProvider :=
  {| IsNamespaced := fun _ => (true, None) |}.

(** One diff per slot: modified when the two objects differ or one is
    missing; [fails] makes the whole call an error. *)
Definition diffArray (fails : bool) (targets lives : list (option Unstructured))
    (_ : Normalizer) : result DiffResultList :=
  if fails then inr "error calculating diff"
  else
    let diffs :=
      zip_with (fun t l =>
        {| Modified := negb (bool_decide (uBody <$> t = uBody <$> l));
           NormalizedLive := default "" (uBody <$> l);
           PredictedLive := default "" (uBody <$> t) |}) targets lives in
    inl {| Diffs := diffs; drl_Modified := existsb Modified diffs |}.

Definition packages (order : MapOrder) (diffFails : bool) : Packages :=
  {| argo_NewDiffNormalizer := fun _ _ => inl "normalizer";
     v1alpha1_UnmarshalToUnstructured := decode;
     sync_Reconcile := specReconcile order;
     diff_DiffArray := diffArray diffFails;
     hookutil_IsHook := fun obj =>
       bool_decide (is_Some (uAnnotations obj !! "argocd.argoproj.io/hook"));
     ignore_Ignore := fun _ => false;
     resourceutil_HasAnnotationOption := fun obj key val =>
       bool_decide (uAnnotations obj !! key = Some val);
     argohealth_SetApplicationHealth := fun _ _ _ _ =>
       ([], Some {| hs_Status := "Healthy"; hs_Message := "" |}, None);
     isSelfReferencedApp := fun _ _ => false |}.

Definition settings (overrides : result (gmap string ResourceOverride)) : SettingsManager :=
  {| GetResourceOverrides := overrides;
     GetAppInstanceLabelKey := inl "app.kubernetes.io/instance";
     GetConfigManagementPlugins := inl [];
     GetKustomizeBuildOptions := inl "";
     GetResourcesFilter := inl {| IsExcludedResource := fun _ _ _ => false |} |}.

(** A manager whose repository server answers with the manifests [files]
    and whose cache holds the live objects [live]. *)
Definition manager (overrides : result (gmap string ResourceOverride))
    (files : list string)
    (live : result (gmap ResourceKey (option Unstructured))) : appStateManager :=
  {| db := {| ListHelmRepositories := inl []; GetRepository := fun url => inl url |};
     settingsMgr := settings overrides;
     repoClientset :=
       {| NewRepoServerClient :=
            inl {| GenerateManifest := fun _ =>
                     inl {| Manifests := files; mi_Revision := "abc123";
                            SourceType := "Directory" |} |} |};
     liveStateCache :=
       {| GetClusterCache := fun _ => inl clusterCache;
          GetServerVersion := fun _ => inl "1.16";
          GetManagedLiveObjs := fun _ _ => live;
          cache_IsNamespaced := fun _ _ => (true, None) |} |}.

Definition project : AppProject :=
  {| IsLiveResourcePermitted := fun _ _ => true;
     IsGroupKindPermitted := fun _ _ => true |}.

Definition source : ApplicationSource :=
  {| RepoURL := "https://example.com/repo.git"; Path := "."; TargetRevision := "HEAD" |}.

Definition app : Application :=
  {| app_Name := "guestbook";
     Spec := {| spec_Source := source;
                Destination := {| Server := "https://cluster"; dest_Namespace := "n" |};
                IgnoreDifferences := [] |} |}.

Definition runtime (order : MapOrder) : Runtime :=
  {| dedupOrder := order; permitOrder := idOrder; sharedOrder := idOrder;
     dedupClock := fun _ => 0%Z; passNow := 0%Z |}.



(** The diff of a slot as [diffArray] computes it. *)
Definition diffOf (t l : option Unstructured) : DiffResult :=
  {| Modified := negb (bool_decide (uBody <$> t = uBody <$> l));
     NormalizedLive := default "" (uBody <$> l);
     PredictedLive := default "" (uBody <$> t) |}.


(** A reconciliation with one slot: the live object [extraneous], which
    has no target. *)
Definition pruneReconciliation : ReconciliationResult :=
  {| rr_Live := [Some extraneous]; rr_Target := [None]; rr_Hooks := [] |}.

Definition pruneDiffs : DiffResultList :=
  {| Diffs := [diffOf None (Some extraneous)]; drl_Modified := true |}.

Definition pruneLocals : compareLocals :=
  {| failedToLoadObjs := false;
     conditions := [];
     manifestInfo := None;
     reconciliation := pruneReconciliation;
     diffResults := pruneDiffs |}.

(** What the second half of the pass makes of [pruneLocals]. *)
Definition pruneResult : comparisonResult :=
  Eval vm_compute in
    match compareFinish (packages idOrder false) (runtime idOrder) (manager (inl ∅) [] (inl ∅))
            app project source ∅ "normalizer" pruneLocals with
    | Done (compRes, _) => compRes
    | Panic _ => unknownResult app source
    end.

End Fake.

(** What the examples look at in the outcome of a pass: the aggregate
    sync status, the name, status and pruning flag of every resource, and the
    types of the conditions. *)
Definition summarize (out : exec (comparisonResult * option (list ApplicationCondition)))
    : option (option SyncStatusCode * list (string * SyncStatusCode * bool) * list string) :=
  match out with
  | Done (compRes, conds) =>
      Some (ss_Status <$> syncStatus compRes,
            (fun rs => (rs_Name rs, rs_Status rs, rs_RequiresPruning rs)) <$> resources compRes,
            Type_ <$> default [] conds)
  | Panic _ => None
  end.

(** ** Further notions used in the statements *)

(** The condition that the loop over the live objects appends for one
    entry of the map, if any. *)
Definition sharedWarningOf (app : Application) (appLabelKey : string) (now : Time)
    (v : option Unstructured) : option ApplicationCondition :=
  match v with
  | None => None
  | Some liveObj =>
      let appInstanceName := GetAppInstanceLabel liveObj appLabelKey in
      if bool_decide (appInstanceName ≠ "") && bool_decide (appInstanceName ≠ app_Name app)
      then Some (sharedCondition liveObj appInstanceName now)
      else None
  end.


(** The namespace the first loop of [DeduplicateTargetObjects] leaves an
    object with. *)
Definition imputedNamespace (namespace : string) (infoProvider : ResourceInfoProvider)
    (obj : Unstructured) : string :=
  if negb (IsNamespaced infoProvider (GVK_GroupKind (GroupVersionKind_of obj))).1 then ""
  else if bool_decide (GetNamespace obj = "") then namespace
  else GetNamespace obj.


(** A summary and a managed resource that name the same resource. *)
Definition sameResource (rs : ResourceStatus) (mr : managedResource) : Prop :=
  rs_Group rs = mr_Group mr ∧ rs_Version rs = mr_Version mr ∧ rs_Kind rs = mr_Kind mr ∧
  rs_Namespace rs = mr_Namespace mr ∧ rs_Name rs = mr_Name mr ∧ rs_Hook rs = mr_Hook mr.

(** Whether the slot of a target, a live object and their diff sets the
    aggregate to [OutOfSync] in the chain of conditionals of lines 357 to
    372: the slot is neither a hook nor ignored, it is modified or one-sided,
    and it is not a prune candidate carrying [IgnoreExtraneous]. *)
Definition countsOutOfSync (P : Packages) (targetObj liveObj : option Unstructured)
    (diffResult : DiffResult) : bool :=
  match slotObject targetObj liveObj with
  | None => false
  | Some obj =>
      negb (hookutil_IsHook P obj || ignore_Ignore P obj) &&
      (Modified diffResult || isNil targetObj || isNil liveObj) &&
      negb (isNil targetObj && negb (isNil liveObj) &&
            resourceutil_HasAnnotationOption P obj AnnotationCompareOptions "IgnoreExtraneous")
  end.

Definition managedOutOfSync (P : Packages) (mr : managedResource) : bool :=
  countsOutOfSync P (mr_Target mr) (mr_Live mr) (mr_Diff mr).

(** A manager like that of the examples whose cache has no information on
    the cluster of the destination. *)
Definition managerWithoutClusterCache : appStateManager :=
  let m := Fake.manager (inl ∅) ["web.yaml"] (inl ∅) in
  {| db := db m;
     settingsMgr := settingsMgr m;
     repoClientset := repoClientset m;
     liveStateCache :=
       {| GetClusterCache := fun _ => inr "cluster cache not ready";
          GetServerVersion := GetServerVersion (liveStateCache m);
          GetManagedLiveObjs := GetManagedLiveObjs (liveStateCache m);
          cache_IsNamespaced := cache_IsNamespaced (liveStateCache m) |} |}.



(** A manager with another database and another repository server. *)
Definition withRepository (m : appStateManager) (db' : ArgoDB) (repoClientset' : Clientset)
    : appStateManager :=
  {| db := db'; settingsMgr := settingsMgr m; repoClientset := repoClientset';
     liveStateCache := liveStateCache m |}.


(** A database and a repository server that fail. *)
Definition brokenDB : ArgoDB :=
  {| ListHelmRepositories := inr "database unavailable";
     GetRepository := fun _ => inr "database unavailable" |}.

Definition brokenRepoClientset : Clientset :=
  {| NewRepoServerClient := inr "repository server unavailable" |}.

(** The outcome of a pass, for the passes of the examples, none of which
    panics. *)
Definition passOutcome (out : exec (comparisonResult * option (list ApplicationCondition)))
    : comparisonResult * list ApplicationCondition :=
  match out with
  | Done (compRes, conds) => (compRes, default [] conds)
  | Panic _ => (unknownResult Fake.app Fake.source, [])
  end.

(** Scenario S1: the Deployment [web], live and in sync. *)
Definition syncedOutcome : comparisonResult * list ApplicationCondition :=
  Eval vm_compute in
    passOutcome
      (CompareAppState (Fake.packages idOrder false) (Fake.runtime idOrder)
         (Fake.manager (inl ∅) ["web.yaml"]
            (inl {[ GetResourceKey Fake.web := Some Fake.web ]}))
         Fake.app Fake.project "" Fake.source false []).


(** Scenario S6: the live objects cannot be fetched. *)
Definition unknownOutcome : comparisonResult * list ApplicationCondition :=
  Eval vm_compute in
    passOutcome
      (CompareAppState (Fake.packages idOrder false) (Fake.runtime idOrder)
         (Fake.manager (inl ∅) ["web.yaml"] (inr "cluster cache not ready"))
         Fake.app Fake.project "" Fake.source false []).

(** A pass over the local manifests [a.yaml] and [b.yaml], with nothing
    live. *)
Definition localOutcome : comparisonResult * list ApplicationCondition :=
  Eval vm_compute in
    passOutcome
      (CompareAppState (Fake.packages idOrder false) (Fake.runtime idOrder)
         (Fake.manager (inl ∅) ["web.yaml"] (inl ∅))
         Fake.app Fake.project "" Fake.source false ["a.yaml"; "b.yaml"]).


(** ** kube.go: the goroutine of WatchWithRetry once a watch is open *)

Module WatchShapes.
Import ITree.ITree.
Import Loops.

(** The goroutine from the return of [execute] on, when [execute] returns
    [retry] and a nil error for the watch [w]: the deferred [w.Stop()], then
    either the sleep and the next round of the loop, or the deferred
    [close(ch)]. *)
Definition afterExecute (w : Watch) (retry : bool) : itree watchE unit :=
  ITree.trigger (Stop w) ;;;
  if retry then ITree.trigger (Sleep Second) ;;; Tau WatchWithRetry
  else ITree.trigger Close.

(** The goroutine from the first [select] on the watch [w] on. *)
Definition watching (w : Watch) : itree watchE unit :=
  ITree.bind (pump w) (afterExecute w).

(** What an observer sees of the events [events] of the watch [w]: each
    is received and sent on. *)
Definition forwarded (w : Watch) (events : list WatchEvent) : list watchAction :=
  concat ((fun event => [DidSelect w (Received event);
                         DidSend {| Event := Some event; Error := None |}]) <$> events).
End WatchShapes.


(** Lines 430 to 435: the types that [CompareAppState] tells
    [SetConditions] it has evaluated. *)
Definition evaluatedConditionTypes : list ApplicationConditionType :=
  [ApplicationConditionComparisonError;
   ApplicationConditionSharedResourceWarning;
   ApplicationConditionRepeatedResourceWarning;
   ApplicationConditionExcludedResourceWarning].

(** A condition of one of these types that carries a timestamp. *)
Definition evaluatedCondition (c : ApplicationCondition) : Prop :=
  Type_ c ∈ evaluatedConditionTypes ∧ is_Some (LastTransitionTime c).


(** ** kube.go: a kubeconfig from a rest.Config *)

(** The fields of [rest.TLSClientConfig], [rest.Config] and
    [clientcmdapi.AuthInfo] that the file reads and writes.  A byte slice is a
    list, nil being the empty list. *)
Record TLSClientConfig := {
  Insecure : bool;
  CertFile : string;
  KeyFile : string;
  CAFile : string;
  CertData : list Byte.byte;
  KeyData : list Byte.byte;
  CAData : list Byte.byte;
}.

(** [clientcmdapi.ExecConfig], opaque. *)
Definition ExecConfig := string.

Record RestConfig := {
  Host : string;
  Username : string;
  Password : string;
  BearerToken : string;
  ExecProvider : option ExecConfig;
  rc_TLSClientConfig : TLSClientConfig;
}.

Record AuthInfo := {
  ClientCertificate : string;
  ClientCertificateData : list Byte.byte;
  ClientKey : string;
  ClientKeyData : list Byte.byte;
  Token : string;
  TokenFile : string;
  ai_Username : string;
  ai_Password : string;
  Exec : option ExecConfig;
}.

(** [clientcmdapi.AuthInfo{}] *)
Definition zeroAuthInfo : AuthInfo :=
  {| ClientCertificate := "";
     ClientCertificateData := [];
     ClientKey := "";
     ClientKeyData := [];
     Token := "";
     TokenFile := "";
     ai_Username := "";
     ai_Password := "";
     Exec := None |}.

(** The assignments to the fields of [authInfo]. *)
Definition set_ClientCertificate (v : string) (a : AuthInfo) : AuthInfo :=
  {| ClientCertificate := v;
     ClientCertificateData := ClientCertificateData a;
     ClientKey := ClientKey a;
     ClientKeyData := ClientKeyData a;
     Token := Token a;
     TokenFile := TokenFile a;
     ai_Username := ai_Username a;
     ai_Password := ai_Password a;
     Exec := Exec a |}.

Definition set_ClientCertificateData (v : list Byte.byte) (a : AuthInfo) : AuthInfo :=
  {| ClientCertificate := ClientCertificate a;
     ClientCertificateData := v;
     ClientKey := ClientKey a;
     ClientKeyData := ClientKeyData a;
     Token := Token a;
     TokenFile := TokenFile a;
     ai_Username := ai_Username a;
     ai_Password := ai_Password a;
     Exec := Exec a |}.

Definition set_ClientKey (v : string) (a : AuthInfo) : AuthInfo :=
  {| ClientCertificate := ClientCertificate a;
     ClientCertificateData := ClientCertificateData a;
     ClientKey := v;
     ClientKeyData := ClientKeyData a;
     Token := Token a;
     TokenFile := TokenFile a;
     ai_Username := ai_Username a;
     ai_Password := ai_Password a;
     Exec := Exec a |}.

Definition set_ClientKeyData (v : list Byte.byte) (a : AuthInfo) : AuthInfo :=
  {| ClientCertificate := ClientCertificate a;
     ClientCertificateData := ClientCertificateData a;
     ClientKey := ClientKey a;
     ClientKeyData := v;
     Token := Token a;
     TokenFile := TokenFile a;
     ai_Username := ai_Username a;
     ai_Password := ai_Password a;
     Exec := Exec a |}.

Definition set_Token (v : string) (a : AuthInfo) : AuthInfo :=
  {| ClientCertificate := ClientCertificate a;
     ClientCertificateData := ClientCertificateData a;
     ClientKey := ClientKey a;
     ClientKeyData := ClientKeyData a;
     Token := v;
     TokenFile := TokenFile a;
     ai_Username := ai_Username a;
     ai_Password := ai_Password a;
     Exec := Exec a |}.

Definition set_TokenFile (v : string) (a : AuthInfo) : AuthInfo :=
  {| ClientCertificate := ClientCertificate a;
     ClientCertificateData := ClientCertificateData a;
     ClientKey := ClientKey a;
     ClientKeyData := ClientKeyData a;
     Token := Token a;
     TokenFile := v;
     ai_Username := ai_Username a;
     ai_Password := ai_Password a;
     Exec := Exec a |}.

Definition set_ai_Username (v : string) (a : AuthInfo) : AuthInfo :=
  {| ClientCertificate := ClientCertificate a;
     ClientCertificateData := ClientCertificateData a;
     ClientKey := ClientKey a;
     ClientKeyData := ClientKeyData a;
     Token := Token a;
     TokenFile := TokenFile a;
     ai_Username := v;
     ai_Password := ai_Password a;
     Exec := Exec a |}.

Definition set_ai_Password (v : string) (a : AuthInfo) : AuthInfo :=
  {| ClientCertificate := ClientCertificate a;
     ClientCertificateData := ClientCertificateData a;
     ClientKey := ClientKey a;
     ClientKeyData := ClientKeyData a;
     Token := Token a;
     TokenFile := TokenFile a;
     ai_Username := ai_Username a;
     ai_Password := v;
     Exec := Exec a |}.

Definition set_Exec (v : option ExecConfig) (a : AuthInfo) : AuthInfo :=
  {| ClientCertificate := ClientCertificate a;
     ClientCertificateData := ClientCertificateData a;
     ClientKey := ClientKey a;
     ClientKeyData := ClientKeyData a;
     Token := Token a;
     TokenFile := TokenFile a;
     ai_Username := ai_Username a;
     ai_Password := ai_Password a;
     Exec := v |}.

Definition inClusterTokenFile : string :=
  "/var/run/secrets/kubernetes.io/serviceaccount/token".

(** [newAuthInfo]: the pair is [authInfo] and [haveCredentials]. *)
Definition newAuthInfo (restConfig : RestConfig) : AuthInfo :=
  let tls := rc_TLSClientConfig restConfig in
  let authInfo := zeroAuthInfo in
  let haveCredentials := false in
  let '(authInfo, haveCredentials) :=
    if bool_decide (CertFile tls ≠ "")
    then (set_ClientCertificate (CertFile tls) authInfo, true)
    else (authInfo, haveCredentials) in
  let '(authInfo, haveCredentials) :=
    if bool_decide (0 < length (CertData tls))
    then (set_ClientCertificateData (CertData tls) authInfo, true)
    else (authInfo, haveCredentials) in
  let '(authInfo, haveCredentials) :=
    if bool_decide (KeyFile tls ≠ "")
    then (set_ClientKey (KeyFile tls) authInfo, true)
    else (authInfo, haveCredentials) in
  let '(authInfo, haveCredentials) :=
    if bool_decide (0 < length (KeyData tls))
    then (set_ClientKeyData (KeyData tls) authInfo, true)
    else (authInfo, haveCredentials) in
  let '(authInfo, haveCredentials) :=
    if bool_decide (Username restConfig ≠ "")
    then (set_ai_Username (Username restConfig) authInfo, true)
    else (authInfo, haveCredentials) in
  let '(authInfo, haveCredentials) :=
    if bool_decide (Password restConfig ≠ "")
    then (set_ai_Password (Password restConfig) authInfo, true)
    else (authInfo, haveCredentials) in
  let '(authInfo, haveCredentials) :=
    if bool_decide (BearerToken restConfig ≠ "")
    then (set_Token (BearerToken restConfig) authInfo, true)
    else (authInfo, haveCredentials) in
  let '(authInfo, haveCredentials) :=
    match ExecProvider restConfig with
    | Some provider => (set_Exec (Some provider) authInfo, true)
    | None => (authInfo, haveCredentials)
    end in
  if isNil (ExecProvider restConfig) && negb haveCredentials
  then set_TokenFile inClusterTokenFile authInfo
  else authInfo.

(** [clientcmdapi.Context], [clientcmdapi.Cluster] and
    [clientcmdapi.Config], with the fields that [NewKubeConfig] sets. *)
Record KubeContext := {
  ctx_Cluster : string;
  ctx_AuthInfo : string;
  ctx_Namespace : string;
}.

Record KubeCluster := {
  cl_Server : string;
  InsecureSkipTLSVerify : bool;
  CertificateAuthority : string;
  CertificateAuthorityData : list Byte.byte;
}.

Record KubeConfig := {
  CurrentContext : string;
  Contexts : gmap string KubeContext;
  Clusters : gmap string KubeCluster;
  AuthInfos : gmap string AuthInfo;
}.

Definition NewKubeConfig (restConfig : RestConfig) (namespace : string) : KubeConfig :=
  {| CurrentContext := Host restConfig;
     Contexts :=
       {[ Host restConfig :=
            {| ctx_Cluster := Host restConfig;
               ctx_AuthInfo := Host restConfig;
               ctx_Namespace := namespace |} ]};
     Clusters :=
       {[ Host restConfig :=
            {| cl_Server := Host restConfig;
               InsecureSkipTLSVerify := Insecure (rc_TLSClientConfig restConfig);
               CertificateAuthority := CAFile (rc_TLSClientConfig restConfig);
               CertificateAuthorityData := CAData (rc_TLSClientConfig restConfig) |} ]};
     AuthInfos := {[ Host restConfig := newAuthInfo restConfig ]} |}.

(** Whether the configuration carries one of the eight credentials that
    [newAuthInfo] looks for. *)
Definition carriesCredentials (restConfig : RestConfig) : bool :=
  let tls := rc_TLSClientConfig restConfig in
  bool_decide (CertFile tls ≠ "") || bool_decide (CertData tls ≠ [])
  || bool_decide (KeyFile tls ≠ "") || bool_decide (KeyData tls ≠ [])
  || bool_decide (Username restConfig ≠ "")
  || bool_decide (Password restConfig ≠ "")
  || bool_decide (BearerToken restConfig ≠ "")
  || negb (isNil (ExecProvider restConfig)).

(** ** kube.go: ServerResourceForGroupVersionKind *)

(** The fields of [metav1.APIResource] that the file reads. *)
Record APIResource := {
  api_Name : string;
  api_Kind : string;
  api_Namespaced : bool;
}.

(** [schema.GroupVersion.String]: the version alone for the core group. *)
Definition GroupVersion_String (gvk : GroupVersionKind) : string :=
  if bool_decide (0 < String.length (gvkGroup gvk))
  then gvkGroup gvk +:+ "/" +:+ gvkVersion gvk
  else gvkVersion gvk.

(** [discovery.DiscoveryInterface], of which one method is called, and
    [apierr.NewNotFound], applied to the group, the resource and the name. *)
Record Discovery := {
  ServerResourcesForGroupVersion : string → result (list APIResource);
  apierr_NewNotFound : string → string → string → error;
}.

(** [for _, r := range resources.APIResources { if r.Kind == gvk.Kind { return &r, nil } }] *)
Fixpoint firstOfKind (kind : string) (resources : list APIResource) : option APIResource :=
  match resources with
  | [] => None
  | r :: rest => if bool_decide (api_Kind r = kind) then Some r else firstOfKind kind rest
  end.

Definition ServerResourceForGroupVersionKind (disco : Discovery) (gvk : GroupVersionKind)
    : result APIResource :=
  match ServerResourcesForGroupVersion disco (GroupVersion_String gvk) with
  | inr err => inr err
  | inl resources =>
      match firstOfKind (gvkKind gvk) resources with
      | Some r => inl r
      | None => inr (apierr_NewNotFound disco (gvkGroup gvk) (gvkKind gvk) "")
      end
  end.

(** ** state.go: persistRevisionHistory *)












(** Lines 246 to 290, as [comparePrepare] has them: the target objects
    that the pass goes on with once they are loaded, deduplicated and
    filtered. *)
Definition passTargets (P : Packages) (rt : Runtime) (m : appStateManager)
    (app : Application) (revision : string) (source : ApplicationSource) (noCache : bool)
    (localManifests : list string) (appLabelKey : string) : exec (list Unstructured) :=
  let now := passNow rt in
  let '(targetObjs, _, conditions, _) :=
    loadTargets P m app revision source noCache localManifests appLabelKey now in
  '(targetObjs, conditions) ←
    dedupStep rt app (clusterInfoProvider m app) now targetObjs conditions;
  '(targetObjs, _) ← excludeStep m app now targetObjs conditions;
  mret targetObjs.


(** ** kube.go: UnsetLabel *)

(** [SetLabels], and [unstructured.RemoveNestedField] at the path of the
    labels.  [GetLabels] of an object without the field is nil, which reads
    as the map without entries: the test [labels != nil] of [UnsetLabel] is
    subsumed by the lookup of the key. *)
Definition SetLabels (obj : Unstructured) (labels : gmap string string) : Unstructured :=
  {| uGVK := uGVK obj; uNamespace := uNamespace obj; uName := uName obj;
     uLabels := labels; uAnnotations := uAnnotations obj;
     uUID := uUID obj; uBody := uBody obj |}.

Definition RemoveLabelsField (obj : Unstructured) : Unstructured := SetLabels obj ∅.

Definition UnsetLabel (target : Unstructured) (key : string) : Unstructured :=
  let labels := GetLabels target in
  match labels !! key with
  | None => target
  | Some _ =>
      let labels := delete key labels in
      if bool_decide (size labels = 0) then RemoveLabelsField target
      else SetLabels target labels
  end.

(** * Facts *)

(** ** The scenarios of the specification, run on the model *)

Example split_documents :
  regexpSplit diffSeparator
    ("a: 1" +:+ newline +:+ "---" +:+ newline +:+ "b: 2" +:+ newline +:+ "---")
  = ["a: 1"; newline +:+ "b: 2"; ""].
Proof. reflexivity. Qed.

Example split_empty : regexpSplit diffSeparator "" = [""].
Proof. reflexivity. Qed.

(** Scenario S1: one Deployment, live and equal. *)
Example scenario_synced :
  summarize (CompareAppState (Fake.packages idOrder false) (Fake.runtime idOrder)
               (Fake.manager (inl ∅) ["web.yaml"]
                  (inl {[ GetResourceKey Fake.web := Some Fake.web ]}))
               Fake.app Fake.project "" Fake.source false [])
  = Some (Some "Synced", [("web", "Synced", false)], []).
Proof. vm_compute. reflexivity. Qed.

(** Scenario S3: a live ConfigMap without target, with the compare option
    [IgnoreExtraneous]. *)
Example scenario_ignore_extraneous :
  summarize (CompareAppState (Fake.packages idOrder false) (Fake.runtime idOrder)
               (Fake.manager (inl ∅) []
                  (inl {[ GetResourceKey Fake.extraneous := Some Fake.extraneous ]}))
               Fake.app Fake.project "" Fake.source false [])
  = Some (Some "Synced", [("m", "OutOfSync", true)], []).
Proof. vm_compute. reflexivity. Qed.

(** Scenario S4: the Service [s] twice among the targets. *)
Example scenario_duplicate :
  DeduplicateTargetObjects idOrder (fun _ => 0%Z) "n"
    [Fake.svcNodePort; Fake.svcClusterIP] Fake.clusterCache
  = Done ([Fake.svcClusterIP],
          [{| Type_ := "RepeatedResourceWarning";
              Message := "Resource /Service/n/s appeared 2 times among application resources.";
              LastTransitionTime := Some 0%Z |}],
          None).
Proof. vm_compute. reflexivity. Qed.

(** Scenario S6: the live objects cannot be fetched. *)
Example scenario_live_fetch_fails :
  summarize (CompareAppState (Fake.packages idOrder false) (Fake.runtime idOrder)
               (Fake.manager (inl ∅) ["web.yaml"] (inr "cluster cache not ready"))
               Fake.app Fake.project "" Fake.source false [])
  = Some (Some "Unknown", [("web", "Unknown", false)], ["ComparisonError"]).
Proof. vm_compute. reflexivity. Qed.

(** A watch that delivers an event, is closed by the server, is reopened
    after one second and ends with the context. *)
Example watch_reopens_after_close :
  Loops.runWatch 100
    {| Loops.opens := [inl 7; inl 8];
       Loops.selects := [Received "added"; ResultChanClosed; Received "modified"; CtxDone] |}
    Loops.WatchWithRetry
  = ([Loops.DidGetWatch (inl 7); Loops.DidSelect 7 (Received "added");
      Loops.DidSend {| Event := Some "added"; Error := None |};
      Loops.DidSelect 7 ResultChanClosed; Loops.DidStop 7; Loops.DidSleep Second;
      Loops.DidGetWatch (inl 8); Loops.DidSelect 8 (Received "modified");
      Loops.DidSend {| Event := Some "modified"; Error := None |};
      Loops.DidSelect 8 CtxDone; Loops.DidStop 8; Loops.DidClose],
     Some tt).
Proof. vm_compute. reflexivity. Qed.

(** An action that fails twice and then succeeds, the context not being
    done; and one that fails once with the context done. *)
Example retry_until_success :
  Loops.runRetry 100
    {| Loops.actions := [Some "timeout"; Some "timeout"; None];
       Loops.flags := [false; false] |}
    (Loops.RetryUntilSucceed Second)
  = ([Loops.DidAction (Some "timeout"); Loops.DidReadCtxCompleted false;
      Loops.DidSleepFor Second;
      Loops.DidAction (Some "timeout"); Loops.DidReadCtxCompleted false;
      Loops.DidSleepFor Second;
      Loops.DidAction None; Loops.DidCloseStop],
     Some tt).
Proof. vm_compute. reflexivity. Qed.

Example retry_stops_when_done :
  Loops.runRetry 100
    {| Loops.actions := [Some "timeout"; None]; Loops.flags := [true] |}
    (Loops.RetryUntilSucceed Second)
  = ([Loops.DidAction (Some "timeout"); Loops.DidReadCtxCompleted true; Loops.DidCloseStop],
     Some tt).
Proof. vm_compute. reflexivity. Qed.

(** ** Grouping by key *)

Section dedup_facts.
Context (namespace : string) (infoProvider : ResourceInfoProvider).

Let impute := imputeNamespace namespace infoProvider.

(** The entry of the map for [key] once the objects [seen] have been
    grouped. *)
Let grouped (seen : list Unstructured) (key : ResourceKey) : option (list Unstructured) :=
  match filter (fun obj => GetResourceKey obj = key) seen with
  | [] => None
  | g => Some g
  end.

Lemma group_fold_lookup (objs seen : list Unstructured)
    (acc : gmap ResourceKey (list Unstructured)) :
  (∀ key, acc !! key = grouped seen key) →
  ∀ key,
    foldl (fun targetByKey obj0 =>
             let obj := impute obj0 in
             let key := GetResourceKey obj in
             <[key := default [] (targetByKey !! key) ++ [obj]]> targetByKey)
          acc objs !! key
    = grouped (seen ++ (impute <$> objs)) key.
Proof.
  revert seen acc.
  induction objs as [|obj0 objs IH]; intros seen acc Hacc key; simpl.
  - rewrite app_nil_r. apply Hacc.
  - rewrite (IH (seen ++ [impute obj0])).
    + by rewrite <- app_assoc.
    + clear key. intros key. unfold grouped. rewrite filter_app.
      destruct (decide (GetResourceKey (impute obj0) = key)) as [<-|Hne].
      * rewrite lookup_insert_eq, Hacc. unfold grouped.
        rewrite (filter_cons_True _ _ []) by done. rewrite filter_nil.
        destruct (filter _ seen); done.
      * rewrite lookup_insert_ne by done.
        rewrite (filter_cons_False _ _ []) by done. rewrite filter_nil, app_nil_r.
        apply Hacc.
Qed.

Lemma groupTargets_lookup (objs : list Unstructured) (key : ResourceKey) :
  groupTargets namespace infoProvider objs !! key
  = match occurrences namespace infoProvider objs key with
    | [] => None
    | g => Some g
    end.
Proof.
  unfold groupTargets, occurrences.
  by rewrite (group_fold_lookup objs [] ∅).
Qed.

Lemma groupTargets_lookup_Some (objs : list Unstructured) key targets :
  groupTargets namespace infoProvider objs !! key = Some targets ↔
  targets = occurrences namespace infoProvider objs key ∧ targets ≠ [].
Proof.
  rewrite groupTargets_lookup.
  destruct (occurrences namespace infoProvider objs key) as [|o g]; split.
  - done.
  - by intros [-> ?].
  - by intros [= <-].
  - by intros [-> _].
Qed.

(** Every entry the second loop ranges over is the non-empty list of the
    occurrences of its key, and no key comes twice. *)
Lemma go_range_groupTargets (order : MapOrder) (objs : list Unstructured) :
  let entries := go_range order (groupTargets namespace infoProvider objs) in
  NoDup entries.*1 ∧
  (∀ key targets, (key, targets) ∈ entries ↔
     targets = occurrences namespace infoProvider objs key ∧ targets ≠ []).
Proof.
  unfold go_range. split.
  - rewrite (permute_perm order). apply NoDup_fst_map_to_list.
  - intros key targets. rewrite (permute_perm order).
    rewrite elem_of_map_to_list. apply groupTargets_lookup_Some.
Qed.

(** The second loop returns, with the last object of every entry and one
    condition for every entry of more than one object. *)
Lemma dedupLoop_run (clock : nat → Time) entries i conditions result :
  Forall (fun e : ResourceKey * list Unstructured => e.2 ≠ []) entries →
  dedupLoop clock i entries conditions result
  = Done (result ++ keptTargets entries,
          conditions ++ repeatedConditions clock i entries).
Proof.
  intros Hne. revert i conditions result.
  induction Hne as [|[key targets] entries Hhd _ IH]; intros i conditions result.
  - by rewrite !app_nil_r.
  - cbn [dedupLoop repeatedConditions keptTargets omap list_omap].
    unfold keptTargets in IH. simpl in Hhd. simpl.
    destruct (last targets) as [target|] eqn:Hlast.
    + rewrite IH. f_equal. f_equal.
      * by rewrite <- app_assoc.
      * case_bool_decide; [by rewrite <- app_assoc | done].
    + by apply last_None in Hlast.
Qed.


Lemma DeduplicateTargetObjects_run (order : MapOrder) (clock : nat → Time) objs :
  let entries := go_range order (groupTargets namespace infoProvider objs) in
  DeduplicateTargetObjects order clock namespace objs infoProvider
  = Done (keptTargets entries, repeatedConditions clock 0 entries, None).
Proof.
  intros entries. unfold DeduplicateTargetObjects. fold entries.
  rewrite dedupLoop_run; [done|].
  apply Forall_forall. intros [key targets] Hin.
  by apply (go_range_groupTargets order objs) in Hin as [_ ?].
Qed.

(** The objects kept carry the keys of the entries, in the same order. *)
Lemma keptTargets_keys entries objs :
  (∀ key targets, (key, targets) ∈ entries →
     targets = occurrences namespace infoProvider objs key ∧ targets ≠ []) →
  GetResourceKey <$> keptTargets entries = entries.*1.
Proof.
  induction entries as [|[key targets] entries IH]; intros Hent; [done|].
  destruct (Hent key targets) as [Hocc Hne]; [left|].
  unfold keptTargets. simpl.
  destruct (last targets) as [target|] eqn:Hlast; [|by apply last_None in Hlast].
  simpl. f_equal.
  - apply last_Some_elem_of in Hlast. rewrite Hocc in Hlast.
    unfold occurrences in Hlast. by apply list_elem_of_filter in Hlast as [? _].
  - apply IH. intros k ts Hin. apply Hent. by right.
Qed.

Lemma elem_of_keptTargets entries obj :
  obj ∈ keptTargets entries ↔ ∃ key targets, (key, targets) ∈ entries ∧ last targets = Some obj.
Proof.
  unfold keptTargets. rewrite list_elem_of_omap. split.
  - intros ([key targets] & Hin & Hlast). eauto.
  - intros (key & targets & Hin & Hlast). by exists (key, targets).
Qed.

Lemma elem_of_repeatedConditions (clock : nat → Time) entries i c :
  c ∈ repeatedConditions clock i entries →
  ∃ key targets j, (key, targets) ∈ entries ∧ 1 < length targets ∧
    c = repeatedCondition key (length targets) (clock j).
Proof.
  revert i. induction entries as [|[key targets] entries IH]; intros i; simpl.
  - by intros ?%elem_of_nil.
  - rewrite elem_of_app. intros [Hc|Hc].
    + case_bool_decide; [|by apply elem_of_nil in Hc].
      apply list_elem_of_singleton in Hc. exists key, targets, i.
      split; [left|done].
    + destruct (IH _ Hc) as (k & ts & j & Hin & ?). exists k, ts, j.
      split; [by right|done].
Qed.


End dedup_facts.

(** ** DeduplicateTargetObjects *)






(** C10. [DeduplicateTargetObjects] returns for every input, its error
    is nil and its conditions are all of type [RepeatedResourceWarning];
    hence the step of [CompareAppState] that calls it never takes the branch
    on a non-nil error: the conditions after the step are the conditions
    before it followed by those of the deduplication, and the
    [ComparisonError] conditions among them are those that were there
    before. *)
Theorem DeduplicateTargetObjects_error_nil (rt : Runtime) (app : Application)
    (now : Time) (objs : list Unstructured) (infoProvider : ResourceInfoProvider)
    (conditions : list ApplicationCondition) :
  ∃ result dedupConditions,
    DeduplicateTargetObjects (dedupOrder rt) (dedupClock rt)
      (dest_Namespace (Destination (Spec app))) objs infoProvider
      = Done (result, dedupConditions, None) ∧
    Forall (fun c => Type_ c = ApplicationConditionRepeatedResourceWarning) dedupConditions ∧
    dedupStep rt app infoProvider now objs conditions
      = Done (result, conditions ++ dedupConditions) ∧
    filter (fun c => Type_ c = ApplicationConditionComparisonError)
           (conditions ++ dedupConditions)
      = filter (fun c => Type_ c = ApplicationConditionComparisonError) conditions.
Proof.
  eexists _, _.
  split; [apply DeduplicateTargetObjects_run|].
  assert (Hty : Forall (fun c => Type_ c = ApplicationConditionRepeatedResourceWarning)
            (repeatedConditions (dedupClock rt) 0
               (go_range (dedupOrder rt)
                  (groupTargets (dest_Namespace (Destination (Spec app))) infoProvider objs)))).
  { apply Forall_forall.
    by intros c (key & targets & j & _ & _ & ->)%elem_of_repeatedConditions. }
  split; [done|]. split.
  - unfold dedupStep. by rewrite DeduplicateTargetObjects_run.
  - rewrite filter_app.
    match goal with |- _ ++ ?l = _ => assert (l = []) as ->; [|by rewrite app_nil_r] end.
    induction Hty as [|c cs Hc _ IH]; [done|].
    rewrite filter_cons_False; [done|]. by rewrite Hc.
Qed.

(** ** SplitYAML *)




(** ** The retry loops of kube.go *)

Module LoopFacts.
Import ITree.ITree ITree.ITreeFacts.
Import Loops.

(** One round of the [select] loop: an event is sent on and the loop goes
    on; a closed result channel ends it with [true], a done context with
    [false]. *)
Lemma pump_unfold (w : Watch) :
  eutt eq (pump w)
    (let* s := ITree.trigger (Select w) in
     match s with
     | Received event =>
         ITree.trigger (Send {| Event := Some event; Error := None |}) ;;; pump w
     | ResultChanClosed => Ret true
     | CtxDone => Ret false
     end).
Proof.
  unfold pump at 1. rewrite unfold_iter, bind_bind.
  eapply eutt_clo_bind; [reflexivity|]. intros s ? <-.
  destruct s as [event| |].
  - rewrite bind_bind. eapply eutt_clo_bind; [reflexivity|]. intros [] ? <-.
    rewrite bind_ret_l, tau_eutt. reflexivity.
  - rewrite bind_ret_l. reflexivity.
  - rewrite bind_ret_l. reflexivity.
Qed.


Lemma RetryUntilSucceed_unfold (timeout : Duration) :
  eutt eq (RetryUntilSucceed timeout)
    (let* err := ITree.trigger Action in
     match err with
     | None => ITree.trigger CloseStop
     | Some _ =>
         let* ctxCompleted := ITree.trigger ReadCtxCompleted in
         if ctxCompleted : bool
         then ITree.trigger CloseStop
         else ITree.trigger (SleepFor timeout) ;;; RetryUntilSucceed timeout
     end).
Proof.
  unfold RetryUntilSucceed at 1, retryLoop. rewrite unfold_iter.
  unfold retryIteration at 1. rewrite !bind_bind.
  eapply eutt_clo_bind; [reflexivity|]. intros err ? <-.
  destruct err as [e|].
  - rewrite !bind_bind.
    eapply eutt_clo_bind; [reflexivity|]. intros c ? <-.
    destruct c.
    + rewrite !bind_ret_l. reflexivity.
    + rewrite !bind_bind.
      eapply eutt_clo_bind; [reflexivity|]. intros [] ? <-.
      rewrite !bind_ret_l, tau_eutt. reflexivity.
  - rewrite !bind_ret_l. reflexivity.
Qed.

(** *** Runs, one round at a time *)



Lemma runRetry_first fuel timeout a rest fl :
  ∃ tr res,
    runRetry (S fuel) {| actions := a :: rest; flags := fl |} (RetryUntilSucceed timeout)
    = (DidAction a :: tr, res).
Proof.
  simpl. destruct (runRetry fuel _ _) as [tr res]. by eexists _, _.
Qed.

Lemma runRetry_success fuel timeout rest fl :
  runRetry (3 + fuel) {| actions := None :: rest; flags := fl |} (RetryUntilSucceed timeout)
  = ([DidAction None; DidCloseStop], Some tt).
Proof. reflexivity. Qed.

Lemma runRetry_done fuel timeout e rest fl :
  runRetry (4 + fuel) {| actions := Some e :: rest; flags := true :: fl |}
    (RetryUntilSucceed timeout)
  = ([DidAction (Some e); DidReadCtxCompleted true; DidCloseStop], Some tt).
Proof. reflexivity. Qed.

Lemma runRetry_again fuel timeout e rest fl :
  runRetry (4 + fuel) {| actions := Some e :: rest; flags := false :: fl |}
    (RetryUntilSucceed timeout)
  = let '(tr, res) :=
      runRetry fuel {| actions := rest; flags := fl |} (RetryUntilSucceed timeout) in
    (failedAttempt timeout e ++ tr, res).
Proof.
  destruct (runRetry fuel {| actions := rest; flags := fl |} (RetryUntilSucceed timeout))
    as [tr res] eqn:Hrun.
  simpl. unfold RetryUntilSucceed, retryLoop in Hrun. by rewrite Hrun.
Qed.

(** Failures with the context not done, followed by a success: every
    failure is followed by a sleep of [timeout], the success ends the run. *)
Lemma runRetry_until_success fuel timeout errs rest fl :
  runRetry (4 * length errs + 3 + fuel)
    {| actions := (Some <$> errs) ++ None :: rest;
       flags := replicate (length errs) false ++ fl |}
    (RetryUntilSucceed timeout)
  = (concat (failedAttempt timeout <$> errs) ++ [DidAction None; DidCloseStop], Some tt).
Proof.
  induction errs as [|e errs IH].
  - apply runRetry_success.
  - replace (4 * length (e :: errs) + 3 + fuel)
      with (4 + (4 * length errs + 3 + fuel)) by (simpl; lia).
    cbn [fmap list_fmap app length replicate concat].
    rewrite runRetry_again, IH. by rewrite <- app_assoc.
Qed.

(** Failures with the context not done, followed by a failure after which
    the context is seen done: no call of [action] follows, whatever is left
    of the script. *)
Lemma runRetry_until_done fuel timeout errs e rest fl :
  runRetry (4 * length errs + 4 + fuel)
    {| actions := (Some <$> errs) ++ Some e :: rest;
       flags := replicate (length errs) false ++ true :: fl |}
    (RetryUntilSucceed timeout)
  = (concat (failedAttempt timeout <$> errs)
       ++ [DidAction (Some e); DidReadCtxCompleted true; DidCloseStop],
     Some tt).
Proof.
  induction errs as [|e0 errs IH].
  - apply runRetry_done.
  - replace (4 * length (e0 :: errs) + 4 + fuel)
      with (4 + (4 * length errs + 4 + fuel)) by (simpl; lia).
    cbn [fmap list_fmap app length replicate concat].
    rewrite runRetry_again, IH. by rewrite <- app_assoc.
Qed.



(** C9. [RetryUntilSucceed] first calls [action], before it reads
    whether the context is done, so also when the context is done from the
    start; after a call that succeeds it returns; after a call that fails it
    reads [ctxCompleted], returns if it is set, without a further call, and
    otherwise sleeps [timeout] and starts over.  So a run is a sequence of
    failed calls, each followed by a sleep of [timeout], ended by a call that
    succeeds or by a failed call after which the context is seen done.  What
    is returned is the unit value in every case: the error of [action] is not
    handed to the caller. *)
Theorem RetryUntilSucceed_attempts (timeout : Duration) :
  eutt eq (RetryUntilSucceed timeout)
    (let* err := ITree.trigger Action in
     match err with
     | None => ITree.trigger CloseStop
     | Some _ =>
         let* ctxCompleted := ITree.trigger ReadCtxCompleted in
         if ctxCompleted : bool
         then ITree.trigger CloseStop
         else ITree.trigger (SleepFor timeout) ;;; RetryUntilSucceed timeout
     end) ∧
  (∀ fuel a rest fl,
     ∃ tr res,
       runRetry (S fuel) {| actions := a :: rest; flags := fl |} (RetryUntilSucceed timeout)
       = (DidAction a :: tr, res)) ∧
  (∀ fuel errs rest fl,
     runRetry (4 * length errs + 3 + fuel)
       {| actions := (Some <$> errs) ++ None :: rest;
          flags := replicate (length errs) false ++ fl |}
       (RetryUntilSucceed timeout)
     = (concat (failedAttempt timeout <$> errs) ++ [DidAction None; DidCloseStop],
        Some tt)) ∧
  (∀ fuel errs e rest fl,
     runRetry (4 * length errs + 4 + fuel)
       {| actions := (Some <$> errs) ++ Some e :: rest;
          flags := replicate (length errs) false ++ true :: fl |}
       (RetryUntilSucceed timeout)
     = (concat (failedAttempt timeout <$> errs)
          ++ [DidAction (Some e); DidReadCtxCompleted true; DidCloseStop],
        Some tt)).
Proof.
  split; [apply RetryUntilSucceed_unfold|]. split; [|split].
  - intros fuel a rest fl. apply runRetry_first.
  - intros fuel errs rest fl. apply runRetry_until_success.
  - intros fuel errs e rest fl. apply runRetry_until_done.
Qed.

End LoopFacts.

(** ** The status loop of CompareAppState *)

Section status_facts.
Context (P : Packages) (m : appStateManager) (app : Application) (project : AppProject).

Lemma slotBody_sync failed (d : DiffResultList) i t l st :
  st_syncCode <$> slotBody P m app project failed d i t l st
  = slotSync P (Diffs d) i t l (st_syncCode st).
Proof.
  unfold slotBody, slotSync.
  destruct (slotObject t l) as [obj|]; [|done].
  destruct (Diffs d !! i) as [diffResult|]; [|done].
  by destruct (syncClassify P (st_syncCode st) t l obj (hookutil_IsHook P obj) diffResult).
Qed.

Lemma statusLoop_sync failed (d : DiffResultList) lives i ts st :
  st_syncCode <$> statusLoop P m app project failed d lives i ts st
  = syncLoop P (Diffs d) lives i ts (st_syncCode st).
Proof.
  revert i st. induction ts as [|t ts IH]; intros i st; [done|].
  simpl. destruct (lives !! i) as [l|]; [|done].
  rewrite <- (slotBody_sync failed d i t l st).
  destruct (slotBody P m app project failed d i t l st) as [st1|why]; simpl; [|done].
  apply IH.
Qed.

Lemma compareStatuses_sync failed (rec : ReconciliationResult) (d : DiffResultList) :
  st_syncCode <$> compareStatuses P m app project failed rec d
  = (fun c => if failed then SyncStatusCodeUnknown else c)
      <$> syncLoop P (Diffs d) (rr_Live rec) 0 (rr_Target rec) SyncStatusCodeSynced.
Proof.
  unfold compareStatuses.
  change SyncStatusCodeSynced
    with (st_syncCode (initialLoopState (length (rr_Target rec)))) at 1.
  rewrite <- (statusLoop_sync failed d (rr_Live rec) 0 (rr_Target rec)
                (initialLoopState (length (rr_Target rec)))).
  by destruct (statusLoop _ _ _ _ _ _ _ _ _ _).
Qed.

Lemma syncLoop_app diffs lives i ts ts' c :
  syncLoop P diffs lives i (ts ++ ts') c
  = syncLoop P diffs lives i ts c ≫= syncLoop P diffs lives (i + length ts) ts'.
Proof.
  revert i c. induction ts as [|t ts IH]; intros i c; simpl.
  - by rewrite Nat.add_0_r.
  - destruct (lives !! i) as [l|]; [|done].
    destruct (slotSync P diffs i t l c) as [c1|why]; simpl; [|done].
    rewrite IH. by replace (S i + length ts) with (i + S (length ts)) by lia.
Qed.

(** The loop reads the live objects and the diffs at the indices of its
    slots only. *)
Lemma syncLoop_ext diffs diffs' lives lives' i i' ts c :
  (∀ j, j < length ts →
     lives !! (i + j) = lives' !! (i' + j) ∧ diffs !! (i + j) = diffs' !! (i' + j)) →
  syncLoop P diffs lives i ts c = syncLoop P diffs' lives' i' ts c.
Proof.
  revert i i' c. induction ts as [|t ts IH]; intros i i' c Hsame; [done|].
  simpl. destruct (Hsame 0) as [Hl Hd]; [simpl; lia|].
  rewrite !Nat.add_0_r in Hl, Hd. rewrite <- Hl.
  destruct (lives !! i) as [l|]; [|done].
  unfold slotSync. rewrite <- Hd.
  assert (Hrest : ∀ c1, syncLoop P diffs lives (S i) ts c1
                        = syncLoop P diffs' lives' (S i') ts c1).
  { intros c1. apply IH. intros j Hj.
    replace (S i + j) with (i + S j) by lia. replace (S i' + j) with (i' + S j) by lia.
    apply Hsame. simpl. lia. }
  destruct (slotObject t l) as [obj|]; simpl; [|apply Hrest].
  destruct (diffs !! i) as [diffResult|]; simpl; [apply Hrest|done].
Qed.

(** A slot that leaves [syncCode] as it is can be taken out, with its
    live object and its diff, without a change to the outcome. *)
Lemma syncLoop_insert_neutral d1 dh d2 l1 lh l2 t1 th t2 c :
  length l1 = length t1 → length d1 = length t1 →
  (∀ c', slotSync P (d1 ++ dh :: d2) (length t1) th lh c' = Done c') →
  syncLoop P (d1 ++ dh :: d2) (l1 ++ lh :: l2) 0 (t1 ++ th :: t2) c
  = syncLoop P (d1 ++ d2) (l1 ++ l2) 0 (t1 ++ t2) c.
Proof.
  intros Hl Hd Hneutral. rewrite !syncLoop_app. simpl.
  rewrite (syncLoop_ext (d1 ++ dh :: d2) (d1 ++ d2) (l1 ++ lh :: l2) (l1 ++ l2) 0 0 t1).
  - destruct (syncLoop P (d1 ++ d2) (l1 ++ l2) 0 t1 c) as [c1|why]; simpl; [|done].
    rewrite list_lookup_middle by done. rewrite Hneutral. simpl.
    apply syncLoop_ext. intros j Hj.
    rewrite !(lookup_app_r l1), !(lookup_app_r d1) by lia.
    replace (S (length t1) + j - length l1) with (S j) by lia.
    replace (S (length t1) + j - length d1) with (S j) by lia.
    replace (length t1 + j - length l1) with j by lia.
    replace (length t1 + j - length d1) with j by lia.
    done.
  - intros j Hj. simpl.
    by rewrite !(lookup_app_l l1), !(lookup_app_l d1) by lia.
Qed.


Lemma syncClassify_cases c t l obj hook d :
  (syncClassify P c t l obj hook d).2 = c ∨
  (syncClassify P c t l obj hook d).2 = SyncStatusCodeOutOfSync.
Proof.
  unfold syncClassify.
  destruct (hook || ignore_Ignore P obj); [by left|].
  destruct (Modified d || isNil t || isNil l); [|by left].
  destruct (negb _); [by right|by left].
Qed.

(** Once [syncCode] is [OutOfSync] the loop leaves it so. *)
Lemma syncLoop_OutOfSync diffs lives i ts c :
  syncLoop P diffs lives i ts SyncStatusCodeOutOfSync = Done c →
  c = SyncStatusCodeOutOfSync.
Proof.
  revert i. induction ts as [|t ts IH]; intros i; simpl.
  - by intros [= <-].
  - destruct (lives !! i) as [l|]; [|done].
    unfold slotSync. destruct (slotObject t l) as [obj|]; simpl; [|apply IH].
    destruct (diffs !! i) as [d|]; simpl; [|done].
    destruct (syncClassify_cases SyncStatusCodeOutOfSync t l obj (hookutil_IsHook P obj) d)
      as [-> | ->]; apply IH.
Qed.

(** *** The two arrays *)

Lemma overrideStatus_failed gvk status :
  overrideStatus m app project true gvk status = SyncStatusCodeUnknown.
Proof. done. Qed.

Lemma overrideStatus_permitted gvk status :
  groupKindPermitted m app project gvk = true →
  overrideStatus m app project false gvk status = status.
Proof. unfold overrideStatus. by intros ->. Qed.

(** What an iteration that does not panic does to the state. *)
Lemma slotBody_Done failed (d : DiffResultList) i t l st st' :
  slotBody P m app project failed d i t l st = Done st' →
  (slotObject t l = None ∧ st' = st) ∨
  (∃ obj diffResult,
     slotObject t l = Some obj ∧ Diffs d !! i = Some diffResult ∧
     st_syncCode st'
       = (syncClassify P (st_syncCode st) t l obj (hookutil_IsHook P obj) diffResult).2 ∧
     st_resourceSummaries st'
       = <[i := slotSummary P m app project failed t l obj diffResult (st_syncCode st)]>
           (st_resourceSummaries st) ∧
     ∃ managed, mr_Target managed = t ∧ mr_Live managed = l ∧
       st_managedResources st' = <[i := managed]> (st_managedResources st)).
Proof.
  unfold slotBody. destruct (slotObject t l) as [obj|].
  - destruct (Diffs d !! i) as [diffResult|]; [|done].
    unfold slotSummary.
    destruct (syncClassify P (st_syncCode st) t l obj (hookutil_IsHook P obj) diffResult)
      as [status syncCode] eqn:Hclass.
    intros [= <-]. right. exists obj, diffResult. simpl.
    rewrite Hclass. simpl. do 4 (split; [done|]).
    eexists. split; [|split; [|reflexivity]]; done.
  - intros [= <-]. by left.
Qed.

(** With [failedToLoadObjs] set, every summary written next to a
    managed resource that has an object carries the status [Unknown]. *)
Let allUnknown (st : loopState) : Prop :=
  ∀ j rs mr,
    st_resourceSummaries st !! j = Some rs → st_managedResources st !! j = Some mr →
    hasObject mr → rs_Status rs = SyncStatusCodeUnknown.

Lemma allUnknown_initial n : allUnknown (initialLoopState n).
Proof.
  intros j rs mr _ [-> _]%lookup_replicate [Hobj|Hobj]; by destruct Hobj.
Qed.

Lemma slotBody_allUnknown (d : DiffResultList) i t l st st' :
  slotBody P m app project true d i t l st = Done st' →
  allUnknown st → allUnknown st'.
Proof.
  intros [[_ ->]|(obj & diffResult & _ & _ & _ & Hsum & managed & _ & _ & Hman)]%slotBody_Done
    Hinv; [done|].
  intros j rs mr. rewrite Hsum, Hman. intros Hrs Hmr Hobj.
  apply list_lookup_insert_Some in Hrs as [(<- & <- & _)|[Hne Hrs]].
  - done.
  - apply list_lookup_insert_Some in Hmr as [(? & _)|[_ Hmr]]; [done|].
    by apply (Hinv j rs mr).
Qed.

Lemma statusLoop_allUnknown (d : DiffResultList) lives i ts st st' :
  statusLoop P m app project true d lives i ts st = Done st' →
  allUnknown st → allUnknown st'.
Proof.
  revert i st. induction ts as [|t ts IH]; intros i st; simpl.
  - by intros [= <-].
  - destruct (lives !! i) as [l|]; [|done].
    destruct (slotBody P m app project true d i t l st) as [st1|why] eqn:Hbody; [|done].
    simpl. intros Hloop Hinv. apply (IH _ _ Hloop).
    by apply (slotBody_allUnknown d i t l st).
Qed.

(** If [failedToLoadObjs] is set and the status loop returns, the
    aggregate is [Unknown] and so is the status of every summary whose slot
    has an object. *)
Lemma compareStatuses_failed (rec : ReconciliationResult) (d : DiffResultList) st :
  compareStatuses P m app project true rec d = Done st →
  st_syncCode st = SyncStatusCodeUnknown ∧
  ∀ j rs mr,
    st_resourceSummaries st !! j = Some rs → st_managedResources st !! j = Some mr →
    hasObject mr → rs_Status rs = SyncStatusCodeUnknown.
Proof.
  unfold compareStatuses.
  destruct (statusLoop _ _ _ _ _ _ _ _ _ _) as [st1|why] eqn:Hloop; [|done].
  intros [= <-]. split; [done|]. simpl.
  apply (statusLoop_allUnknown _ _ _ _ _ _ Hloop), allUnknown_initial.
Qed.

(** With the diffs emptied after a failure of [diff.DiffArray], the loop
    panics at the first slot that has an object. *)
Lemma statusLoop_no_diffs_panics failed modified lives i ts st k t l :
  ts !! k = Some t → lives !! (i + k) = Some l → is_Some (slotObject t l) →
  ∃ why, statusLoop P m app project failed {| Diffs := []; drl_Modified := modified |}
           lives i ts st = Panic why.
Proof.
  revert i st k. induction ts as [|t0 ts IH]; intros i st k Ht Hl Hobj; [done|].
  simpl. destruct (lives !! i) as [l0|] eqn:Hl0; [|by eexists].
  destruct k as [|k]; simpl in Ht.
  - injection Ht as ->. rewrite Nat.add_0_r in Hl. rewrite Hl in Hl0.
    injection Hl0 as <-. unfold slotBody. destruct Hobj as [obj ->]. simpl. by eexists.
  - destruct (slotBody _ _ _ _ _ _ _ _ _ _) as [st1|why]; simpl; [|by eexists].
    apply (IH (S i) st1 k); [done| |done].
    by replace (S i + k) with (i + S k) by lia.
Qed.

(** *** Which summary is written where *)

Lemma slotBody_lengths failed (d : DiffResultList) i t l st st' :
  slotBody P m app project failed d i t l st = Done st' →
  length (st_resourceSummaries st') = length (st_resourceSummaries st).
Proof.
  intros [[_ ->]|(obj & diffResult & _ & _ & _ & -> & _)]%slotBody_Done; [done|].
  apply length_insert.
Qed.

Lemma statusLoop_before failed (d : DiffResultList) lives i ts st st' :
  statusLoop P m app project failed d lives i ts st = Done st' →
  length (st_resourceSummaries st') = length (st_resourceSummaries st) ∧
  ∀ j, j < i → st_resourceSummaries st' !! j = st_resourceSummaries st !! j.
Proof.
  revert i st. induction ts as [|t ts IH]; intros i st; simpl.
  - by intros [= <-].
  - destruct (lives !! i) as [l|]; [|done].
    destruct (slotBody P m app project failed d i t l st) as [st1|why] eqn:Hbody; [|done].
    simpl. intros [Hlen Hlt]%IH.
    rewrite Hlen, (slotBody_lengths _ _ _ _ _ _ _ Hbody). split; [done|].
    intros j Hj. rewrite Hlt by lia.
    apply slotBody_Done in Hbody
      as [[_ ->]|(obj & diffResult & _ & _ & _ & -> & _)]; [done|].
    apply list_lookup_insert_ne. lia.
Qed.

(** The summary at the index of a slot that has an object is the one the
    iteration of that slot computes. *)
Lemma statusLoop_writes failed (d : DiffResultList) lives i ts st st' k t l obj :
  statusLoop P m app project failed d lives i ts st = Done st' →
  ts !! k = Some t → lives !! (i + k) = Some l → slotObject t l = Some obj →
  i + k < length (st_resourceSummaries st) →
  ∃ diffResult syncCode,
    Diffs d !! (i + k) = Some diffResult ∧
    st_resourceSummaries st' !! (i + k)
      = Some (slotSummary P m app project failed t l obj diffResult syncCode).
Proof.
  revert i st k. induction ts as [|t0 ts IH]; intros i st k; [done|].
  simpl. destruct (lives !! i) as [l0|] eqn:Hl0; [|done].
  destruct (slotBody P m app project failed d i t0 l0 st) as [st1|why] eqn:Hbody; [|done].
  simpl. intros Hloop Ht Hl Hobj Hlen. destruct k as [|k]; simpl in Ht.
  - injection Ht as ->. rewrite Nat.add_0_r in *. rewrite Hl in Hl0. injection Hl0 as <-.
    apply statusLoop_before in Hloop as [_ Hlt]. rewrite Hlt by lia.
    apply slotBody_Done in Hbody
      as [[Hnone _]|(obj' & diffResult & Hobj' & Hd & _ & -> & _)]; [congruence|].
    assert (obj' = obj) as -> by congruence.
    exists diffResult, (st_syncCode st). split; [done|].
    by apply list_lookup_insert_eq.
  - replace (i + S k) with (S i + k) in * by lia.
    apply (IH (S i) st1 k); try done.
    by rewrite (slotBody_lengths _ _ _ _ _ _ _ Hbody).
Qed.
End status_facts.

Section aggregate_facts.
Context (P : Packages) (m : appStateManager) (app : Application) (project : AppProject).

Lemma syncLoop_delete_neutral diffs lives ts i t l dh c :
  ts !! i = Some t → lives !! i = Some l → diffs !! i = Some dh →
  (∀ c', slotSync P diffs i t l c' = Done c') →
  syncLoop P diffs lives 0 ts c
  = syncLoop P (delete i diffs) (delete i lives) 0 (delete i ts) c.
Proof.
  intros Ht Hl Hd Hneutral.
  rewrite !delete_take_drop.
  rewrite <- (take_drop_middle ts i t Ht) at 1.
  rewrite <- (take_drop_middle lives i l Hl) at 1.
  rewrite <- (take_drop_middle diffs i dh Hd) at 1.
  apply lookup_lt_Some in Ht as Hti, Hl as Hli, Hd as Hdi.
  apply syncLoop_insert_neutral.
  - rewrite !length_take. lia.
  - rewrite !length_take. lia.
  - rewrite length_take, Nat.min_l by lia.
    rewrite (take_drop_middle diffs i dh Hd). apply Hneutral.
Qed.

Lemma compareStatuses_delete_neutral failed (rec : ReconciliationResult)
    (d : DiffResultList) i t l dh :
  rr_Target rec !! i = Some t → rr_Live rec !! i = Some l → Diffs d !! i = Some dh →
  (∀ c', slotSync P (Diffs d) i t l c' = Done c') →
  st_syncCode <$> compareStatuses P m app project failed rec d
  = st_syncCode <$> compareStatuses P m app project failed
                      (withoutSlot i rec) (withoutDiff i d).
Proof.
  intros Ht Hl Hd Hneutral. rewrite !compareStatuses_sync. simpl.
  by rewrite (syncLoop_delete_neutral (Diffs d) (rr_Live rec) (rr_Target rec) i t l dh).
Qed.

(** The aggregate of the result is the [syncCode] the status loop ends
    with. *)
Lemma compareFinish_sync (rt : Runtime) source resourceOverrides normalizer
    (L : compareLocals) :
  (fun res => ss_Status <$> syncStatus res.1)
    <$> compareFinish P rt m app project source resourceOverrides normalizer L
  = (fun st => Some (st_syncCode st))
      <$> compareStatuses P m app project (failedToLoadObjs L) (reconciliation L)
            (diffResults L).
Proof.
  unfold compareFinish.
  destruct (compareStatuses _ _ _ _ _ _ _) as [st|why]; [|done]. simpl.
  by destruct (argohealth_SetApplicationHealth _ _ _ _ _) as [[written health] err].
Qed.

Lemma syncLoop_prune_OutOfSync diffs lives i ts c0 c k live :
  syncLoop P diffs lives i ts c0 = Done c →
  ts !! k = Some None → lives !! (i + k) = Some (Some live) →
  hookutil_IsHook P live = false → ignore_Ignore P live = false →
  resourceutil_HasAnnotationOption P live AnnotationCompareOptions "IgnoreExtraneous" = false →
  c = SyncStatusCodeOutOfSync.
Proof.
  intros Hloop Ht Hl Hhook Hignore Hextraneous.
  revert i c0 k Hloop Ht Hl. induction ts as [|t ts IH]; intros i c0 k; [done|].
  simpl. destruct (lives !! i) as [l|] eqn:Hli; [|done].
  destruct k as [|k]; simpl.
  - intros Hloop [= ->]. rewrite Nat.add_0_r, Hli. intros [= ->].
    revert Hloop. unfold slotSync. simpl.
    destruct (diffs !! i) as [diffResult|]; [|done]. simpl.
    unfold syncClassify. rewrite Hhook, Hignore, Hextraneous. simpl.
    rewrite orb_true_r. simpl. apply syncLoop_OutOfSync.
  - destruct (slotSync P diffs i t l c0) as [c1|why]; [|done]. simpl.
    intros Hloop Ht Hl. apply (IH (S i) c1 k); [done..|].
    by replace (S i + k) with (i + S k) by lia.
Qed.
End aggregate_facts.

(** ** CompareAppState *)

(** C6. If the comparison settings cannot be loaded, [CompareAppState]
    returns at once, without a call of [SetConditions], a result whose sync
    status is [Unknown] and compared to the given source and the destination
    of the application, whose health status is [Unknown] and whose
    [resources] and [managedResources] are empty. *)
Theorem CompareAppState_settings_error (P : Packages) (rt : Runtime) (m : appStateManager)
    (app : Application) (project : AppProject) (revision : string)
    (source : ApplicationSource) (noCache : bool) (localManifests : list string)
    (err : error) :
  getComparisonSettings P m app = inr err →
  ∃ compRes,
    CompareAppState P rt m app project revision source noCache localManifests
      = Done (compRes, None) ∧
    syncStatus compRes
      = Some {| ss_Status := SyncStatusCodeUnknown;
                ss_ComparedTo := {| ct_Source := source;
                                    ct_Destination := Destination (Spec app) |};
                ss_Revision := "" |} ∧
    healthStatus compRes
      = Some {| hs_Status := HealthStatusUnknown; hs_Message := "" |} ∧
    resources compRes = [] ∧
    managedResources compRes = [].
Proof.
  intros Hsettings. exists (unknownResult app source).
  unfold CompareAppState. by rewrite Hsettings.
Qed.

(** The settings fail as soon as one of the three loads fails. *)
Lemma getComparisonSettings_error (P : Packages) (m : appStateManager) (app : Application) :
  (∃ err, getComparisonSettings P m app = inr err) ↔
  (∃ err, GetResourceOverrides (settingsMgr m) = inr err) ∨
  (∃ err, GetAppInstanceLabelKey (settingsMgr m) = inr err) ∨
  (∃ err overrides,
     GetResourceOverrides (settingsMgr m) = inl overrides ∧
     argo_NewDiffNormalizer P (IgnoreDifferences (Spec app)) overrides = inr err).
Proof.
  unfold getComparisonSettings.
  destruct (GetResourceOverrides (settingsMgr m)) as [overrides|e1]; simpl.
  - destruct (GetAppInstanceLabelKey (settingsMgr m)) as [key|e2]; simpl.
    + destruct (argo_NewDiffNormalizer P _ overrides) as [n|e3] eqn:Hn; simpl.
      * split; [by intros [? ?]|].
        intros [[? ?]|[[? ?]|(? & ? & [= <-] & ?)]]; congruence.
      * split; [|by eauto]. intros _. right. right. by exists e3, overrides.
    + split; [|by eauto]. intros _. right. left. by eauto.
  - split; [|by eauto]. intros _. left. by eauto.
Qed.

Lemma CompareAppState_settings_error_witness :
  getComparisonSettings (Fake.packages idOrder false)
    (Fake.manager (inr "configmap argocd-cm not found") [] (inl ∅)) Fake.app
    = inr "configmap argocd-cm not found" ∧
  ∃ compRes,
    CompareAppState (Fake.packages idOrder false) (Fake.runtime idOrder)
      (Fake.manager (inr "configmap argocd-cm not found") [] (inl ∅))
      Fake.app Fake.project "" Fake.source false []
      = Done (compRes, None) ∧
    syncStatus compRes
      = Some {| ss_Status := SyncStatusCodeUnknown;
                ss_ComparedTo := {| ct_Source := Fake.source;
                                    ct_Destination := Destination (Spec Fake.app) |};
                ss_Revision := "" |} ∧
    healthStatus compRes
      = Some {| hs_Status := HealthStatusUnknown; hs_Message := "" |} ∧
    resources compRes = [] ∧
    managedResources compRes = [].
Proof.
  split; [reflexivity|].
  apply (CompareAppState_settings_error (Fake.packages idOrder false) (Fake.runtime idOrder)
           (Fake.manager (inr "configmap argocd-cm not found") [] (inl ∅))
           Fake.app Fake.project "" Fake.source false []
           "configmap argocd-cm not found").
  reflexivity.
Defined.



(** What a second half of the pass that returns has computed. *)
Lemma compareFinish_Done (P : Packages) (rt : Runtime) (m : appStateManager)
    (app : Application) (project : AppProject) (source : ApplicationSource)
    (resourceOverrides : gmap string ResourceOverride) (normalizer : Normalizer)
    (L : compareLocals) (compRes : comparisonResult) (conds : list ApplicationCondition) :
  compareFinish P rt m app project source resourceOverrides normalizer L
    = Done (compRes, conds) →
  ∃ st written,
    compareStatuses P m app project (failedToLoadObjs L) (reconciliation L) (diffResults L)
      = Done st ∧
    ss_Status <$> syncStatus compRes = Some (st_syncCode st) ∧
    resources compRes = imap (writeHealth written) (st_resourceSummaries st) ∧
    managedResources compRes = st_managedResources st.
Proof.
  unfold compareFinish.
  destruct (compareStatuses _ _ _ _ _ _ _) as [st|why]; [|done]. simpl.
  destruct (argohealth_SetApplicationHealth _ _ _ _ _) as [[written health] herr].
  intros [= <- _]. by exists st, written.
Qed.

Lemma writeHealth_status written i rs :
  rs_Status (writeHealth written i rs) = rs_Status rs ∧
  rs_RequiresPruning (writeHealth written i rs) = rs_RequiresPruning rs.
Proof. unfold writeHealth. by destruct (written !! i) as [[h|]|]. Qed.

(** C7. For a slot without target whose live object is neither a hook
    nor to be ignored, the chain of conditionals sets the status of the
    resource to [OutOfSync] and sets [syncCode] to [OutOfSync] unless the live
    object has the compare option [IgnoreExtraneous], in which case it leaves
    [syncCode] as it is.  In the result of a pass that returns, the entry of
    the slot requires pruning and has that status [OutOfSync], on which the
    two later overrides act ([Unknown] for a kind the project forbids or after
    a failure to load); without the option and without such a failure the
    aggregate is [OutOfSync]; with the option the aggregate is the one of the
    pass without the slot. *)
Theorem prune_candidate_out_of_sync (P : Packages) (rt : Runtime) (m : appStateManager)
    (app : Application) (project : AppProject) (source : ApplicationSource)
    (resourceOverrides : gmap string ResourceOverride) (normalizer : Normalizer)
    (L : compareLocals) (compRes : comparisonResult) (conds : list ApplicationCondition)
    (i : nat) (live : Unstructured) :
  compareFinish P rt m app project source resourceOverrides normalizer L
    = Done (compRes, conds) →
  rr_Target (reconciliation L) !! i = Some None →
  rr_Live (reconciliation L) !! i = Some (Some live) →
  hookutil_IsHook P live = false →
  ignore_Ignore P live = false →
  let ignoreExtraneous :=
    resourceutil_HasAnnotationOption P live AnnotationCompareOptions "IgnoreExtraneous" in
  (∀ syncCode diffResult,
     syncClassify P syncCode None (Some live) live (hookutil_IsHook P live) diffResult
     = (SyncStatusCodeOutOfSync,
        if ignoreExtraneous then syncCode else SyncStatusCodeOutOfSync)) ∧
  (∃ rs, resources compRes !! i = Some rs ∧
         rs_RequiresPruning rs = true ∧
         rs_Status rs = overrideStatus m app project (failedToLoadObjs L)
                          (GroupVersionKind_of live) SyncStatusCodeOutOfSync ∧
         (failedToLoadObjs L = false →
          groupKindPermitted m app project (GroupVersionKind_of live) = true →
          rs_Status rs = SyncStatusCodeOutOfSync)) ∧
  (ignoreExtraneous = false → failedToLoadObjs L = false →
   ss_Status <$> syncStatus compRes = Some SyncStatusCodeOutOfSync) ∧
  (ignoreExtraneous = true →
   (fun res => ss_Status <$> syncStatus res.1)
     <$> compareFinish P rt m app project source resourceOverrides normalizer
           {| failedToLoadObjs := failedToLoadObjs L;
              conditions := conditions L;
              manifestInfo := manifestInfo L;
              reconciliation := withoutSlot i (reconciliation L);
              diffResults := withoutDiff i (diffResults L) |}
   = Done (ss_Status <$> syncStatus compRes)).
Proof.
  intros Hfinish Ht Hl Hhook Hignore ignoreExtraneous.
  destruct (compareFinish_Done _ _ _ _ _ _ _ _ _ _ _ Hfinish)
    as (st & written & Hrun & Hsync & Hres & _).
  set (failed := failedToLoadObjs L) in *.
  set (rec := reconciliation L) in *. set (d := diffResults L) in *.
  assert (Hclass : ∀ syncCode diffResult,
     syncClassify P syncCode None (Some live) live (hookutil_IsHook P live) diffResult
     = (SyncStatusCodeOutOfSync,
        if ignoreExtraneous then syncCode else SyncStatusCodeOutOfSync)).
  { intros syncCode diffResult. unfold syncClassify.
    rewrite Hhook, Hignore. simpl. rewrite orb_true_r. simpl.
    fold ignoreExtraneous. by destruct ignoreExtraneous. }
  assert (Hwritten : ∃ diffResult syncCode,
     Diffs d !! i = Some diffResult ∧
     st_resourceSummaries st !! i
       = Some (slotSummary P m app project failed None (Some live) live diffResult syncCode)).
  { revert Hrun. unfold compareStatuses.
    destruct (statusLoop _ _ _ _ _ _ _ _ _ _) as [st1|why] eqn:Hloop; [|done].
    intros [= <-]. simpl.
    apply (statusLoop_writes P m app project failed d (rr_Live rec) 0 (rr_Target rec)
             _ st1 i None (Some live) live Hloop); try done.
    simpl. rewrite length_replicate. by apply lookup_lt_Some in Ht. }
  destruct Hwritten as (diffResult & syncCode & Hd & Hrs).
  split; [done|]. split; [|split].
  - eexists. rewrite Hres, list_lookup_imap, Hrs. simpl. split; [done|].
    destruct (writeHealth_status written i
                (slotSummary P m app project failed None (Some live) live diffResult syncCode))
      as [-> ->].
    unfold slotSummary. simpl. rewrite Hclass. simpl.
    do 2 (split; [done|]). intros -> Hpermitted. by apply overrideStatus_permitted.
  - intros Hno Hfailed. rewrite Hsync. f_equal.
    assert (Hsc := compareStatuses_sync P m app project failed rec d).
    rewrite Hrun, Hfailed in Hsc. simpl in Hsc.
    destruct (syncLoop P (Diffs d) (rr_Live rec) 0 (rr_Target rec) SyncStatusCodeSynced)
      as [c|why] eqn:Hloop; [|done].
    injection Hsc as ->.
    by apply (syncLoop_prune_OutOfSync P _ _ _ _ _ _ i live Hloop).
  - intros Hyes. rewrite compareFinish_sync. simpl. fold failed rec d.
    assert (Hsame := compareStatuses_delete_neutral P m app project failed rec d i None
                       (Some live) diffResult Ht Hl Hd).
    rewrite Hrun in Hsame. simpl in Hsame.
    destruct (compareStatuses P m app project failed (withoutSlot i rec) (withoutDiff i d))
      as [st'|why'].
    + simpl in *. rewrite Hsync. f_equal. f_equal. symmetry.
      cut (Done (st_syncCode st) = Done (st_syncCode st')); [by intros [= ->]|].
      apply Hsame. intros c'. unfold slotSync. simpl. rewrite Hd. simpl.
      rewrite Hclass. unfold ignoreExtraneous in *. by rewrite Hyes.
    + exfalso. cut (Done (st_syncCode st) = @Panic SyncStatusCode why'); [done|].
      apply Hsame. intros c'. unfold slotSync. simpl. rewrite Hd. simpl.
      rewrite Hclass. unfold ignoreExtraneous in *. by rewrite Hyes.
Qed.

Lemma prune_candidate_out_of_sync_witness :
  let P := Fake.packages idOrder false in
  let rt := Fake.runtime idOrder in
  let m := Fake.manager (inl ∅) [] (inl ∅) in
  let L := Fake.pruneLocals in
  let live := Fake.extraneous in
  let compRes := Fake.pruneResult in
  (compareFinish P rt m Fake.app Fake.project Fake.source ∅ "normalizer" L
     = Done (compRes, []) ∧
   rr_Target (reconciliation L) !! 0 = Some None ∧
   rr_Live (reconciliation L) !! 0 = Some (Some live) ∧
   hookutil_IsHook P live = false ∧
   ignore_Ignore P live = false) ∧
  (∀ syncCode diffResult,
     syncClassify P syncCode None (Some live) live (hookutil_IsHook P live) diffResult
     = (SyncStatusCodeOutOfSync,
        if resourceutil_HasAnnotationOption P live AnnotationCompareOptions "IgnoreExtraneous"
        then syncCode else SyncStatusCodeOutOfSync)) ∧
  (∃ rs, resources compRes !! 0 = Some rs ∧
         rs_RequiresPruning rs = true ∧
         rs_Status rs = overrideStatus m Fake.app Fake.project (failedToLoadObjs L)
                          (GroupVersionKind_of live) SyncStatusCodeOutOfSync ∧
         (failedToLoadObjs L = false →
          groupKindPermitted m Fake.app Fake.project (GroupVersionKind_of live) = true →
          rs_Status rs = SyncStatusCodeOutOfSync)) ∧
  (resourceutil_HasAnnotationOption P live AnnotationCompareOptions "IgnoreExtraneous" = false →
   failedToLoadObjs L = false →
   ss_Status <$> syncStatus compRes = Some SyncStatusCodeOutOfSync) ∧
  (resourceutil_HasAnnotationOption P live AnnotationCompareOptions "IgnoreExtraneous" = true →
   (fun res => ss_Status <$> syncStatus res.1)
     <$> compareFinish P rt m Fake.app Fake.project Fake.source ∅ "normalizer"
           {| failedToLoadObjs := failedToLoadObjs L;
              conditions := conditions L;
              manifestInfo := manifestInfo L;
              reconciliation := withoutSlot 0 (reconciliation L);
              diffResults := withoutDiff 0 (diffResults L) |}
   = Done (ss_Status <$> syncStatus compRes)).
Proof.
  cbv zeta. split; [repeat split; reflexivity|].
  apply (prune_candidate_out_of_sync (Fake.packages idOrder false) (Fake.runtime idOrder)
           (Fake.manager (inl ∅) [] (inl ∅)) Fake.app Fake.project Fake.source ∅
           "normalizer" Fake.pruneLocals Fake.pruneResult [] 0 Fake.extraneous);
    reflexivity.
Defined.

(** If [failedToLoadObjs] is set in a pass that returns, the aggregate
    sync status of the result is [Unknown] and so is the status of every
    entry of [resources] whose slot has an object, hooks and ignored objects
    included. *)
Lemma CompareAppState_failed_unknown (P : Packages) (rt : Runtime) (m : appStateManager)
    (app : Application) (project : AppProject) (revision : string)
    (source : ApplicationSource) (noCache : bool) (localManifests : list string)
    (compRes : comparisonResult) (conds : option (list ApplicationCondition)) :
  passFailedToLoadObjs P rt m app project revision source noCache localManifests = Some true →
  CompareAppState P rt m app project revision source noCache localManifests
    = Done (compRes, conds) →
  ss_Status <$> syncStatus compRes = Some SyncStatusCodeUnknown ∧
  ∀ j rs mr,
    resources compRes !! j = Some rs → managedResources compRes !! j = Some mr →
    hasObject mr → rs_Status rs = SyncStatusCodeUnknown.
Proof.
  unfold passFailedToLoadObjs, CompareAppState.
  destruct (getComparisonSettings P m app) as [[[appLabelKey overrides] normalizer]|e]; [|done].
  destruct (comparePrepare _ _ _ _ _ _ _ _ _ _ _) as [L|why]; [|done].
  intros [= Hfailed]. simpl. unfold compareFinish. rewrite Hfailed.
  destruct (compareStatuses P m app project true (reconciliation L) (diffResults L))
    as [st|why] eqn:Hst; [|done].
  apply compareStatuses_failed in Hst as [Hsync Hall]. simpl.
  destruct (argohealth_SetApplicationHealth _ _ _ _ _) as [[written health] herr].
  simpl. intros [= <- _]. simpl. split; [by rewrite Hsync|].
  intros j rs mr Hrs Hmr Hobj.
  rewrite list_lookup_imap in Hrs.
  destruct (st_resourceSummaries st !! j) as [rs0|] eqn:Hrs0; [|done].
  injection Hrs as <-.
  assert (rs_Status (writeHealth written j rs0) = rs_Status rs0) as ->.
  { unfold writeHealth. by destruct (written !! j) as [[h|]|]. }
  by apply (Hall j rs0 mr).
Qed.

(** When [diff.DiffArray] fails, [failedToLoadObjs] is set and the diffs
    are emptied; the status loop then panics at the first slot that has an
    object. *)
Lemma compareStatuses_no_diffs_panics (P : Packages) (m : appStateManager)
    (app : Application) (project : AppProject) (failed modified : bool)
    (rec : ReconciliationResult) (i : nat) (targetObj liveObj : option Unstructured) :
  rr_Target rec !! i = Some targetObj → rr_Live rec !! i = Some liveObj →
  is_Some (slotObject targetObj liveObj) →
  ∃ why, compareStatuses P m app project failed rec
           {| Diffs := []; drl_Modified := modified |} = Panic why.
Proof.
  intros Ht Hl Hobj. unfold compareStatuses.
  destruct (statusLoop_no_diffs_panics P m app project failed modified (rr_Live rec) 0
              (rr_Target rec) (initialLoopState (length (rr_Target rec)))
              i targetObj liveObj Ht Hl Hobj) as [why ->].
  by exists why.
Qed.

(** *** When the pass returns *)

Lemma excludeLoop_returns (resFilter : ResourcesFilter) (server : string) (now : Time)
    (n : nat) (targetObjs : list Unstructured) (conditions : list ApplicationCondition) :
  (n ≤ length targetObjs)%nat →
  ∃ out, excludeLoop resFilter server now n targetObjs conditions = Done out.
Proof.
  revert targetObjs conditions.
  induction n as [|i IH]; intros targetObjs conditions Hn; simpl; [by eexists|].
  destruct (lookup_lt_is_Some_2 targetObjs i) as [targetObj ->]; [lia|].
  destruct (IsExcludedResource resFilter _ _ server); apply IH; [|lia].
  rewrite length_delete by (apply lookup_lt_is_Some_2; lia). lia.
Qed.

(** The steps before the status loop never panic. *)
Lemma comparePrepare_returns (P : Packages) (rt : Runtime) (m : appStateManager)
    (app : Application) (project : AppProject) (revision : string)
    (source : ApplicationSource) (noCache : bool) (localManifests : list string)
    (appLabelKey : string) (normalizer : Normalizer) :
  ∃ L, comparePrepare P rt m app project revision source noCache localManifests
         appLabelKey normalizer = Done L.
Proof.
  unfold comparePrepare.
  destruct (loadTargets _ _ _ _ _ _ _ _ _) as [[[targetObjs info] conds] failed].
  unfold dedupStep. rewrite DeduplicateTargetObjects_run. simpl.
  unfold excludeStep.
  destruct (GetResourcesFilter (settingsMgr m)) as [resFilter|err]; simpl.
  - match goal with
    | |- context [excludeLoop ?f ?sv ?nw ?n ?ts ?cs] =>
        destruct (excludeLoop_returns f sv nw n ts cs) as [[ts' cs'] ->]; [done|]
    end.
    simpl.
    destruct (GetManagedLiveObjs _ _ _) as [live|err];
      destruct (diff_DiffArray _ _ _ _) as [diffs|derr]; by eexists.
  - destruct (GetManagedLiveObjs _ _ _) as [live|err'];
      destruct (diff_DiffArray _ _ _ _) as [diffs|derr]; by eexists.
Qed.

Lemma statusLoop_returns (P : Packages) (m : appStateManager) (app : Application)
    (project : AppProject) failed (d : DiffResultList) lives i ts st :
  (∀ j, j < length ts → is_Some (lives !! (i + j)) ∧ is_Some (Diffs d !! (i + j))) →
  ∃ st', statusLoop P m app project failed d lives i ts st = Done st'.
Proof.
  revert i st. induction ts as [|t ts IH]; intros i st Hcover; simpl; [by eexists|].
  destruct (Hcover 0) as [[l Hl] [diffResult Hd]]; [simpl; lia|].
  rewrite Nat.add_0_r in Hl, Hd. rewrite Hl.
  assert (∃ st1, slotBody P m app project failed d i t l st = Done st1) as [st1 ->].
  { unfold slotBody. destruct (slotObject t l); [|by eexists]. rewrite Hd.
    destruct (syncClassify _ _ _ _ _ _ _). by eexists. }
  simpl. apply IH. intros j Hj.
  replace (S i + j) with (i + S j) by lia. apply Hcover. simpl. lia.
Qed.

(** A pass that gets its settings returns a result and sets conditions
    whenever the reconciliation has as many live entries as targets and
    there is a diff for every slot, which is what a call of [diff.DiffArray]
    that succeeds provides. *)
Lemma CompareAppState_returns (P : Packages) (rt : Runtime) (m : appStateManager)
    (app : Application) (project : AppProject) (revision : string)
    (source : ApplicationSource) (noCache : bool) (localManifests : list string)
    appLabelKey resourceOverrides normalizer (L : compareLocals) :
  getComparisonSettings P m app = inl (appLabelKey, resourceOverrides, normalizer) →
  comparePrepare P rt m app project revision source noCache localManifests
    appLabelKey normalizer = Done L →
  (length (rr_Target (reconciliation L)) ≤ length (rr_Live (reconciliation L)))%nat →
  (length (rr_Target (reconciliation L)) ≤ length (Diffs (diffResults L)))%nat →
  ∃ compRes conds,
    CompareAppState P rt m app project revision source noCache localManifests
      = Done (compRes, Some conds).
Proof.
  intros Hsettings Hprepare Hlive Hdiffs.
  unfold CompareAppState. rewrite Hsettings, Hprepare. simpl.
  unfold compareFinish, compareStatuses.
  destruct (statusLoop_returns P m app project (failedToLoadObjs L) (diffResults L)
              (rr_Live (reconciliation L)) 0 (rr_Target (reconciliation L))
              (initialLoopState (length (rr_Target (reconciliation L))))) as [st ->].
  { intros j Hj. split; apply lookup_lt_is_Some_2; simpl; lia. }
  simpl. destruct (argohealth_SetApplicationHealth _ _ _ _ _) as [[written health] herr].
  by eexists _, _.
Qed.

(** C3 fails on the code when the diff computation fails. The pass has
    one target object, [web], which is not live, and [diff.DiffArray] returns
    an error: [failedToLoadObjs] is set, and the pass panics on
    [diffResults.Diffs[0]] instead of returning a result with statuses
    [Unknown]. *)
Theorem CompareAppState_diff_error_panics :
  let P := Fake.packages idOrder true in
  let rt := Fake.runtime idOrder in
  let m := Fake.manager (inl ∅) ["web.yaml"] (inl ∅) in
  passFailedToLoadObjs P rt m Fake.app Fake.project "" Fake.source false [] = Some true ∧
  CompareAppState P rt m Fake.app Fake.project "" Fake.source false []
    = Panic "index out of range".
Proof. cbv zeta. split; vm_compute; reflexivity. Qed.


(** * Further facts about the two files *)

(** ** unmarshalManifests *)

Lemma unmarshalManifests_go_inl (P : Packages) manifests acc objs :
  unmarshalManifests_go P manifests acc = inl objs ↔
  ∃ decoded, objs = acc ++ decoded ∧
    Forall2 (fun manifest obj => v1alpha1_UnmarshalToUnstructured P manifest = inl obj)
      manifests decoded.
Proof.
  revert acc. induction manifests as [|manifest manifests IH]; intros acc; simpl.
  - split.
    + intros [= <-]. exists []. by rewrite app_nil_r.
    + intros (decoded & -> & ->%Forall2_nil_inv_l). by rewrite app_nil_r.
  - destruct (v1alpha1_UnmarshalToUnstructured P manifest) as [obj|err] eqn:Hobj.
    + rewrite IH. split.
      * intros (decoded & -> & Hrest). exists (obj :: decoded).
        split; [by rewrite <- app_assoc|]. by constructor.
      * intros (decoded & -> & Hall).
        apply Forall2_cons_inv_l in Hall as (obj' & rest & Hobj' & Hrest & ->).
        assert (obj' = obj) as -> by congruence.
        exists rest. split; [by rewrite <- app_assoc|done].
    + split; [done|].
      intros (decoded & _ & Hall).
      apply Forall2_cons_inv_l in Hall as (obj' & rest & Hobj' & _). congruence.
Qed.

Lemma unmarshalManifests_go_inr (P : Packages) manifests acc err :
  unmarshalManifests_go P manifests acc = inr err ↔
  ∃ before manifest after,
    manifests = before ++ manifest :: after ∧
    Forall (fun mf => ∃ obj, v1alpha1_UnmarshalToUnstructured P mf = inl obj) before ∧
    v1alpha1_UnmarshalToUnstructured P manifest = inr err.
Proof.
  revert acc. induction manifests as [|manifest manifests IH]; intros acc; simpl.
  - split; [done|]. intros (before & mf & after & Heq & _). by destruct before.
  - destruct (v1alpha1_UnmarshalToUnstructured P manifest) as [obj|e] eqn:Hobj.
    + rewrite IH. split.
      * intros (before & mf & after & -> & Hbefore & Hmf).
        exists (manifest :: before), mf, after. split; [done|].
        split; [|done]. constructor; [by exists obj|done].
      * intros (before & mf & after & Heq & Hbefore & Hmf).
        destruct before as [|b before]; simpl in Heq.
        -- injection Heq as -> _. congruence.
        -- injection Heq as -> ->. apply Forall_cons in Hbefore as [_ Hbefore].
           by exists before, mf, after.
    + split.
      * intros [= ->]. by exists [], manifest, manifests.
      * intros (before & mf & after & Heq & Hbefore & Hmf).
        destruct before as [|b before]; simpl in Heq.
        -- injection Heq as -> _. congruence.
        -- injection Heq as -> _. apply Forall_cons in Hbefore as [[obj' Hb] _]. congruence.
Qed.

(** X1. [unmarshalManifests] is all or nothing: it returns objects
    exactly when every manifest decodes, and then one object per manifest, in
    the order of the manifests; otherwise it returns the error of the first
    manifest that does not decode and no object at all. *)
Theorem unmarshalManifests_all_or_nothing (P : Packages) (manifests : list string) :
  (∀ objs,
     unmarshalManifests P manifests = inl objs ↔
     Forall2 (fun manifest obj => v1alpha1_UnmarshalToUnstructured P manifest = inl obj)
       manifests objs) ∧
  (∀ err,
     unmarshalManifests P manifests = inr err ↔
     ∃ before manifest after,
       manifests = before ++ manifest :: after ∧
       Forall (fun mf => ∃ obj, v1alpha1_UnmarshalToUnstructured P mf = inl obj) before ∧
       v1alpha1_UnmarshalToUnstructured P manifest = inr err).
Proof.
  split.
  - intros objs. unfold unmarshalManifests. rewrite unmarshalManifests_go_inl. split.
    + by intros (decoded & -> & ?).
    + intros Hall. by exists objs.
  - intros err. apply unmarshalManifests_go_inr.
Qed.

(** ** The loop over the excluded resources *)

Lemma excludeLoop_take (resFilter : ResourcesFilter) (server : string) (now : Time)
    (n : nat) (targetObjs : list Unstructured) (conds : list ApplicationCondition) :
  let excluded obj :=
    IsExcludedResource resFilter (gvkGroup (GroupVersionKind_of obj))
      (gvkKind (GroupVersionKind_of obj)) server in
  (n ≤ length targetObjs)%nat →
  excludeLoop resFilter server now n targetObjs conds
  = Done (filter (fun obj => excluded obj = false) (take n targetObjs) ++ drop n targetObjs,
          conds ++ ((fun obj => excludedCondition obj now)
                      <$> reverse (filter (fun obj => excluded obj = true)
                                     (take n targetObjs)))).
Proof.
  intros excluded. revert targetObjs conds.
  induction n as [|i IH]; intros targetObjs conds Hn.
  - simpl. by rewrite drop_0, app_nil_r.
  - simpl. destruct (lookup_lt_is_Some_2 targetObjs i) as [obj Hobj]; [lia|].
    rewrite Hobj. rewrite (take_S_r _ _ _ Hobj), !filter_app.
    fold (excluded obj). destruct (excluded obj) eqn:Hex.
    + rewrite IH by (rewrite length_delete by eauto; lia).
      rewrite delete_take_drop, take_app_length', drop_app_length'
        by (rewrite length_take; lia).
      rewrite (filter_cons_False _ _ []) by (by rewrite Hex).
      rewrite (filter_cons_True (fun o => excluded o = true) _ []) by done.
      rewrite !filter_nil, app_nil_r, reverse_app. simpl.
      by rewrite <- app_assoc.
    + rewrite IH by lia.
      rewrite (filter_cons_True _ _ []) by done.
      rewrite (filter_cons_False (fun o => excluded o = true) _ []) by (by rewrite Hex).
      rewrite !filter_nil, app_nil_r.
      rewrite <- app_assoc. simpl. by rewrite (drop_S _ _ _ Hobj).
Qed.

(** X2. The loop of [CompareAppState] that walks the targets from the
    last to the first and deletes in place removes exactly the targets whose
    group and kind the resources filter excludes, keeps the others in their
    order, and appends one [ExcludedResourceWarning] for every target removed,
    the last target first.  When the filter cannot be loaded the targets are
    kept as they are and one [ComparisonError] is appended. *)
Theorem excludeStep_filters (m : appStateManager) (app : Application) (now : Time)
    (targetObjs : list Unstructured) (conds : list ApplicationCondition) :
  match GetResourcesFilter (settingsMgr m) with
  | inl resFilter =>
      let excluded obj :=
        IsExcludedResource resFilter (gvkGroup (GroupVersionKind_of obj))
          (gvkKind (GroupVersionKind_of obj)) (Server (Destination (Spec app))) in
      excludeStep m app now targetObjs conds
      = Done (filter (fun obj => excluded obj = false) targetObjs,
              conds ++ ((fun obj => excludedCondition obj now)
                          <$> reverse (filter (fun obj => excluded obj = true) targetObjs)))
  | inr err =>
      excludeStep m app now targetObjs conds
      = Done (targetObjs, conds ++ [comparisonError err now])
  end.
Proof.
  unfold excludeStep.
  destruct (GetResourcesFilter (settingsMgr m)) as [resFilter|err]; [|done].
  cbv beta iota zeta. rewrite excludeLoop_take by done.
  by rewrite firstn_all, drop_all, app_nil_r.
Qed.

(** ** The two loops over the live objects *)

Section live_loops.
Context (project : AppProject) (server : string).

Let dropStep (live : gmap ResourceKey (option Unstructured))
    (kv : ResourceKey * option Unstructured) : gmap ResourceKey (option Unstructured) :=
  let '(k, v) := kv in
  if negb (IsLiveResourcePermitted project v server) then delete k live else live.

Lemma dropStep_absent entries (acc : gmap ResourceKey (option Unstructured)) key :
  acc !! key = None → foldl dropStep acc entries !! key = None.
Proof.
  revert acc. induction entries as [|[k v] entries IH]; intros acc Hacc; [done|].
  simpl. apply IH. destruct (negb _); [|done].
  rewrite lookup_delete. by case_decide.
Qed.

Lemma dropStep_dropped entries (acc : gmap ResourceKey (option Unstructured)) key v :
  (key, v) ∈ entries → IsLiveResourcePermitted project v server = false →
  foldl dropStep acc entries !! key = None.
Proof.
  revert acc. induction entries as [|[k0 v0] entries IH]; intros acc Hin Hbad.
  - by apply elem_of_nil in Hin.
  - apply elem_of_cons in Hin as [[= <- <-]|Hin]; simpl.
    + rewrite Hbad. simpl. apply dropStep_absent, lookup_delete_eq.
    + by apply IH.
Qed.

Lemma dropStep_kept entries (acc : gmap ResourceKey (option Unstructured)) key :
  (∀ v, (key, v) ∈ entries → IsLiveResourcePermitted project v server = true) →
  foldl dropStep acc entries !! key = acc !! key.
Proof.
  revert acc. induction entries as [|[k0 v0] entries IH]; intros acc Hok; [done|].
  simpl. rewrite IH by (intros v Hin; apply Hok; by right).
  destruct (IsLiveResourcePermitted project v0 server) eqn:Hv0; simpl; [done|].
  apply lookup_delete_ne. intros ->.
  specialize (Hok v0 ltac:(left)). congruence.
Qed.

Lemma dropUnpermitted_lookup (order : MapOrder)
    (liveObjByKey : gmap ResourceKey (option Unstructured)) key v :
  dropUnpermitted order project server liveObjByKey !! key = Some v →
  liveObjByKey !! key = Some v ∧ IsLiveResourcePermitted project v server = true.
Proof.
  change (dropUnpermitted order project server liveObjByKey)
    with (foldl dropStep liveObjByKey (go_range order liveObjByKey)).
  assert (Hin : ∀ v, (key, v) ∈ go_range order liveObjByKey ↔ liveObjByKey !! key = Some v).
  { intros v0. unfold go_range. rewrite (permute_perm order). apply elem_of_map_to_list. }
  destruct (liveObjByKey !! key) as [v0|] eqn:Hkey.
  - destruct (IsLiveResourcePermitted project v0 server) eqn:Hv.
    + rewrite dropStep_kept.
      * rewrite Hkey. by intros [= <-].
      * intros v' Hv'%Hin. congruence.
    + by rewrite (dropStep_dropped _ _ key v0) by (by apply Hin || done).
  - by rewrite dropStep_absent by done.
Qed.

(** X3. The loop that deletes from the map of live objects while it
    ranges over it leaves exactly the entries whose object the project permits
    on the destination server, whatever the order of the iteration. *)
Theorem dropUnpermitted_filter (order : MapOrder)
    (liveObjByKey : gmap ResourceKey (option Unstructured)) :
  dropUnpermitted order project server liveObjByKey
  = filter (fun kv => IsLiveResourcePermitted project kv.2 server = true) liveObjByKey.
Proof.
  apply map_eq. intros key.
  change (dropUnpermitted order project server liveObjByKey)
    with (foldl dropStep liveObjByKey (go_range order liveObjByKey)).
  assert (Hin : ∀ v, (key, v) ∈ go_range order liveObjByKey ↔ liveObjByKey !! key = Some v).
  { intros v. unfold go_range. rewrite (permute_perm order). apply elem_of_map_to_list. }
  destruct (liveObjByKey !! key) as [v|] eqn:Hkey.
  - destruct (IsLiveResourcePermitted project v server) eqn:Hv.
    + rewrite dropStep_kept.
      * rewrite Hkey. symmetry. by apply map_lookup_filter_Some.
      * intros v' Hv'%Hin. congruence.
    + rewrite (dropStep_dropped _ _ key v) by (by apply Hin || done).
      symmetry. apply map_lookup_filter_None. right. intros v' Hv'. simpl. congruence.
  - rewrite dropStep_absent by done.
    symmetry. apply map_lookup_filter_None. by left.
Qed.
End live_loops.

Lemma sharedWarnings_fold (app : Application) (appLabelKey : string) (now : Time)
    (entries : list (ResourceKey * option Unstructured)) (conds : list ApplicationCondition) :
  foldl (fun conditions '(_, v) =>
           match v with
           | None => conditions
           | Some liveObj =>
               let appInstanceName := GetAppInstanceLabel liveObj appLabelKey in
               if bool_decide (appInstanceName ≠ "") && bool_decide (appInstanceName ≠ app_Name app)
               then conditions ++ [sharedCondition liveObj appInstanceName now]
               else conditions
           end) conds entries
  = conds ++ omap (fun kv => sharedWarningOf app appLabelKey now kv.2) entries.
Proof.
  revert conds. induction entries as [|[k v] entries IH]; intros conds; simpl.
  - by rewrite app_nil_r.
  - rewrite IH. destruct v as [liveObj|]; simpl; [|done].
    destruct (_ && _); simpl; [|done]. by rewrite <- app_assoc.
Qed.


(** ** More on DeduplicateTargetObjects *)

Section dedup_more.
Context (namespace : string) (infoProvider : ResourceInfoProvider).

Lemma imputeNamespace_SetNamespace obj :
  imputeNamespace namespace infoProvider obj
  = SetNamespace obj (imputedNamespace namespace infoProvider obj).
Proof.
  unfold imputeNamespace, imputedNamespace.
  destruct (negb _); [done|].
  destruct (String.eqb_spec (GetNamespace obj) "") as [Heq|Hne].
  - by rewrite bool_decide_eq_true_2.
  - rewrite bool_decide_eq_false_2 by done. by destruct obj.
Qed.

Lemma imputeNamespace_idempotent obj :
  imputeNamespace namespace infoProvider (imputeNamespace namespace infoProvider obj)
  = imputeNamespace namespace infoProvider obj.
Proof.
  rewrite !imputeNamespace_SetNamespace. unfold imputedNamespace. simpl.
  destruct (negb _); [done|]. unfold GetNamespace. simpl.
  destruct (bool_decide (uNamespace obj = "")) eqn:Hns.
  - by destruct (bool_decide (namespace = "")) eqn:Hn;
      [apply bool_decide_eq_true in Hn as ->|].
  - by rewrite Hns.
Qed.

Lemma elem_of_keptTargets_input order objs obj :
  obj ∈ keptTargets (go_range order (groupTargets namespace infoProvider objs)) ↔
  last (occurrences namespace infoProvider objs (GetResourceKey obj)) = Some obj.
Proof.
  destruct (go_range_groupTargets namespace infoProvider order objs) as [_ Hent].
  rewrite elem_of_keptTargets. split.
  - intros (key & targets & [-> _]%Hent & Hlast).
    assert (GetResourceKey obj = key) as ->; [|done].
    apply last_Some_elem_of in Hlast. unfold occurrences in Hlast.
    by apply list_elem_of_filter in Hlast as [? _].
  - intros Hlast. eexists _, _. split; [|exact Hlast].
    apply Hent. split; [done|]. intros Hnil. by rewrite Hnil in Hlast.
Qed.

Lemma keptTargets_input order objs obj :
  obj ∈ keptTargets (go_range order (groupTargets namespace infoProvider objs)) →
  obj ∈ imputeNamespace namespace infoProvider <$> objs.
Proof.
  intros Hlast%elem_of_keptTargets_input. apply last_Some_elem_of in Hlast.
  unfold occurrences in Hlast. by apply list_elem_of_filter in Hlast as [_ ?].
Qed.

(** X5. Every object [DeduplicateTargetObjects] returns is one of its
    input objects in which nothing but the namespace may have changed: the
    namespace is empty for a kind that is not namespaced, the given namespace
    for an object of a namespaced kind that had none, and the one of the
    object otherwise.  It never returns more objects than it was given. *)
Theorem DeduplicateTargetObjects_normalizes (order : MapOrder) (clock : nat → Time)
    (objs : list Unstructured) :
  ∃ result conds,
    DeduplicateTargetObjects order clock namespace objs infoProvider
      = Done (result, conds, None) ∧
    (∀ obj, obj ∈ result →
       ∃ obj0, obj0 ∈ objs ∧
         obj = SetNamespace obj0 (GetNamespace obj) ∧
         GetNamespace obj
         = if negb (IsNamespaced infoProvider (GVK_GroupKind (GroupVersionKind_of obj0))).1
           then ""
           else if bool_decide (GetNamespace obj0 = "") then namespace
           else GetNamespace obj0) ∧
    (length result ≤ length objs)%nat.
Proof.
  eexists _, _. split; [apply DeduplicateTargetObjects_run|]. split.
  - intros obj (obj0 & -> & Hin)%keptTargets_input%list_elem_of_fmap.
    exists obj0. split; [done|].
    rewrite imputeNamespace_SetNamespace. by split.
  - set (entries := go_range order (groupTargets namespace infoProvider objs)).
    destruct (go_range_groupTargets namespace infoProvider order objs) as [Hnodup Hent].
    fold entries in Hnodup, Hent.
    assert (Hkeys : GetResourceKey <$> keptTargets entries = entries.*1).
    { apply (keptTargets_keys namespace infoProvider entries objs).
      intros key targets Hin. by apply Hent. }
    rewrite <- (length_fmap GetResourceKey (keptTargets entries)), Hkeys.
    rewrite <- (length_fmap (imputeNamespace namespace infoProvider) objs).
    rewrite <- (length_fmap GetResourceKey (imputeNamespace namespace infoProvider <$> objs)).
    apply submseteq_length, NoDup_submseteq; [done|].
    intros key ([k targets] & -> & Hin)%list_elem_of_fmap. simpl.
    apply Hent in Hin as [-> Hne].
    destruct (occurrences namespace infoProvider objs k) as [|o os] eqn:Hocc; [done|].
    assert (Ho : o ∈ occurrences namespace infoProvider objs k) by (rewrite Hocc; left).
    unfold occurrences in Ho. apply list_elem_of_filter in Ho as [<- Ho].
    apply list_elem_of_fmap. by exists o.
Qed.

Lemma filter_key_absent (l : list Unstructured) key :
  key ∉ GetResourceKey <$> l → filter (fun o => GetResourceKey o = key) l = [].
Proof.
  induction l as [|x l IH]; intros Hnot; [done|].
  rewrite fmap_cons in Hnot. apply not_elem_of_cons in Hnot as [Hx Hl].
  rewrite filter_cons_False by done. by apply IH.
Qed.

Lemma filter_key_NoDup (l : list Unstructured) obj :
  NoDup (GetResourceKey <$> l) → obj ∈ l →
  filter (fun o => GetResourceKey o = GetResourceKey obj) l = [obj].
Proof.
  induction l as [|x l IH]; intros Hnd Hin; [by apply elem_of_nil in Hin|].
  rewrite fmap_cons in Hnd. apply NoDup_cons in Hnd as [Hx Hnd].
  apply elem_of_cons in Hin as [->|Hin].
  - rewrite filter_cons_True by done. f_equal. by apply filter_key_absent.
  - rewrite filter_cons_False; [by apply IH|].
    intros Hkey. apply Hx. rewrite Hkey. apply list_elem_of_fmap. by exists obj.
Qed.

Lemma repeatedConditions_nil (clock : nat → Time) i
    (entries : list (ResourceKey * list Unstructured)) :
  Forall (fun e => (length e.2 ≤ 1)%nat) entries → repeatedConditions clock i entries = [].
Proof.
  intros Hall. revert i. induction Hall as [|[key targets] entries Hlen _ IH]; intros i; [done|].
  simpl in *. rewrite IH. rewrite bool_decide_eq_false_2 by lia. done.
Qed.

Lemma keptTargets_no_duplicates (order : MapOrder) (objs : list Unstructured) :
  NoDup (GetResourceKey <$> (imputeNamespace namespace infoProvider <$> objs)) →
  (∀ clock i,
     repeatedConditions clock i (go_range order (groupTargets namespace infoProvider objs))
     = []) ∧
  keptTargets (go_range order (groupTargets namespace infoProvider objs))
  ≡ₚ imputeNamespace namespace infoProvider <$> objs.
Proof.
  intros Hnd.
  set (imputed := imputeNamespace namespace infoProvider <$> objs) in *.
  set (entries := go_range order (groupTargets namespace infoProvider objs)).
  destruct (go_range_groupTargets namespace infoProvider order objs) as [Hnodup Hent].
  fold entries in Hnodup, Hent.
  assert (Hkeys : GetResourceKey <$> keptTargets entries = entries.*1).
  { apply (keptTargets_keys namespace infoProvider entries objs).
    intros key targets Hin. by apply Hent. }
  assert (Hocc : ∀ obj, obj ∈ imputed →
            occurrences namespace infoProvider objs (GetResourceKey obj) = [obj]).
  { intros obj Hin. by apply filter_key_NoDup. }
  split.
  - intros clock i. apply repeatedConditions_nil.
    apply Forall_forall. intros [key targets] [-> Hne]%Hent. simpl.
    destruct (occurrences namespace infoProvider objs key) as [|o os] eqn:Ho; [done|].
    assert (Hin : o ∈ occurrences namespace infoProvider objs key) by (rewrite Ho; left).
    unfold occurrences in Hin. apply list_elem_of_filter in Hin as [<- Hin].
    rewrite (Hocc o Hin) in Ho. by injection Ho as <-.
  - apply NoDup_Permutation.
    + eapply NoDup_fmap_1. by rewrite Hkeys.
    + by eapply NoDup_fmap_1.
    + intros obj. unfold entries. rewrite elem_of_keptTargets_input. split.
      * intros Hlast%last_Some_elem_of. unfold occurrences in Hlast.
        by apply list_elem_of_filter in Hlast as [_ ?].
      * intros Hin. by rewrite (Hocc obj Hin).
Qed.


(** X6. When no two input objects have the same key once their
    namespaces are set, [DeduplicateTargetObjects] returns all of them, each
    with its namespace set, in some order, and emits no condition. *)
Theorem DeduplicateTargetObjects_no_duplicates (order : MapOrder) (clock : nat → Time)
    (objs : list Unstructured) :
  NoDup (GetResourceKey <$> (imputeNamespace namespace infoProvider <$> objs)) →
  ∃ result,
    DeduplicateTargetObjects order clock namespace objs infoProvider
      = Done (result, [], None) ∧
    result ≡ₚ imputeNamespace namespace infoProvider <$> objs.
Proof.
  intros Hnd. destruct (keptTargets_no_duplicates order objs Hnd) as [Hconds Hperm].
  eexists. split; [|exact Hperm].
  rewrite DeduplicateTargetObjects_run. cbv zeta. by rewrite Hconds.
Qed.

(** X7. Deduplicating what [DeduplicateTargetObjects] returned gives
    the same objects again, in some order, and no condition: its output has
    no two objects of one key and carries the namespaces it would set. *)
Theorem DeduplicateTargetObjects_idempotent (order1 order2 : MapOrder)
    (clock1 clock2 : nat → Time) (objs : list Unstructured) :
  ∃ result conds result',
    DeduplicateTargetObjects order1 clock1 namespace objs infoProvider
      = Done (result, conds, None) ∧
    DeduplicateTargetObjects order2 clock2 namespace result infoProvider
      = Done (result', [], None) ∧
    result' ≡ₚ result.
Proof.
  set (entries := go_range order1 (groupTargets namespace infoProvider objs)).
  destruct (go_range_groupTargets namespace infoProvider order1 objs) as [Hnodup Hent].
  fold entries in Hnodup, Hent.
  assert (Hkeys : GetResourceKey <$> keptTargets entries = entries.*1).
  { apply (keptTargets_keys namespace infoProvider entries objs).
    intros key targets Hin. by apply Hent. }
  assert (Hfix : imputeNamespace namespace infoProvider <$> keptTargets entries
                 = keptTargets entries).
  { rewrite <- (list_fmap_id (keptTargets entries)) at 2.
    apply Forall_fmap_ext_1, Forall_forall. intros obj Hin. simpl.
    apply (keptTargets_input order1) in Hin.
    apply list_elem_of_fmap in Hin as (obj0 & -> & _).
    apply imputeNamespace_idempotent. }
  destruct (keptTargets_no_duplicates order2 (keptTargets entries)) as [Hconds Hperm].
  { rewrite Hfix, Hkeys. done. }
  eexists (keptTargets entries), _, _. split; [apply DeduplicateTargetObjects_run|].
  split; [|by rewrite Hfix in Hperm].
  rewrite DeduplicateTargetObjects_run. cbv zeta. by rewrite Hconds.
Qed.

End dedup_more.

Lemma DeduplicateTargetObjects_no_duplicates_witness :
  ∃ result,
    DeduplicateTargetObjects revOrder (fun _ => 0%Z) "n" [Fake.cmA; Fake.cmB; Fake.web]
      Fake.clusterCache = Done (result, [], None) ∧
    result ≡ₚ imputeNamespace "n" Fake.clusterCache <$> [Fake.cmA; Fake.cmB; Fake.web].
Proof.
  apply (DeduplicateTargetObjects_no_duplicates "n" Fake.clusterCache revOrder
           (fun _ => 0%Z) [Fake.cmA; Fake.cmB; Fake.web]).
  apply (bool_decide_unpack _). vm_compute. exact I.
Defined.

(** X8. When the cluster cache of the destination cannot be had,
    the pass deduplicates with the stub provider, for which no kind is
    namespaced: every target object leaves the step with an empty namespace,
    whatever namespace its manifest or the application names, and no
    [ComparisonError] is recorded for it. *)
Theorem dedupStep_without_cluster_cache (rt : Runtime) (m : appStateManager)
    (app : Application) (now : Time) (targetObjs : list Unstructured)
    (conditions : list ApplicationCondition) (err : error) :
  GetClusterCache (liveStateCache m) (Server (Destination (Spec app))) = inr err →
  ∃ targets dedupConditions,
    dedupStep rt app (clusterInfoProvider m app) now targetObjs conditions
      = Done (targets, conditions ++ dedupConditions) ∧
    Forall (fun obj => GetNamespace obj = "") targets ∧
    Forall (fun c => Type_ c = ApplicationConditionRepeatedResourceWarning) dedupConditions.
Proof.
  intros Hcache. unfold clusterInfoProvider, dedupStep. rewrite Hcache.
  rewrite DeduplicateTargetObjects_run. simpl. eexists _, _. split; [done|]. split.
  - apply Forall_forall. intros obj Hin.
    apply keptTargets_input, list_elem_of_fmap in Hin as (obj0 & -> & _).
    by rewrite imputeNamespace_SetNamespace.
  - apply Forall_forall. intros c Hin.
    apply elem_of_repeatedConditions in Hin. by destruct Hin as (? & ? & ? & _ & _ & ->).
Qed.

Lemma dedupStep_without_cluster_cache_witness :
  ∃ targets dedupConditions,
    dedupStep (Fake.runtime idOrder) Fake.app
      (clusterInfoProvider managerWithoutClusterCache Fake.app) 0%Z [Fake.web; Fake.cmA] []
      = Done (targets, [] ++ dedupConditions) ∧
    Forall (fun obj => GetNamespace obj = "") targets ∧
    Forall (fun c => Type_ c = ApplicationConditionRepeatedResourceWarning) dedupConditions.
Proof.
  apply (dedupStep_without_cluster_cache (Fake.runtime idOrder) managerWithoutClusterCache
           Fake.app 0%Z [Fake.web; Fake.cmA] [] "cluster cache not ready").
  reflexivity.
Defined.

(** ** More on the status loop and the result of a pass *)

Section pass_facts.
Context (P : Packages) (m : appStateManager) (app : Application) (project : AppProject).

(** The two arrays of the loop name the same resources, index by index,
    with the prune flag of a summary that of its slot. *)
Let aligned (st : loopState) : Prop :=
  length (st_resourceSummaries st) = length (st_managedResources st) ∧
  ∀ j rs mr,
    st_resourceSummaries st !! j = Some rs → st_managedResources st !! j = Some mr →
    sameResource rs mr ∧
    rs_RequiresPruning rs = isNil (mr_Target mr) && negb (isNil (mr_Live mr)).

Lemma aligned_initial n : aligned (initialLoopState n).
Proof.
  split; simpl; [by rewrite !length_replicate|].
  intros j rs mr [-> _]%lookup_replicate [-> _]%lookup_replicate. done.
Qed.

Lemma slotBody_aligned failed (d : DiffResultList) i t l st st' :
  slotBody P m app project failed d i t l st = Done st' → aligned st → aligned st'.
Proof.
  unfold slotBody. destruct (slotObject t l) as [obj|]; [|by intros [= <-]].
  destruct (Diffs d !! i) as [diffResult|]; [|done].
  destruct (syncClassify _ _ _ _ _ _ _) as [status syncCode].
  intros [= <-] [Hlen Hall]. split; simpl; [by rewrite !length_insert|].
  intros j rs mr Hrs Hmr. destruct (decide (j = i)) as [->|Hne].
  - apply list_lookup_insert_Some in Hrs as [(_ & <- & _)|[? _]]; [|done].
    apply list_lookup_insert_Some in Hmr as [(_ & <- & _)|[? _]]; [|done].
    done.
  - rewrite list_lookup_insert_ne in Hrs by done.
    rewrite list_lookup_insert_ne in Hmr by done. by apply (Hall j).
Qed.

Lemma statusLoop_aligned failed (d : DiffResultList) lives i ts st st' :
  statusLoop P m app project failed d lives i ts st = Done st' → aligned st → aligned st'.
Proof.
  revert i st. induction ts as [|t ts IH]; intros i st; simpl; [by intros [= <-]|].
  destruct (lives !! i) as [l|]; [|done].
  destruct (slotBody P m app project failed d i t l st) as [st1|] eqn:Hbody; [|done].
  simpl. intros Hloop Hst. eapply IH; [done|]. by eapply slotBody_aligned.
Qed.

(** What the loop has written of the managed resources and of [syncCode]
    when it is about to run index [i]: the first [i] entries are those of the
    slots, the others are still the zero value, and [syncCode] is
    [OutOfSync] exactly when one of the first [i] counts. *)
Let written (rec : ReconciliationResult) (d : DiffResultList) (i : nat) (st : loopState)
    : Prop :=
  length (st_managedResources st) = length (rr_Target rec) ∧
  (∀ j, (i ≤ j)%nat → j < length (rr_Target rec) →
     st_managedResources st !! j = Some zeroManagedResource) ∧
  (∀ j mr, j < i → st_managedResources st !! j = Some mr →
     (mr = zeroManagedResource ∧ ∃ t l, rr_Target rec !! j = Some t ∧
        rr_Live rec !! j = Some l ∧ slotObject t l = None) ∨
     (rr_Target rec !! j = Some (mr_Target mr) ∧ rr_Live rec !! j = Some (mr_Live mr) ∧
      Diffs d !! j = Some (mr_Diff mr) ∧ is_Some (slotObject (mr_Target mr) (mr_Live mr)))) ∧
  st_syncCode st
  = if existsb (managedOutOfSync P) (take i (st_managedResources st))
    then SyncStatusCodeOutOfSync else SyncStatusCodeSynced.

Lemma written_initial rec d : written rec d 0 (initialLoopState (length (rr_Target rec))).
Proof.
  split; [by simpl; rewrite length_replicate|]. split; [|split].
  - intros j _ Hj. simpl. by apply lookup_replicate.
  - intros j mr Hj. lia.
  - by rewrite take_0.
Qed.

Lemma syncClassify_counts c t l obj d :
  slotObject t l = Some obj →
  (syncClassify P c t l obj (hookutil_IsHook P obj) d).2
  = if countsOutOfSync P t l d then SyncStatusCodeOutOfSync else c.
Proof.
  intros Hobj. unfold syncClassify, countsOutOfSync. rewrite Hobj.
  destruct (hookutil_IsHook P obj || ignore_Ignore P obj); [done|].
  destruct (Modified d || isNil t || isNil l); [|done]. simpl.
  by destruct (isNil t && negb (isNil l) && _).
Qed.

Lemma slotBody_written failed rec (d : DiffResultList) i t l st st' :
  slotBody P m app project failed d i t l st = Done st' →
  rr_Target rec !! i = Some t → rr_Live rec !! i = Some l →
  written rec d i st → written rec d (S i) st'.
Proof.
  intros Hbody Ht Hl (Hlen & Hzero & Hdone & Hsync).
  assert (Hi : i < length (rr_Target rec)) by (by eapply lookup_lt_Some).
  unfold slotBody in Hbody. destruct (slotObject t l) as [obj|] eqn:Hobj.
  - destruct (Diffs d !! i) as [diffResult|] eqn:Hdiff; [|done].
    destruct (syncClassify _ _ _ _ _ _ _) as [status syncCode] eqn:Hclass.
    injection Hbody as <-. unfold written. simpl.
    split; [by rewrite length_insert|]. split; [|split].
    + intros j Hj Hjn. rewrite list_lookup_insert_ne by lia. apply Hzero; lia.
    + intros j mr Hj Hmr. destruct (decide (j = i)) as [->|Hne].
      * apply list_lookup_insert_Some in Hmr as [(_ & <- & _)|[? _]]; [|done].
        right. simpl. by rewrite Hobj.
      * rewrite list_lookup_insert_ne in Hmr by done. apply Hdone; [lia|done].
    + erewrite take_S_r by (apply list_lookup_insert_eq; lia).
      rewrite take_insert_ge by lia. rewrite existsb_app. simpl. rewrite orb_false_r.
      unfold managedOutOfSync at 2. simpl.
      pose proof (syncClassify_counts (st_syncCode st) t l obj diffResult Hobj) as Hc.
      rewrite Hclass in Hc. simpl in Hc. rewrite Hc, Hsync.
      by destruct (existsb _ _), (countsOutOfSync P t l diffResult).
  - injection Hbody as <-. split; [done|]. split; [|split].
    + intros j Hj Hjn. apply Hzero; lia.
    + intros j mr Hj Hmr. destruct (decide (j = i)) as [->|Hne].
      * rewrite Hzero in Hmr by lia. injection Hmr as <-. left. split; [done|].
        by exists t, l.
      * apply Hdone; [lia|done].
    + rewrite (take_S_r _ _ zeroManagedResource) by (apply Hzero; lia).
      rewrite existsb_app. simpl. by rewrite orb_false_r.
Qed.

Lemma statusLoop_written failed rec (d : DiffResultList) i ts st st' :
  statusLoop P m app project failed d (rr_Live rec) i ts st = Done st' →
  drop i (rr_Target rec) = ts →
  written rec d i st → written rec d (length (rr_Target rec)) st'.
Proof.
  revert i st. induction ts as [|t ts IH]; intros i st; simpl.
  - intros [= <-] Hdrop Hst.
    assert (length (rr_Target rec) ≤ i)%nat as Hle.
    { apply (f_equal length) in Hdrop. rewrite length_drop in Hdrop. simpl in Hdrop. lia. }
    destruct Hst as (Hlen & Hzero & Hdone & Hsync). split; [done|]. split; [|split].
    + intros j Hj Hjn. apply Hzero; lia.
    + intros j mr Hj. apply Hdone. lia.
    + rewrite Hsync. rewrite !take_ge by lia. done.
  - destruct (rr_Live rec !! i) as [l|] eqn:Hl; [|done].
    destruct (slotBody P m app project failed d i t l st) as [st1|] eqn:Hbody; [|done].
    simpl. intros Hloop Hdrop Hst.
    assert (Ht : rr_Target rec !! i = Some t).
    { rewrite <- (Nat.add_0_r i), <- lookup_drop, Hdrop. done. }
    apply (IH (S i) st1); [done| |by eapply slotBody_written].
    rewrite (drop_S _ _ _ Ht) in Hdrop. by injection Hdrop.
Qed.

Lemma compareStatuses_written failed rec (d : DiffResultList) st :
  compareStatuses P m app project failed rec d = Done st →
  aligned st ∧
  length (st_managedResources st) = length (rr_Target rec) ∧
  (∀ j mr, st_managedResources st !! j = Some mr →
     (mr = zeroManagedResource ∧ ∃ t l, rr_Target rec !! j = Some t ∧
        rr_Live rec !! j = Some l ∧ slotObject t l = None) ∨
     (rr_Target rec !! j = Some (mr_Target mr) ∧ rr_Live rec !! j = Some (mr_Live mr) ∧
      Diffs d !! j = Some (mr_Diff mr) ∧ is_Some (slotObject (mr_Target mr) (mr_Live mr)))) ∧
  st_syncCode st
  = if failed then SyncStatusCodeUnknown
    else if existsb (managedOutOfSync P) (st_managedResources st)
    then SyncStatusCodeOutOfSync else SyncStatusCodeSynced.
Proof.
  unfold compareStatuses.
  destruct (statusLoop _ _ _ _ _ _ _ _ _ _) as [st0|] eqn:Hloop; [|done].
  simpl. intros [= <-]. simpl.
  pose proof (statusLoop_aligned _ _ _ _ _ _ _ Hloop (aligned_initial _)) as Hal.
  apply (statusLoop_written failed rec) in Hloop as (Hlen & _ & Hdone & Hsync);
    [|done|apply written_initial].
  split; [done|]. split; [done|]. split.
  - intros j mr Hmr. apply Hdone; [|done]. rewrite <- Hlen. by eapply lookup_lt_Some.
  - destruct failed; [done|]. rewrite Hsync. by rewrite take_ge by lia.
Qed.

End pass_facts.

(** *** The pass, end to end *)



Lemma writeHealth_fields written i rs :
  rs_Group (writeHealth written i rs) = rs_Group rs ∧
  rs_Version (writeHealth written i rs) = rs_Version rs ∧
  rs_Kind (writeHealth written i rs) = rs_Kind rs ∧
  rs_Namespace (writeHealth written i rs) = rs_Namespace rs ∧
  rs_Name (writeHealth written i rs) = rs_Name rs ∧
  rs_Hook (writeHealth written i rs) = rs_Hook rs ∧
  rs_RequiresPruning (writeHealth written i rs) = rs_RequiresPruning rs.
Proof. unfold writeHealth. by destruct (written !! i) as [[h|]|]. Qed.

(** What a pass that got past the settings is made of. *)
Lemma CompareAppState_Done (P : Packages) (rt : Runtime) (m : appStateManager)
    (app : Application) (project : AppProject) (revision : string)
    (source : ApplicationSource) (noCache : bool) (localManifests : list string)
    (compRes : comparisonResult) (conds : list ApplicationCondition) :
  CompareAppState P rt m app project revision source noCache localManifests
    = Done (compRes, Some conds) →
  ∃ appLabelKey overrides normalizer L st written added,
    getComparisonSettings P m app = inl (appLabelKey, overrides, normalizer) ∧
    comparePrepare P rt m app project revision source noCache localManifests
      appLabelKey normalizer = Done L ∧
    compareStatuses P m app project (failedToLoadObjs L) (reconciliation L) (diffResults L)
      = Done st ∧
    resources compRes = imap (writeHealth written) (st_resourceSummaries st) ∧
    managedResources compRes = st_managedResources st ∧
    reconciliationResult compRes = reconciliation L ∧
    syncStatus compRes
      = Some {| ss_ComparedTo := {| ct_Source := source;
                                    ct_Destination := Destination (Spec app) |};
                ss_Status := st_syncCode st;
                ss_Revision := default "" (mi_Revision <$> manifestInfo L) |} ∧
    appSourceType compRes = default "" (SourceType <$> manifestInfo L) ∧
    conds = conditions L ++ added.
Proof.
  unfold CompareAppState.
  destruct (getComparisonSettings P m app) as [[[appLabelKey overrides] normalizer]|e]; [|done].
  destruct (comparePrepare _ _ _ _ _ _ _ _ _ _ _) as [L|why] eqn:Hprep; [|done].
  simpl. unfold compareFinish.
  destruct (compareStatuses _ _ _ _ _ _ _) as [st|why] eqn:Hst; [|done]. simpl.
  destruct (argohealth_SetApplicationHealth _ _ _ _ _) as [[written health] herr].
  simpl. intros [= <- <-]. simpl.
  exists appLabelKey, overrides, normalizer, L, st, written.
  eexists (match herr with Some e => [comparisonError e (passNow rt)] | None => [] end).
  do 6 (split; [done|]). split; [by destruct (manifestInfo L)|].
  split; [by destruct (manifestInfo L)|].
  destruct herr; [done|by rewrite app_nil_r].
Qed.

(** X9. In the result of a pass the summaries, the managed
    resources and the slots of the reconciliation line up: the three have the
    same length, and at every index the managed resource holds the target and
    the live object of the slot, the summary names the same group, version,
    kind, namespace, name and hook flag as the managed resource, and the
    summary requires pruning exactly when the slot has a live object and no
    target. *)
Theorem CompareAppState_slots_line_up (P : Packages) (rt : Runtime) (m : appStateManager)
    (app : Application) (project : AppProject) (revision : string)
    (source : ApplicationSource) (noCache : bool) (localManifests : list string)
    (compRes : comparisonResult) (conds : option (list ApplicationCondition)) :
  CompareAppState P rt m app project revision source noCache localManifests
    = Done (compRes, conds) →
  let rec := reconciliationResult compRes in
  length (resources compRes) = length (rr_Target rec) ∧
  length (managedResources compRes) = length (rr_Target rec) ∧
  ∀ j rs mr,
    resources compRes !! j = Some rs → managedResources compRes !! j = Some mr →
    rr_Target rec !! j = Some (mr_Target mr) ∧
    rr_Live rec !! j = Some (mr_Live mr) ∧
    sameResource rs mr ∧
    rs_RequiresPruning rs = isNil (mr_Target mr) && negb (isNil (mr_Live mr)).
Proof.
  destruct conds as [conds|].
  - intros (appLabelKey & overrides & normalizer & L & st & written & added & _ & _ & Hst
            & -> & -> & -> & _)%CompareAppState_Done. simpl.
    apply compareStatuses_written in Hst as ([Hlen Hall] & Hn & Hslots & _).
    rewrite length_imap. split; [congruence|]. split; [done|].
    intros j rs mr Hrs Hmr. rewrite list_lookup_imap in Hrs.
    destruct (st_resourceSummaries st !! j) as [rs0|] eqn:Hrs0; [|done].
    injection Hrs as <-.
    destruct (Hall j rs0 mr Hrs0 Hmr) as [Hsame Hprune].
    destruct (writeHealth_fields written j rs0) as (Hg & Hv & Hk & Hns & Hname & Hhook & Hp).
    assert (rr_Target (reconciliation L) !! j = Some (mr_Target mr) ∧
            rr_Live (reconciliation L) !! j = Some (mr_Live mr)) as [Ht Hl].
    { destruct (Hslots j mr Hmr) as [[-> (t & l & Ht & Hl & Hnone)]|(Ht & Hl & _)]; [|done].
      destruct l; [done|]. simpl in Hnone. by subst t. }
    do 2 (split; [done|]). split; [|congruence].
    unfold sameResource in *. rewrite Hg, Hv, Hk, Hns, Hname, Hhook. done.
  - unfold CompareAppState.
    destruct (getComparisonSettings P m app) as [[[appLabelKey overrides] normalizer]|e].
    + destruct (comparePrepare _ _ _ _ _ _ _ _ _ _ _) as [L|]; [|done]. simpl.
      destruct (compareFinish _ _ _ _ _ _ _ _ _) as [[? ?]|]; done.
    + intros [= <-]. simpl. split; [done|]. split; [done|].
      intros j rs mr Hrs. by rewrite lookup_nil in Hrs.
Qed.



(** X14. The result of a pass always names the source and the
    destination it compared to.  Over local manifests the repository server is
    not asked: the result carries no revision and no source type. *)
Theorem CompareAppState_compared_to (P : Packages) (rt : Runtime) (m : appStateManager)
    (app : Application) (project : AppProject) (revision : string)
    (source : ApplicationSource) (noCache : bool) (localManifests : list string)
    (compRes : comparisonResult) (conds : option (list ApplicationCondition)) :
  CompareAppState P rt m app project revision source noCache localManifests
    = Done (compRes, conds) →
  ∃ ss, syncStatus compRes = Some ss ∧
    ss_ComparedTo ss = {| ct_Source := source; ct_Destination := Destination (Spec app) |} ∧
    (localManifests ≠ [] → ss_Revision ss = "" ∧ appSourceType compRes = "").
Proof.
  destruct conds as [conds|].
  - intros (appLabelKey & overrides & normalizer & L & st & written & added & _ & Hprep & _
            & _ & _ & _ & -> & -> & _)%CompareAppState_Done.
    eexists. split; [done|]. split; [done|]. simpl. intros Hlocal.
    assert (manifestInfo L = None) as ->; [|done].
    unfold comparePrepare in Hprep.
    destruct (loadTargets _ _ _ _ _ _ _ _ _) as [[[targetObjs info] conds0] failed] eqn:Hload.
    assert (info = None) as ->.
    { unfold loadTargets in Hload. rewrite bool_decide_eq_false_2 in Hload
        by (by destruct localManifests).
      destruct (unmarshalManifests _ _); by injection Hload as <- <- <- <-. }
    destruct (dedupStep _ _ _ _ _ _) as [[? ?]|]; [|done]. simpl in Hprep.
    destruct (excludeStep _ _ _ _ _) as [[? ?]|]; [|done]. simpl in Hprep.
    destruct (GetManagedLiveObjs _ _ _); destruct (diff_DiffArray _ _ _ _);
      by injection Hprep as <-.
  - unfold CompareAppState.
    destruct (getComparisonSettings P m app) as [[[appLabelKey overrides] normalizer]|e].
    + destruct (comparePrepare _ _ _ _ _ _ _ _ _ _ _) as [L|]; [|done]. simpl.
      destruct (compareFinish _ _ _ _ _ _ _ _ _) as [[? ?]|]; done.
    + intros [= <-]. eexists. by split.
Qed.

Lemma CompareAppState_slots_line_up_witness :
  let rec := reconciliationResult syncedOutcome.1 in
  length (resources syncedOutcome.1) = length (rr_Target rec) ∧
  length (managedResources syncedOutcome.1) = length (rr_Target rec) ∧
  ∀ j rs mr,
    resources syncedOutcome.1 !! j = Some rs →
    managedResources syncedOutcome.1 !! j = Some mr →
    rr_Target rec !! j = Some (mr_Target mr) ∧
    rr_Live rec !! j = Some (mr_Live mr) ∧
    sameResource rs mr ∧
    rs_RequiresPruning rs = isNil (mr_Target mr) && negb (isNil (mr_Live mr)).
Proof.
  apply (CompareAppState_slots_line_up (Fake.packages idOrder false) (Fake.runtime idOrder)
           (Fake.manager (inl ∅) ["web.yaml"]
              (inl {[ GetResourceKey Fake.web := Some Fake.web ]}))
           Fake.app Fake.project "" Fake.source false [] syncedOutcome.1
           (Some syncedOutcome.2)).
  vm_compute. reflexivity.
Defined.



Lemma CompareAppState_compared_to_witness :
  ∃ ss, syncStatus localOutcome.1 = Some ss ∧
    ss_ComparedTo ss
      = {| ct_Source := Fake.source; ct_Destination := Destination (Spec Fake.app) |} ∧
    (["a.yaml"; "b.yaml"] ≠ [] → ss_Revision ss = "" ∧ appSourceType localOutcome.1 = "").
Proof.
  apply (CompareAppState_compared_to (Fake.packages idOrder false) (Fake.runtime idOrder)
           (Fake.manager (inl ∅) ["web.yaml"] (inl ∅))
           Fake.app Fake.project "" Fake.source false ["a.yaml"; "b.yaml"] localOutcome.1
           (Some localOutcome.2)).
  vm_compute. reflexivity.
Defined.

Lemma getRepoObjs_empty_revision (P : Packages) (m : appStateManager) (app : Application)
    (source : ApplicationSource) (appLabelKey : string) (noCache : bool) :
  getRepoObjs P m app source appLabelKey "" noCache
  = getRepoObjs P m app source appLabelKey (TargetRevision source) noCache.
Proof.
  unfold getRepoObjs. rewrite bool_decide_eq_true_2 by done.
  by case_bool_decide as Heq; [rewrite Heq|].
Qed.

(** X15. A pass asked for the empty revision is the pass asked for
    the target revision of the source: [getRepoObjs] replaces the one by the
    other before it asks the repository server, and nothing else reads the
    revision. *)
Theorem CompareAppState_empty_revision (P : Packages) (rt : Runtime) (m : appStateManager)
    (app : Application) (project : AppProject) (source : ApplicationSource)
    (noCache : bool) (localManifests : list string) :
  CompareAppState P rt m app project "" source noCache localManifests
  = CompareAppState P rt m app project (TargetRevision source) source noCache localManifests.
Proof.
  unfold CompareAppState, comparePrepare, loadTargets.
  destruct (getComparisonSettings P m app) as [[[appLabelKey overrides] normalizer]|e]; [|done].
  by rewrite getRepoObjs_empty_revision.
Qed.

Lemma statusLoop_manager (P : Packages) (m' m : appStateManager) (app : Application)
    (project : AppProject) failed (d : DiffResultList) lives i ts st :
  liveStateCache m' = liveStateCache m →
  statusLoop P m' app project failed d lives i ts st
  = statusLoop P m app project failed d lives i ts st.
Proof.
  intros Hcache. revert i st. induction ts as [|t ts IH]; intros i st; simpl; [done|].
  destruct (lives !! i) as [l|]; [|done].
  assert (slotBody P m' app project failed d i t l st
          = slotBody P m app project failed d i t l st) as ->.
  { unfold slotBody, overrideStatus, groupKindPermitted. by rewrite Hcache. }
  destruct (slotBody P m app project failed d i t l st); simpl; [apply IH|done].
Qed.

Lemma compareFinish_manager (P : Packages) (rt : Runtime) (m' m : appStateManager)
    (app : Application) (project : AppProject) (source : ApplicationSource)
    overrides normalizer (L : compareLocals) :
  liveStateCache m' = liveStateCache m →
  compareFinish P rt m' app project source overrides normalizer L
  = compareFinish P rt m app project source overrides normalizer L.
Proof.
  intros Hcache. unfold compareFinish, compareStatuses.
  by rewrite (statusLoop_manager P m' m).
Qed.

(** X16. Over local manifests the pass reads neither the database
    nor the repository server, nor the revision and the no-cache flag: with
    another database, another repository server, another revision and another
    flag it is the same pass. *)
Theorem CompareAppState_local_manifests (P : Packages) (rt : Runtime) (m : appStateManager)
    (app : Application) (project : AppProject) (revision revision' : string)
    (source : ApplicationSource) (noCache noCache' : bool) (localManifests : list string)
    (db' : ArgoDB) (repoClientset' : Clientset) :
  localManifests ≠ [] →
  CompareAppState P rt (withRepository m db' repoClientset') app project revision' source
    noCache' localManifests
  = CompareAppState P rt m app project revision source noCache localManifests.
Proof.
  intros Hlocal.
  assert (Hload : ∀ appLabelKey,
            loadTargets P (withRepository m db' repoClientset') app revision' source noCache'
              localManifests appLabelKey (passNow rt)
            = loadTargets P m app revision source noCache localManifests appLabelKey
                (passNow rt)).
  { intros appLabelKey. unfold loadTargets.
    rewrite bool_decide_eq_false_2 by (by destruct localManifests). done. }
  unfold CompareAppState.
  change (getComparisonSettings P (withRepository m db' repoClientset') app)
    with (getComparisonSettings P m app).
  destruct (getComparisonSettings P m app) as [[[appLabelKey overrides] normalizer]|e]; [|done].
  assert (comparePrepare P rt (withRepository m db' repoClientset') app project revision'
            source noCache' localManifests appLabelKey normalizer
          = comparePrepare P rt m app project revision source noCache localManifests
              appLabelKey normalizer) as ->.
  { unfold comparePrepare. rewrite Hload. reflexivity. }
  destruct (comparePrepare _ _ _ _ _ _ _ _ _ _ _) as [L|]; [|done]. simpl.
  by rewrite (compareFinish_manager P rt (withRepository m db' repoClientset') m).
Qed.

Lemma CompareAppState_local_manifests_witness :
  ["a.yaml"; "b.yaml"] ≠ [] ∧
  CompareAppState (Fake.packages idOrder false) (Fake.runtime idOrder)
    (withRepository (Fake.manager (inl ∅) ["web.yaml"] (inl ∅)) brokenDB brokenRepoClientset)
    Fake.app Fake.project "v2" Fake.source true ["a.yaml"; "b.yaml"]
  = CompareAppState (Fake.packages idOrder false) (Fake.runtime idOrder)
      (Fake.manager (inl ∅) ["web.yaml"] (inl ∅))
      Fake.app Fake.project "" Fake.source false ["a.yaml"; "b.yaml"].
Proof.
  split; [done|].
  apply (CompareAppState_local_manifests (Fake.packages idOrder false) (Fake.runtime idOrder)
           (Fake.manager (inl ∅) ["web.yaml"] (inl ∅)) Fake.app Fake.project "" "v2"
           Fake.source false true ["a.yaml"; "b.yaml"] brokenDB brokenRepoClientset).
  done.
Defined.



(** ** More on WatchWithRetry *)

Module WatchFacts.
Import ITree.ITree ITree.ITreeFacts.
Import Loops WatchShapes.
Import Paco.paco.

(** A run depends on the tree up to strong bisimulation only. *)
Lemma runWatch_eq_itree {R : Type} fuel env (t1 t2 : itree watchE R) :
  eq_itree eq t1 t2 → runWatch fuel env t1 = runWatch fuel env t2.
Proof.
  revert env t1 t2. induction fuel as [|n IH]; intros env t1 t2 Heq; [done|].
  simpl. punfold Heq. red in Heq.
  destruct Heq; try discriminate.
  - by subst.
  - pclearbot. by apply IH.
  - pclearbot. destruct e; simpl.
    + destruct (opens env); [done|]. by rewrite (IH _ _ _ (REL _)).
    + destruct (selects env); [done|]. by rewrite (IH _ _ _ (REL _)).
    + by rewrite (IH _ _ _ (REL _)).
    + by rewrite (IH _ _ _ (REL _)).
    + by rewrite (IH _ _ _ (REL _)).
    + by rewrite (IH _ _ _ (REL _)).
Qed.

Lemma watching_step (w : Watch) :
  eq_itree eq (watching w)
    (Vis (Select w) (fun s =>
       match s with
       | Received event =>
           Vis (Send {| Event := Some event; Error := None |}) (fun _ => Tau (watching w))
       | ResultChanClosed => afterExecute w true
       | CtxDone => afterExecute w false
       end)).
Proof.
  unfold watching, pump at 1. rewrite unfold_iter, !bind_bind.
  unfold ITree.trigger at 1. rewrite bind_vis.
  apply eqit_Vis. intros s. rewrite bind_ret_l.
  destruct s as [event| |].
  - rewrite !bind_bind. unfold ITree.trigger at 1. rewrite bind_vis.
    apply eqit_Vis. intros []. rewrite !bind_ret_l, bind_tau. reflexivity.
  - rewrite !bind_ret_l. reflexivity.
  - rewrite !bind_ret_l. reflexivity.
Qed.

Lemma WatchWithRetry_step :
  eq_itree eq WatchWithRetry
    (Vis GetWatch (fun r =>
       match r with
       | inr err =>
           Vis (Send {| Event := None; Error := Some err |}) (fun _ => ITree.trigger Close)
       | inl w => watching w
       end)).
Proof.
  unfold WatchWithRetry at 1, watchLoop. rewrite unfold_iter.
  unfold watchIteration at 1, execute. rewrite !bind_bind.
  unfold ITree.trigger at 1. rewrite bind_vis.
  apply eqit_Vis. intros r. rewrite bind_ret_l.
  destruct r as [w|err].
  - unfold watching. rewrite !bind_bind.
    eapply eq_itree_clo_bind; [reflexivity|]. intros retry ? <-.
    unfold afterExecute. rewrite !bind_bind.
    eapply eq_itree_clo_bind; [reflexivity|]. intros [] ? <-.
    rewrite !bind_ret_l. destruct retry; simpl.
    + rewrite !bind_bind.
      eapply eq_itree_clo_bind; [reflexivity|]. intros [] ? <-.
      rewrite !bind_ret_l. unfold WatchWithRetry, watchLoop. rewrite bind_tau. reflexivity.
    + rewrite !bind_ret_l. reflexivity.
  - rewrite !bind_ret_l. simpl. rewrite !bind_bind.
    unfold ITree.trigger at 1. rewrite bind_vis.
    apply eqit_Vis. intros []. rewrite !bind_ret_l. reflexivity.
Qed.

Lemma runWatch_watching_received fuel o event sel w :
  runWatch (3 + fuel) {| opens := o; selects := Received event :: sel |} (watching w)
  = let '(tr, res) := runWatch fuel {| opens := o; selects := sel |} (watching w) in
    (DidSelect w (Received event) :: DidSend {| Event := Some event; Error := None |} :: tr,
     res).
Proof.
  rewrite (runWatch_eq_itree _ _ _ _ (watching_step w)).
  destruct (runWatch fuel {| opens := o; selects := sel |} (watching w)) as [tr res] eqn:Hrun.
  simpl. by rewrite Hrun.
Qed.

Lemma runWatch_watching_events fuel o events sel w :
  runWatch (3 * length events + fuel)
    {| opens := o; selects := (Received <$> events) ++ sel |} (watching w)
  = let '(tr, res) := runWatch fuel {| opens := o; selects := sel |} (watching w) in
    (forwarded w events ++ tr, res).
Proof.
  induction events as [|event events IH].
  - simpl. by destruct (runWatch _ _ _).
  - replace (3 * length (event :: events) + fuel)
      with (3 + (3 * length events + fuel)) by (simpl; lia).
    cbn [fmap list_fmap app]. rewrite runWatch_watching_received, IH.
    destruct (runWatch fuel _ (watching w)) as [tr res]. reflexivity.
Qed.

Lemma runWatch_watching_done fuel o sel w :
  runWatch (4 + fuel) {| opens := o; selects := CtxDone :: sel |} (watching w)
  = ([DidSelect w CtxDone; DidStop w; DidClose], Some tt).
Proof.
  rewrite (runWatch_eq_itree _ _ _ _ (watching_step w)). reflexivity.
Qed.

Lemma runWatch_watching_closed fuel o sel w :
  runWatch (4 + fuel) {| opens := o; selects := ResultChanClosed :: sel |} (watching w)
  = let '(tr, res) := runWatch fuel {| opens := o; selects := sel |} WatchWithRetry in
    (DidSelect w ResultChanClosed :: DidStop w :: DidSleep Second :: tr, res).
Proof.
  rewrite (runWatch_eq_itree _ _ _ _ (watching_step w)).
  destruct (runWatch fuel {| opens := o; selects := sel |} WatchWithRetry) as [tr res] eqn:Hrun.
  simpl. by rewrite Hrun.
Qed.

(** X17. Over a watch that [getWatch] opened, the goroutine of
    [WatchWithRetry] sends every event of the result channel on, in order and
    with a nil error; when the context is done it stops the watch, closes the
    channel and returns, without a sleep and without a further call of
    [getWatch]. *)
Theorem WatchWithRetry_forwards_until_done fuel w rest events sel :
  runWatch (3 * length events + 5 + fuel)
    {| opens := inl w :: rest; selects := (Received <$> events) ++ CtxDone :: sel |}
    WatchWithRetry
  = (DidGetWatch (inl w) :: forwarded w events ++ [DidSelect w CtxDone; DidStop w; DidClose],
     Some tt).
Proof.
  rewrite (runWatch_eq_itree _ _ _ _ WatchWithRetry_step).
  replace (3 * length events + 5 + fuel) with (S (3 * length events + (4 + fuel))) by lia.
  cbn [runWatch observe _observe opens selects].
  by rewrite runWatch_watching_events, runWatch_watching_done.
Qed.

(** X18. When the result channel of the watch is closed after some
    events, the goroutine has sent each of them on, stops the watch, sleeps
    one second and starts over with a call of [getWatch]; no item is sent for
    the closing itself. *)
Theorem WatchWithRetry_forwards_until_closed fuel w rest events sel :
  runWatch (3 * length events + 5 + fuel)
    {| opens := inl w :: rest;
       selects := (Received <$> events) ++ ResultChanClosed :: sel |}
    WatchWithRetry
  = let '(tr, res) := runWatch fuel {| opens := rest; selects := sel |} WatchWithRetry in
    (DidGetWatch (inl w)
       :: forwarded w events
       ++ [DidSelect w ResultChanClosed; DidStop w; DidSleep Second] ++ tr, res).
Proof.
  rewrite (runWatch_eq_itree _ _ _ _ WatchWithRetry_step).
  replace (3 * length events + 5 + fuel) with (S (3 * length events + (4 + fuel))) by lia.
  cbn [runWatch observe _observe opens selects].
  rewrite runWatch_watching_events, runWatch_watching_closed.
  by destruct (runWatch _ _ _).
Qed.
End WatchFacts.

(** ** The conditions of a pass *)

Lemma evaluatedCondition_comparisonError err now :
  evaluatedCondition (comparisonError err now).
Proof. split; [|by eexists]. simpl. unfold evaluatedConditionTypes. set_solver. Qed.

Lemma comparePrepare_conditions_evaluated (P : Packages) (rt : Runtime) (m : appStateManager)
    (app : Application) (project : AppProject) (revision : string)
    (source : ApplicationSource) (noCache : bool) (localManifests : list string)
    (appLabelKey : string) (normalizer : Normalizer) (L : compareLocals) :
  comparePrepare P rt m app project revision source noCache localManifests
    appLabelKey normalizer = Done L →
  Forall evaluatedCondition (conditions L).
Proof.
  unfold comparePrepare.
  destruct (loadTargets _ _ _ _ _ _ _ _ _) as [[[targetObjs info] conds] failed] eqn:Hload.
  assert (Hconds : Forall evaluatedCondition conds).
  { unfold loadTargets in Hload. case_bool_decide.
    - destruct (getRepoObjs _ _ _ _ _ _ _) as [[? ?]|e]; injection Hload as <- <- <- <-;
        [done|]. repeat constructor. apply evaluatedCondition_comparisonError.
    - destruct (unmarshalManifests _ _) as [?|e]; injection Hload as <- <- <- <-;
        [done|]. repeat constructor. apply evaluatedCondition_comparisonError. }
  assert (Hrepeated : ∀ clock i entries,
            Forall evaluatedCondition (repeatedConditions clock i entries)).
  { intros clock i entries. apply Forall_forall.
    intros c (key & targets & j & _ & _ & ->)%elem_of_repeatedConditions.
    split; [|by eexists]. simpl. unfold evaluatedConditionTypes. set_solver. }
  assert (Hexcluded : ∀ objs now,
            Forall evaluatedCondition ((fun obj => excludedCondition obj now) <$> objs)).
  { intros objs now. apply Forall_fmap, Forall_forall. intros obj _.
    split; [|by eexists]. simpl. unfold evaluatedConditionTypes. set_solver. }
  assert (Hshared : ∀ now entries,
            Forall evaluatedCondition
              (omap (fun kv : ResourceKey * option Unstructured =>
                       sharedWarningOf app appLabelKey now kv.2) entries)).
  { intros now entries. apply Forall_forall.
    intros c ([key v] & _ & Hc)%list_elem_of_omap. simpl in Hc.
    destruct v as [liveObj|]; [|done]. simpl in Hc.
    destruct (_ && _); [|done]. injection Hc as <-.
    split; [|by eexists]. simpl. unfold evaluatedConditionTypes. set_solver. }
  unfold dedupStep. rewrite DeduplicateTargetObjects_run. simpl.
  unfold excludeStep.
  destruct (GetResourcesFilter (settingsMgr m)) as [resFilter|ferr];
    [rewrite excludeLoop_take by done|]; cbv beta iota zeta; simpl;
    (destruct (GetManagedLiveObjs _ _ _) as [live|lerr]);
    unfold sharedWarnings; rewrite sharedWarnings_fold;
    (destruct (diff_DiffArray _ _ _ _) as [diffs|derr]);
    intros [= <-]; simpl;
    repeat (apply Forall_app; split);
    auto using evaluatedCondition_comparisonError;
    repeat constructor; apply evaluatedCondition_comparisonError.
Qed.

(** X13. Every condition a pass hands to [SetConditions] is of one
    of the four types that it declares there as evaluated, and carries a
    timestamp. *)
Theorem CompareAppState_conditions_evaluated (P : Packages) (rt : Runtime)
    (m : appStateManager) (app : Application) (project : AppProject) (revision : string)
    (source : ApplicationSource) (noCache : bool) (localManifests : list string)
    (compRes : comparisonResult) (conds : list ApplicationCondition) :
  CompareAppState P rt m app project revision source noCache localManifests
    = Done (compRes, Some conds) →
  Forall (fun c => Type_ c ∈ evaluatedConditionTypes ∧ is_Some (LastTransitionTime c)) conds.
Proof.
  unfold CompareAppState.
  destruct (getComparisonSettings P m app) as [[[appLabelKey overrides] normalizer]|e]; [|done].
  destruct (comparePrepare _ _ _ _ _ _ _ _ _ _ _) as [L|why] eqn:Hprep; [|done].
  apply comparePrepare_conditions_evaluated in Hprep.
  simpl. unfold compareFinish.
  destruct (compareStatuses _ _ _ _ _ _ _) as [st|why]; [|done]. simpl.
  destruct (argohealth_SetApplicationHealth _ _ _ _ _) as [[written health] herr].
  simpl. intros [= _ <-]. destruct herr; [|done].
  apply Forall_app. split; [done|]. repeat constructor.
  apply evaluatedCondition_comparisonError.
Qed.

Lemma CompareAppState_conditions_evaluated_witness :
  Forall (fun c => Type_ c ∈ evaluatedConditionTypes ∧ is_Some (LastTransitionTime c))
    unknownOutcome.2.
Proof.
  apply (CompareAppState_conditions_evaluated (Fake.packages idOrder false)
           (Fake.runtime idOrder)
           (Fake.manager (inl ∅) ["web.yaml"] (inr "cluster cache not ready"))
           Fake.app Fake.project "" Fake.source false [] unknownOutcome.1 unknownOutcome.2).
  vm_compute. reflexivity.
Defined.

(** ** The kubeconfig of a rest.Config *)

(** X19. [newAuthInfo] copies the certificate, the key, the user
    name, the password, the bearer token and the exec provider of the
    configuration as they are, set or not, and sets the token file to the
    path of the service account token exactly when the configuration carries
    none of them. *)
Theorem newAuthInfo_credentials (restConfig : RestConfig) :
  newAuthInfo restConfig
  = {| ClientCertificate := CertFile (rc_TLSClientConfig restConfig);
       ClientCertificateData := CertData (rc_TLSClientConfig restConfig);
       ClientKey := KeyFile (rc_TLSClientConfig restConfig);
       ClientKeyData := KeyData (rc_TLSClientConfig restConfig);
       Token := BearerToken restConfig;
       TokenFile := if carriesCredentials restConfig then "" else inClusterTokenFile;
       ai_Username := Username restConfig;
       ai_Password := Password restConfig;
       Exec := ExecProvider restConfig |}.
Proof.
  destruct restConfig as [host user pass token provider
                            [insecure certFile keyFile caFile certData keyData caData]].
  unfold newAuthInfo, carriesCredentials. simpl.
  destruct certData, keyData, provider; simpl;
    repeat case_bool_decide; simpl in *; try lia; try done;
    repeat match goal with
           | H : ¬ (_ ≠ _) |- _ => apply dec_stable in H
           end;
    subst; reflexivity.
Qed.

(** X20. The kubeconfig that [NewKubeConfig] builds is closed: its
    current context is among its contexts, the cluster and the user of that
    context are among its clusters and its users, each of the three maps has
    this one entry, the context carries the given namespace, the cluster the
    host as its server and the user what [newAuthInfo] returns. *)
Theorem NewKubeConfig_closed (restConfig : RestConfig) (namespace : string) :
  let config := NewKubeConfig restConfig namespace in
  ∃ context cluster user,
    Contexts config !! CurrentContext config = Some context ∧
    Clusters config !! ctx_Cluster context = Some cluster ∧
    AuthInfos config !! ctx_AuthInfo context = Some user ∧
    size (Contexts config) = 1 ∧ size (Clusters config) = 1 ∧ size (AuthInfos config) = 1 ∧
    ctx_Namespace context = namespace ∧
    cl_Server cluster = Host restConfig ∧
    user = newAuthInfo restConfig.
Proof.
  cbv zeta. unfold NewKubeConfig. cbn [CurrentContext Contexts Clusters AuthInfos].
  eexists _, _, _. split; [apply lookup_singleton_eq|]. cbn [ctx_Cluster ctx_AuthInfo].
  split; [apply lookup_singleton_eq|]. split; [apply lookup_singleton_eq|].
  rewrite !map_size_singleton. done.
Qed.

(** ** ServerResourceForGroupVersionKind *)

Lemma firstOfKind_Some kind resources r :
  firstOfKind kind resources = Some r ↔
  ∃ i, resources !! i = Some r ∧ api_Kind r = kind ∧
       ∀ j r', j < i → resources !! j = Some r' → api_Kind r' ≠ kind.
Proof.
  induction resources as [|r0 resources IH]; simpl.
  - split; [done|]. by intros (i & Hi & _).
  - case_bool_decide as Hkind.
    + split.
      * intros [= <-]. exists 0. split; [done|]. split; [done|]. lia.
      * intros (i & Hi & Hr & Hfirst). destruct i as [|i]; [by injection Hi as <-|].
        destruct (Hfirst 0 r0); [lia|done|done].
    + rewrite IH. split.
      * intros (i & Hi & Hr & Hfirst). exists (S i). split; [done|]. split; [done|].
        intros [|j] r' Hj Hr'; [by injection Hr' as <-|]. apply (Hfirst j); [lia|done].
      * intros (i & Hi & Hr & Hfirst). destruct i as [|i]; [by injection Hi as ->|].
        exists i. split; [done|]. split; [done|].
        intros j r' Hj Hr'. apply (Hfirst (S j)); [lia|done].
Qed.

Lemma firstOfKind_None kind resources :
  firstOfKind kind resources = None ↔ Forall (fun r => api_Kind r ≠ kind) resources.
Proof.
  induction resources as [|r0 resources IH]; simpl; [done|].
  rewrite Forall_cons. case_bool_decide; [|by rewrite IH; intuition].
  split; [done|]. by intros [? _].
Qed.

(** X21. [ServerResourceForGroupVersionKind] asks the discovery
    client for the resources of the group and version of the kind.  An error
    of the client is returned as it is.  Otherwise the first resource of the
    list whose kind is the kind asked for is returned; when the list has
    none, the error is the not-found error for the group and the kind, with an
    empty name. *)
Theorem ServerResourceForGroupVersionKind_first (disco : Discovery)
    (gvk : GroupVersionKind) :
  match ServerResourcesForGroupVersion disco (GroupVersion_String gvk) with
  | inr err => ServerResourceForGroupVersionKind disco gvk = inr err
  | inl resources =>
      (∀ r, ServerResourceForGroupVersionKind disco gvk = inl r ↔
         ∃ i, resources !! i = Some r ∧ api_Kind r = gvkKind gvk ∧
              ∀ j r', j < i → resources !! j = Some r' → api_Kind r' ≠ gvkKind gvk) ∧
      (Forall (fun r => api_Kind r ≠ gvkKind gvk) resources →
       ServerResourceForGroupVersionKind disco gvk
       = inr (apierr_NewNotFound disco (gvkGroup gvk) (gvkKind gvk) "")) ∧
      (is_Some (firstOfKind (gvkKind gvk) resources) ∨
       Forall (fun r => api_Kind r ≠ gvkKind gvk) resources)
  end.
Proof.
  unfold ServerResourceForGroupVersionKind.
  destruct (ServerResourcesForGroupVersion disco (GroupVersion_String gvk))
    as [resources|err]; [|done].
  split; [|split].
  - intros r. rewrite <- firstOfKind_Some.
    destruct (firstOfKind (gvkKind gvk) resources); split; congruence.
  - intros Hnone%firstOfKind_None. by rewrite Hnone.
  - destruct (firstOfKind (gvkKind gvk) resources) eqn:Hfirst; [by left; eexists|].
    right. by apply firstOfKind_None.
Qed.

(** ** persistRevisionHistory *)






(** ** What the pass hands to Reconcile *)

(** X23. The target objects that a pass hands to [Reconcile] have
    pairwise different keys, carry the namespace that deduplication gives
    them, and none is of a kind that the settings exclude; the live objects
    it hands over are all permitted by the project on the destination
    server. *)
Theorem comparePrepare_reconciles (P : Packages) (rt : Runtime) (m : appStateManager)
    (app : Application) (project : AppProject) (revision : string)
    (source : ApplicationSource) (noCache : bool) (localManifests : list string)
    (appLabelKey : string) (normalizer : Normalizer) :
  let namespace := dest_Namespace (Destination (Spec app)) in
  let server := Server (Destination (Spec app)) in
  let infoProvider := clusterInfoProvider m app in
  ∃ targets live L,
    passTargets P rt m app revision source noCache localManifests appLabelKey
      = Done targets ∧
    comparePrepare P rt m app project revision source noCache localManifests
      appLabelKey normalizer = Done L ∧
    reconciliation L = sync_Reconcile P targets live namespace infoProvider ∧
    NoDup (GetResourceKey <$> targets) ∧
    Forall (fun obj => GetNamespace obj = imputedNamespace namespace infoProvider obj)
      targets ∧
    (∀ resFilter, GetResourcesFilter (settingsMgr m) = inl resFilter →
       Forall (fun obj =>
                 IsExcludedResource resFilter (gvkGroup (GroupVersionKind_of obj))
                   (gvkKind (GroupVersionKind_of obj)) server = false) targets) ∧
    (∀ key v, live !! key = Some v → IsLiveResourcePermitted project v server = true).
Proof.
  intros namespace server infoProvider.
  unfold passTargets, comparePrepare.
  destruct (loadTargets _ _ _ _ _ _ _ _ _) as [[[targetObjs info] conds] failed].
  unfold dedupStep. rewrite DeduplicateTargetObjects_run. simpl.
  fold namespace server infoProvider.
  set (entries := go_range (dedupOrder rt) (groupTargets namespace infoProvider targetObjs)).
  destruct (go_range_groupTargets namespace infoProvider (dedupOrder rt) targetObjs)
    as [Hnodup Hent].
  fold entries in Hnodup, Hent.
  assert (Hkeys : NoDup (GetResourceKey <$> keptTargets entries)).
  { rewrite (keptTargets_keys namespace infoProvider entries targetObjs); [done|].
    intros key targets Hin. by apply Hent. }
  assert (Hns : Forall (fun obj => GetNamespace obj
                                   = imputedNamespace namespace infoProvider obj)
                  (keptTargets entries)).
  { apply Forall_forall. intros obj Hin.
    apply (keptTargets_input namespace infoProvider (dedupOrder rt)) in Hin.
    apply list_elem_of_fmap in Hin as (obj0 & -> & _).
    pose proof (imputeNamespace_idempotent namespace infoProvider obj0) as Hidem.
    rewrite (imputeNamespace_SetNamespace namespace infoProvider
               (imputeNamespace namespace infoProvider obj0)) in Hidem.
    apply (f_equal GetNamespace) in Hidem. done. }
  unfold excludeStep.
  destruct (GetResourcesFilter (settingsMgr m)) as [resFilter|ferr].
  - rewrite excludeLoop_take by done. cbv beta iota zeta. simpl.
    rewrite take_ge, drop_ge, app_nil_r by done.
    set (targets := filter _ (keptTargets entries)).
    destruct (GetManagedLiveObjs (liveStateCache m) app targets) as [live|lerr];
      (destruct (diff_DiffArray _ _ _ _) as [diffs|derr]);
      eexists targets, _, _; (split; [done|]); (split; [done|]); (split; [done|]);
      (split; [eapply sublist_NoDup; [exact Hkeys|]; apply fmap_sublist, sublist_filter|]);
      (split; [eapply Forall_forall; intros obj [_ Hobj]%list_elem_of_filter;
               by apply (proj1 (Forall_forall _ _) Hns)|]);
      (split; [intros ? [= <-]; apply Forall_forall; by intros obj [? _]%list_elem_of_filter|]);
      intros key v Hv; by apply dropUnpermitted_lookup in Hv as [_ ?].
  - simpl.
    destruct (GetManagedLiveObjs (liveStateCache m) app (keptTargets entries)) as [live|lerr];
      (destruct (diff_DiffArray _ _ _ _) as [diffs|derr]);
      eexists (keptTargets entries), _, _;
      (split; [done|]); (split; [done|]); (split; [done|]);
      (split; [done|]); (split; [done|]); (split; [done|]);
      intros key v Hv; by apply dropUnpermitted_lookup in Hv as [_ ?].
Qed.

(** ** UnsetLabel *)

Lemma UnsetLabel_labels (target : Unstructured) (key : string) :
  UnsetLabel target key = SetLabels target (delete key (GetLabels target)).
Proof.
  unfold UnsetLabel. destruct (GetLabels target !! key) as [v|] eqn:Hkey.
  - case_bool_decide as Hsize; [|done].
    apply map_size_empty_iff in Hsize. by rewrite Hsize.
  - rewrite delete_id by done. by destruct target.
Qed.

(** X24. After [UnsetLabel] the object has no label of the given
    key, so that [GetAppInstanceLabel] returns the empty string for it; every
    other label, and everything else of the object, is as before; and when
    the object has no such label it is not changed at all. *)
Theorem UnsetLabel_removes (target : Unstructured) (key : string) :
  GetAppInstanceLabel (UnsetLabel target key) key = "" ∧
  (∀ key', key' ≠ key →
     GetLabels (UnsetLabel target key) !! key' = GetLabels target !! key') ∧
  SetLabels (UnsetLabel target key) (GetLabels target) = target ∧
  (GetLabels target !! key = None → UnsetLabel target key = target) ∧
  UnsetLabel (UnsetLabel target key) key = UnsetLabel target key.
Proof.
  rewrite !UnsetLabel_labels. unfold GetAppInstanceLabel. simpl.
  split; [by rewrite lookup_delete_eq|].
  split; [by intros key' Hne; rewrite lookup_delete_ne|].
  split; [by destruct target|].
  split; [by intros Hnone; rewrite delete_id by done; destruct target|].
  unfold SetLabels. simpl. by rewrite delete_delete_eq.
Qed.
